(** * Assessment engine of the e-learning platform: grading, scoring,
      attempt lifecycle, instance generation and fingerprinting.

    The development embeds the Python sources
      app/utils/quiz_grader.py, app/utils/quiz_randomizer.py,
      app/services/quiz_attempt_service.py, app/services/quiz_service.py,
      app/models/{question,quiz,quiz_attempt}.py
    as Rocq functions and proves the properties of the specification
    about them.

    Conventions of the embedding.
    - Python [int] is [Z]; a Python [float] is the rational number it
      denotes, and every float operation rounds its exact result to the
      nearest binary64 value, ties to even (module [Float64]).
    - A Python [dict] with string keys is a [gmap string _]; [set] is [gset].
    - A function that may raise returns a [result]; the services that catch
      exceptions turn them into the [(None, message)] pair of the source.
    - The database session is explicit state: a [database] goes in, and the
      committed (or rolled back) [database] comes out.
    - The module-global random generator is an explicit [rng] value.
    - The values of the JSON column [answers_given] are those the sources
      document: an index or a list of indices under the key of a question,
      and the instance dict under '_quiz_instance' ([answer_data]).
    - The [question_id] of a request is any JSON value: an int or, for
      every other value, the text that [str] makes of it ([json_id]). *)

From Stdlib Require Import ZArith QArith Qround Qpower Qabs Lqa Lia.
From Stdlib Require Import List Sorted Ascii String.
From Stdlib Require Import Floats.
From stdpp Require Import gmap strings list pretty.

#[local] Set Warnings "-register-all".
Local Open Scope Z_scope.

(** ** Binary64 arithmetic, as far as the grader uses it *)

Module Float64.

(** Round to the nearest integer, ties to even. *)
Definition round_half_even (x : Q) : Z :=
  let f := Qfloor x in
  match Qcompare (x - inject_Z f) (1 # 2) with
  | Lt => f
  | Gt => f + 1
  | Eq => if Z.even f then f else f + 1
  end.

(** [ilog2 x] is the integer [E] with [2^E <= x < 2^(E+1)], for [0 < x]. *)
Definition ilog2 (x : Q) : Z :=
  let l := Z.log2 (Qnum x) - Z.log2 (Z.pos (Qden x)) in
  if Qle_bool (2 ^ l) x then l else l - 1.

(** A positive real rounded to 53 significant bits.  The exponent is not
    bounded: the quotients and products of the grader stay far inside the
    normal range of binary64 (no overflow, no subnormal numbers) as long
    as the point totals are below 2^1000. *)
Definition round_pos (x : Q) : Q :=
  let e := ilog2 x - 52 in
  (inject_Z (round_half_even (x / 2 ^ e)) * 2 ^ e)%Q.

Definition round_float (x : Q) : Q :=
  Qred match Qcompare x 0 with
       | Eq => 0
       | Gt => round_pos x
       | Lt => - round_pos (- x)
       end%Q.

(** Python's [a / b] on two ints: the correctly rounded quotient. *)
Definition int_truediv (a b : Z) : Q :=
  round_float (inject_Z a / inject_Z b).

(** Python's [x * y] on floats. *)
Definition float_mul (x y : Q) : Q := round_float (x * y).

(** Python's [round(x, 2)]: the exact value of [x] is rounded to two
    decimal places, ties to even, and the decimal result is converted
    back to the nearest float. *)
Definition py_round2 (x : Q) : Q :=
  round_float (inject_Z (round_half_even (x * 100)) / 100).

(** Python's [x >= n] between a float and an int compares the exact
    values. *)
Definition float_ge_int (x : Q) (n : Z) : bool := Qle_bool (inject_Z n) x.

(** The value of a binary64 datum of the kernel, to compare the
    definitions above with the machine operations. *)
Definition SF2Q (f : SpecFloat.spec_float) : Q :=
  match f with
  | SpecFloat.S754_finite s m e =>
      ((if s then -1 else 1) * inject_Z (Z.pos m) * 2 ^ e)%Q
  | _ => 0%Q
  end.

Definition machine_div (a b : PrimFloat.float) : Q :=
  Qred (SF2Q (FloatOps.Prim2SF (PrimFloat.div a b))).

Definition machine_mul (a b : PrimFloat.float) : Q :=
  Qred (SF2Q (FloatOps.Prim2SF (PrimFloat.mul a b))).

End Float64.

(** ** hashlib.sha256 (FIPS 180-4), on bytes given as integers 0..255 *)

Module Sha256.

Definition w32 (x : Z) : Z := x mod 2 ^ 32.
Definition add32 (x y : Z) : Z := w32 (x + y).
Definition rotr (n x : Z) : Z :=
  Z.lor (Z.shiftr x n) (w32 (Z.shiftl x (32 - n))).
Definition not32 (x : Z) : Z := 2 ^ 32 - 1 - x.

Definition Ch (x y z : Z) : Z := Z.lxor (Z.land x y) (Z.land (not32 x) z).
Definition Maj (x y z : Z) : Z :=
  Z.lxor (Z.lxor (Z.land x y) (Z.land x z)) (Z.land y z).
Definition Sigma0 (x : Z) : Z := Z.lxor (Z.lxor (rotr 2 x) (rotr 13 x)) (rotr 22 x).
Definition Sigma1 (x : Z) : Z := Z.lxor (Z.lxor (rotr 6 x) (rotr 11 x)) (rotr 25 x).
Definition sigma0 (x : Z) : Z := Z.lxor (Z.lxor (rotr 7 x) (rotr 18 x)) (Z.shiftr x 3).
Definition sigma1 (x : Z) : Z := Z.lxor (Z.lxor (rotr 17 x) (rotr 19 x)) (Z.shiftr x 10).

(** The constants are derived as the standard prescribes, from the first
    prime numbers. *)
Definition is_prime (p : Z) : bool :=
  (1 <? p) && forallb (fun d => negb (p mod Z.of_nat d =? 0)) (seq 2 (Z.to_nat p - 2)).

Definition first_primes (n : nat) : list Z :=
  firstn n (List.filter is_prime (map Z.of_nat (seq 2 310))).

(** The integer cube root of [n], bit by bit from bit [b - 1] down. *)
Fixpoint cube_root_bits (b : nat) (n r : Z) : Z :=
  match b with
  | O => r
  | S b' =>
      let c := r + 2 ^ Z.of_nat b' in
      cube_root_bits b' n (if c * c * c <=? n then c else r)
  end.

(** The first 32 bits of the fractional parts of the cube roots of the
    first 64 primes. *)
Definition K : list Z :=
  map (fun p => w32 (cube_root_bits 36 (p * 2 ^ 96) 0)) (first_primes 64).

(** The first 32 bits of the fractional parts of the square roots of the
    first 8 primes. *)
Definition H0 : list Z :=
  map (fun p => w32 (Z.sqrt (p * 2 ^ 64))) (first_primes 8).

(** Big-endian bytes of [x], [n] of them. *)
Fixpoint be_bytes (n : nat) (x : Z) : list Z :=
  match n with
  | O => []
  | S n' => Z.shiftr x (8 * Z.of_nat n') mod 256 :: be_bytes n' x
  end.

Definition be_word (bs : list Z) : Z :=
  fold_left (fun acc b => acc * 256 + b) bs 0.

(** The message, a 1 bit, zero bits up to 56 mod 64 bytes, and the bit
    length on 8 bytes. *)
Definition pad (msg : list Z) : list Z :=
  let len := Z.of_nat (length msg) in
  let zeros := Z.to_nat ((55 - len) mod 64) in
  msg ++ [128] ++ repeat 0 zeros ++ be_bytes 8 (8 * len).

Fixpoint chunks (fuel size : nat) (l : list Z) : list (list Z) :=
  match fuel with
  | O => []
  | S fuel' =>
      match l with
      | [] => []
      | _ => firstn size l :: chunks fuel' size (skipn size l)
      end
  end.

Definition nthZ (l : list Z) (i : nat) : Z := nth i l 0.

(** The message schedule: 16 words of the block, extended to 64. *)
Fixpoint schedule (n : nat) (w : list Z) : list Z :=
  match n with
  | O => w
  | S n' =>
      let i := length w in
      let x := add32 (add32 (sigma1 (nthZ w (i - 2))) (nthZ w (i - 7)))
                     (add32 (sigma0 (nthZ w (i - 15))) (nthZ w (i - 16))) in
      schedule n' (w ++ [x])
  end.

Definition round (st : list Z) (kw : Z * Z) : list Z :=
  match st with
  | [a; b; c; d; e; f; g; h] =>
      let t1 := add32 (add32 (add32 h (Sigma1 e)) (add32 (Ch e f g) (fst kw))) (snd kw) in
      let t2 := add32 (Sigma0 a) (Maj a b c) in
      [add32 t1 t2; a; b; c; add32 d t1; e; f; g]
  | _ => st
  end.

Definition compress (h : list Z) (block : list Z) : list Z :=
  let w := schedule 48 (map be_word (chunks 16 4 block)) in
  let st := fold_left round (combine K w) h in
  map (fun p => add32 (fst p) (snd p)) (combine h st).

Definition digest (msg : list Z) : list Z :=
  let p := pad msg in
  let h := fold_left compress (chunks (length p) 64 p) H0 in
  flat_map (be_bytes 4) h.

Definition hex_digit (n : Z) : ascii :=
  nth (Z.to_nat n)
    (list_ascii_of_string "0123456789abcdef") "0"%char.

Definition hex_byte (b : Z) : list ascii := [hex_digit (b / 16); hex_digit (b mod 16)].

(** [hashlib.sha256(data).hexdigest()] *)
Definition hexdigest (msg : list Z) : string :=
  string_of_list_ascii (flat_map hex_byte (digest msg)).

(** [str.encode()] of a string of ASCII characters. *)
Definition encode (s : string) : list Z :=
  map (fun c => Z.of_nat (nat_of_ascii c)) (list_ascii_of_string s).

End Sha256.

(** ** json.dumps(obj, sort_keys=True), for the values the fingerprint uses *)

Module Json.

(** A Python value as [json.dumps] sees it.  A dict keeps its items in
    insertion order; its keys are all [str] or all [int]. *)
Inductive value :=
| Null
| Int (n : Z)
| List (items : list value)
| StrDict (items : list (string * value))
| IntDict (items : list (Z * value)).

Section Sorting.
Context {K V : Type} (leb : K -> K -> bool).

Fixpoint insert_item (x : K * V) (l : list (K * V)) : list (K * V) :=
  match l with
  | [] => [x]
  | y :: l' => if leb (fst x) (fst y) then x :: l else y :: insert_item x l'
  end.

(** [sorted(d.items())]: the keys of a dict are distinct, so that the
    order of the result is that of the keys. *)
Definition sort_items (l : list (K * V)) : list (K * V) :=
  fold_right insert_item [] l.
End Sorting.

Definition string_leb (a b : string) : bool :=
  match String.compare a b with Gt => false | _ => true end.

(** [", ".join(parts)] *)
Fixpoint join (parts : list string) : string :=
  match parts with
  | [] => EmptyString
  | [p] => p
  | p :: ps => p +:+ ", " +:+ join ps
  end.

Definition dquote : string := String (ascii_of_nat 34) EmptyString.

Definition quote (s : string) : string := dquote +:+ s +:+ dquote.

Definition dump_item (kv : string * string) : string :=
  quote (fst kv) +:+ ": " +:+ snd kv.

(** The keys are sorted as the objects they are (an [int] key as a
    number), and written as strings afterwards. *)
Fixpoint dumps (v : value) : string :=
  match v with
  | Null => "null"
  | Int n => pretty n
  | List items => "[" +:+ join (map dumps items) +:+ "]"
  | StrDict items =>
      let rendered := map (fun kv => (fst kv, dumps (snd kv))) items in
      "{" +:+ join (map dump_item (sort_items string_leb rendered)) +:+ "}"
  | IntDict items =>
      let rendered := map (fun kv => (fst kv, dumps (snd kv))) items in
      "{" +:+ join (map (fun kv => dump_item (pretty (fst kv), snd kv))
                        (sort_items Z.leb rendered)) +:+ "}"
  end.

End Json.

(** ** Exceptions and results *)

Inductive exn :=
| ValueError (msg : string)
| AttributeError (msg : string)
| TypeError (msg : string)
| KeyError (msg : string).

(** [str(e)] *)
Definition str_exn (e : exn) : string :=
  match e with
  | ValueError m | AttributeError m | TypeError m | KeyError m => m
  end.

Inductive result (A : Type) :=
| Ok (a : A)
| Raise (e : exn).
Arguments Ok {A} a.
Arguments Raise {A} e.

Definition bind {A B} (r : result A) (k : A -> result B) : result B :=
  match r with
  | Ok a => k a
  | Raise e => Raise e
  end.

Notation "x <- r ;; k" := (bind r (fun x => k))
  (at level 100, r at next level, right associativity).

(** ** The catalog: questions and quizzes (app/models) *)

(** One entry of [Question.answers]:
    [{text: ..., is_correct: ..., explanation: ...}]. *)
Record answer_option := {
  text : string;
  is_correct : bool;          (* answer.get('is_correct', False) *)
  explanation : option string
}.

Module Question.
Record t := {
  id : Z;
  quiz_id : Z;
  question_text : string;
  question_type : string;
  answers : list answer_option;
  points : Z;
  order_index : Z
}.

(** [enumerate(l)], from index [i]. *)
Fixpoint enumerate_from {A} (i : Z) (l : list A) : list (Z * A) :=
  match l with
  | [] => []
  | x :: l' => (i, x) :: enumerate_from (i + 1) l'
  end.

Definition enumerate {A} (l : list A) : list (Z * A) := enumerate_from 0 l.

(** [[i for i, answer in enumerate(self.answers)
       if answer.get('is_correct', False)]] *)
Definition correct_answers (q : t) : list Z :=
  map fst (filter (fun ia => is_correct (snd ia)) (enumerate (answers q))).
End Question.

Module Quiz.
Record t := {
  id : Z;
  question_pool_size : option Z;
  minimum_score : Z;
  is_eliminatory : bool;
  randomize_answers : bool;
  (* the relationship [questions], in the order of the query
     (order_by Question.order_index) *)
  questions : list Question.t
}.
End Quiz.

(** ** Quiz instances (the dicts of generate_quiz_instance) *)

Module QuestionData.
Record t := {
  question_id : Z;
  question_text : string;
  question_type : string;
  points : Z;
  order_index : Z;
  answers : list answer_option;
  answer_mapping : gmap Z Z
}.
End QuestionData.

Module QuizInstance.
(** The instance dict.  [generate_quiz_instance] builds it with the
    keys quiz_id, questions, question_ids and quiz_hash; the copy that
    [start_attempt] stores has no 'questions' key. *)
Record t := {
  quiz_id : Z;
  questions : option (list QuestionData.t);
  question_ids : list Z;
  quiz_hash : option string
}.

(** [len(d)]: the number of keys. *)
Definition len (d : t) : Z :=
  2 + match questions d with Some _ => 1 | None => 0 end
    + match quiz_hash d with Some _ => 1 | None => 0 end.
End QuizInstance.

(** ** Attempts (app/models/quiz_attempt.py) *)

(** A value of the JSON column [answers_given]: an answer (an index or a
    list of indices) under the key of its question, and the instance
    dict under '_quiz_instance'. *)
Inductive answer_data :=
| AInt (i : Z)
| AList (l : list Z)
| ADict (d : QuizInstance.t).

(** Python's truth value: [not v] is its negation. *)
Definition truthy (v : answer_data) : bool :=
  match v with
  | AInt i => negb (i =? 0)
  | AList l => match l with [] => false | _ => true end
  | ADict d => true     (* the dict has at least two keys *)
  end.

Module QuizAttempt.
Record t := {
  id : Z;
  user_id : Z;
  quiz_id : Z;
  answers_given : gmap string answer_data;
  score : Q;
  passed : bool;
  started_at : Z;               (* microseconds *)
  completed_at : option Z;
  time_taken : option Z         (* seconds *)
}.

Definition is_completed (a : t) : bool :=
  match completed_at a with Some _ => true | None => false end.

Definition is_in_progress (a : t) : bool :=
  match completed_at a with Some _ => false | None => true end.
End QuizAttempt.

(** The tables the engine reads and writes.  [attempt.quiz] is
    [quizzes db !! QuizAttempt.quiz_id attempt]. *)
Record database := {
  quizzes : gmap Z Quiz.t;
  quiz_attempts : gmap Z QuizAttempt.t;
  next_attempt_id : Z
}.

(** [str(n)] for an int. *)
Definition str (n : Z) : string := pretty n.

Definition instance_key : string := "_quiz_instance".

(** The [question_id] of a request.  The route hands over whatever JSON
    value the body holds, and the service reads it through
    [str(question_id)] only: an int, or any other value, given by the text
    that [str] makes of it (a JSON string is its own text). *)
Inductive json_id :=
| IdInt (i : Z)
| IdText (s : string).

Coercion IdInt : Z >-> json_id.

(** [str(question_id)] *)
Definition str_id (question_id : json_id) : string :=
  match question_id with
  | IdInt i => str i
  | IdText s => s
  end.

(** ** Grading (app/utils/quiz_grader.py) *)

Module GradeResult.
Record t := {
  correct : bool;
  points_earned : Z;
  correct_answers : list Z;
  user_answers : answer_data
}.
End GradeResult.

Definition grade_single_choice (question : Question.t) (user_answer : answer_data)
  : result GradeResult.t :=
  if negb (String.eqb (Question.question_type question) "single_choice") then
    Raise (ValueError "Question type must be 'single_choice'")
  else
    let correct_answers := Question.correct_answers question in
    let user_answers :=
      match user_answer with AInt i => AList [i] | _ => user_answer end in
    (* len(user_answers) == 1 and user_answers[0] in correct_answers *)
    is_correct <-
      match user_answers with
      | AList [x] => Ok (bool_decide (x ∈ correct_answers))
      | AList _ => Ok false
      | ADict d =>
          if QuizInstance.len d =? 1 then Raise (KeyError "0") else Ok false
      | AInt _ => Ok false
      end ;;
    let points_earned := if is_correct then Question.points question else 0 in
    Ok {| GradeResult.correct := is_correct;
          GradeResult.points_earned := points_earned;
          GradeResult.correct_answers := correct_answers;
          GradeResult.user_answers := user_answers |}.

Definition grade_multiple_choice (question : Question.t) (user_answers : answer_data)
  : result GradeResult.t :=
  if negb (String.eqb (Question.question_type question) "multiple_choice") then
    Raise (ValueError "Question type must be 'multiple_choice'")
  else
    let correct_answers : gset Z := list_to_set (Question.correct_answers question) in
    user_answer_set <-
      match user_answers with
      | AList l => Ok (list_to_set l : gset Z)
      | AInt i => Ok (list_to_set [i])
      | ADict _ => Raise (TypeError "unhashable type: 'dict'")
      end ;;
    let is_correct := bool_decide (user_answer_set = correct_answers) in
    let points_earned := if is_correct then Question.points question else 0 in
    Ok {| GradeResult.correct := is_correct;
          GradeResult.points_earned := points_earned;
          GradeResult.correct_answers := elements correct_answers;
          GradeResult.user_answers := AList (elements user_answer_set) |}.

(** [Question.check_answer] of the model class; the services grade with
    the two functions above, not with this method. *)
Definition Question_check_answer (self : Question.t) (selected_indices : answer_data)
  : result bool :=
  let correct : gset Z := list_to_set (Question.correct_answers self) in
  selected <-
    match selected_indices with
    | AList l => Ok (list_to_set l : gset Z)
    | AInt i => Ok (list_to_set [i])
    | ADict _ => Raise (TypeError "unhashable type: 'dict'")
    end ;;
  if String.eqb (Question.question_type self) "single_choice" then
    Ok (bool_decide (size selected = 1%nat) && bool_decide (selected = correct))
  else
    Ok (bool_decide (selected = correct)).

Module ScoreData.
Record t := {
  score_percentage : Q;
  points_earned : Z;
  total_points : Z;
  questions_correct : Z;
  total_questions : Z
}.
End ScoreData.

(** The four counters of the loop of [calculate_total_score]. *)
Record counters := {
  c_points_earned : Z;
  c_total_points : Z;
  c_questions_correct : Z;
  c_total_questions : Z
}.

Definition grade_question (question : Question.t) (user_answer : answer_data)
  : result GradeResult.t :=
  if String.eqb (Question.question_type question) "single_choice" then
    grade_single_choice question user_answer
  else
    grade_multiple_choice question user_answer.

(** The body of [for question in questions: ...]. *)
Fixpoint score_loop (answers_given : gmap string answer_data)
    (questions : list Question.t) (acc : counters) : result counters :=
  match questions with
  | [] => Ok acc
  | question :: rest =>
      let total_points := c_total_points acc + Question.points question in
      let total_questions := c_total_questions acc + 1 in
      match answers_given !! str (Question.id question) with
      | None =>
          score_loop answers_given rest
            {| c_points_earned := c_points_earned acc;
               c_total_points := total_points;
               c_questions_correct := c_questions_correct acc;
               c_total_questions := total_questions |}
      | Some user_answer =>
          r <- grade_question question user_answer ;;
          score_loop answers_given rest
            {| c_points_earned := c_points_earned acc + GradeResult.points_earned r;
               c_total_points := total_points;
               c_questions_correct :=
                 if GradeResult.correct r then c_questions_correct acc + 1
                 else c_questions_correct acc;
               c_total_questions := total_questions |}
      end
  end.

(** [attempt.answers_given.get('_quiz_instance', {}).get('question_ids', [])] *)
Definition selected_question_ids (answers_given : gmap string answer_data)
  : result (list Z) :=
  match answers_given !! instance_key with
  | None => Ok []
  | Some (ADict d) => Ok (QuizInstance.question_ids d)
  | Some (AInt _) => Raise (AttributeError "'int' object has no attribute 'get'")
  | Some (AList _) => Raise (AttributeError "'list' object has no attribute 'get'")
  end.

(** The questions that are graded: those of the quiz, as the catalog has
    them now, whose id is in the stored list; all of them when the list
    is empty. *)
Definition questions_to_grade (quiz : Quiz.t) (ids : list Z) : list Question.t :=
  match ids with
  | [] => Quiz.questions quiz
  | _ => filter (fun q => bool_decide (Question.id q ∈ ids)) (Quiz.questions quiz)
  end.

Definition percentage (points_earned total_points : Z) : Q :=
  if total_points >? 0 then
    Float64.float_mul (Float64.int_truediv points_earned total_points) 100
  else 0%Q.

Definition calculate_total_score (db : database) (attempt : QuizAttempt.t)
  : result ScoreData.t :=
  match quizzes db !! QuizAttempt.quiz_id attempt with
  | None =>
      Ok {| ScoreData.score_percentage := 0;
            ScoreData.points_earned := 0;
            ScoreData.total_points := 0;
            ScoreData.questions_correct := 0;
            ScoreData.total_questions := 0 |}
  | Some quiz =>
      ids <- selected_question_ids (QuizAttempt.answers_given attempt) ;;
      acc <- score_loop (QuizAttempt.answers_given attempt)
               (questions_to_grade quiz ids)
               {| c_points_earned := 0; c_total_points := 0;
                  c_questions_correct := 0; c_total_questions := 0 |} ;;
      let score_percentage :=
        percentage (c_points_earned acc) (c_total_points acc) in
      Ok {| ScoreData.score_percentage := Float64.py_round2 score_percentage;
            ScoreData.points_earned := c_points_earned acc;
            ScoreData.total_points := c_total_points acc;
            ScoreData.questions_correct := c_questions_correct acc;
            ScoreData.total_questions := c_total_questions acc |}
  end.

Definition determine_pass_fail (score : Q) (minimum_score : Z) : bool :=
  Float64.float_ge_int score minimum_score.

(** ** The attempt service (app/services/quiz_attempt_service.py) *)

Module Grading.
(** The dict that [grade_attempt] returns. *)
Record t := {
  score_percentage : Q;
  points_earned : Z;
  total_points : Z;
  questions_correct : Z;
  total_questions : Z;
  passed : bool
}.
End Grading.

Definition grade_attempt (db : database) (attempt : QuizAttempt.t)
  : result Grading.t :=
  score_data <- calculate_total_score db attempt ;;
  match quizzes db !! QuizAttempt.quiz_id attempt with
  | None =>
      Raise (AttributeError "'NoneType' object has no attribute 'minimum_score'")
  | Some quiz =>
      let passed :=
        determine_pass_fail (ScoreData.score_percentage score_data)
                            (Quiz.minimum_score quiz) in
      Ok {| Grading.score_percentage := ScoreData.score_percentage score_data;
            Grading.points_earned := ScoreData.points_earned score_data;
            Grading.total_points := ScoreData.total_points score_data;
            Grading.questions_correct := ScoreData.questions_correct score_data;
            Grading.total_questions := ScoreData.total_questions score_data;
            Grading.passed := passed |}
  end.

(** What a service returns: [(attempt, None)] or [(None, message)]. *)
Definition outcome : Type := option QuizAttempt.t * option string.

Definition not_found_message : string := "Tentative introuvable.".
Definition completed_message : string := "Cette tentative est déjà terminée.".
Definition quiz_not_found_message : string := "Quiz introuvable.".

(** [db.session.commit()] after the row loaded by
    [QuizAttempt.query.get(attempt_id)] was modified. *)
Definition commit_attempt (db : database) (attempt_id : Z)
    (attempt : QuizAttempt.t) : database :=
  {| quizzes := quizzes db;
     quiz_attempts := <[attempt_id := attempt]> (quiz_attempts db);
     next_attempt_id := next_attempt_id db |}.

(** [now] is [datetime.utcnow()], in microseconds. *)
Definition start_attempt (now : Z) (db : database)
    (user_id quiz_id : Z) (quiz_instance : QuizInstance.t) : database * outcome :=
  match quizzes db !! quiz_id with
  | None => (db, (None, Some quiz_not_found_message))
  | Some quiz =>
      match QuizInstance.quiz_hash quiz_instance with
      | None =>
          (* quiz_instance['quiz_hash'] raises KeyError; rollback *)
          (db, (None, Some ("Erreur lors du démarrage de la tentative: "
                            +:+ str_exn (KeyError "'quiz_hash'"))))
      | Some h =>
          let answers_given : gmap string answer_data :=
            {[ instance_key :=
                 ADict {| QuizInstance.quiz_id := QuizInstance.quiz_id quiz_instance;
                          QuizInstance.questions := None;
                          QuizInstance.question_ids :=
                            QuizInstance.question_ids quiz_instance;
                          QuizInstance.quiz_hash := Some h |} ]} in
          let attempt :=
            {| QuizAttempt.id := next_attempt_id db;
               QuizAttempt.user_id := user_id;
               QuizAttempt.quiz_id := quiz_id;
               QuizAttempt.answers_given := answers_given;
               QuizAttempt.score := 0;
               QuizAttempt.passed := false;
               QuizAttempt.started_at := now;
               QuizAttempt.completed_at := None;
               QuizAttempt.time_taken := None |} in
          ({| quizzes := quizzes db;
              quiz_attempts := <[QuizAttempt.id attempt := attempt]> (quiz_attempts db);
              next_attempt_id := next_attempt_id db + 1 |},
           (Some attempt, None))
      end
  end.

Definition submit_answer (db : database) (attempt_id : Z) (question_id : json_id)
    (answer : answer_data) : database * outcome :=
  match quiz_attempts db !! attempt_id with
  | None => (db, (None, Some not_found_message))
  | Some attempt =>
      if QuizAttempt.is_completed attempt then
        (db, (None, Some completed_message))
      else
        (* answers = attempt.answers_given.copy();
           answers[str(question_id)] = answer *)
        let answers :=
          <[str_id question_id := answer]> (QuizAttempt.answers_given attempt) in
        let attempt' :=
          {| QuizAttempt.id := QuizAttempt.id attempt;
             QuizAttempt.user_id := QuizAttempt.user_id attempt;
             QuizAttempt.quiz_id := QuizAttempt.quiz_id attempt;
             QuizAttempt.answers_given := answers;
             QuizAttempt.score := QuizAttempt.score attempt;
             QuizAttempt.passed := QuizAttempt.passed attempt;
             QuizAttempt.started_at := QuizAttempt.started_at attempt;
             QuizAttempt.completed_at := QuizAttempt.completed_at attempt;
             QuizAttempt.time_taken := QuizAttempt.time_taken attempt |} in
        (commit_attempt db attempt_id attempt', (Some attempt', None))
  end.

(** [int(time_delta.total_seconds())]: whole seconds, truncated toward 0. *)
Definition elapsed_seconds (started_at completed_at : Z) : Z :=
  Z.quot (completed_at - started_at) 1000000.

Definition complete_attempt (now : Z) (db : database) (attempt_id : Z)
  : database * outcome :=
  match quiz_attempts db !! attempt_id with
  | None => (db, (None, Some not_found_message))
  | Some attempt =>
      if QuizAttempt.is_completed attempt then
        (db, (None, Some completed_message))
      else
        let attempt1 :=
          {| QuizAttempt.id := QuizAttempt.id attempt;
             QuizAttempt.user_id := QuizAttempt.user_id attempt;
             QuizAttempt.quiz_id := QuizAttempt.quiz_id attempt;
             QuizAttempt.answers_given := QuizAttempt.answers_given attempt;
             QuizAttempt.score := QuizAttempt.score attempt;
             QuizAttempt.passed := QuizAttempt.passed attempt;
             QuizAttempt.started_at := QuizAttempt.started_at attempt;
             QuizAttempt.completed_at := Some now;
             QuizAttempt.time_taken :=
               Some (elapsed_seconds (QuizAttempt.started_at attempt) now) |} in
        match grade_attempt db attempt1 with
        | Raise e =>
            (* db.session.rollback() *)
            (db, (None, Some ("Erreur lors de la finalisation de la tentative: "
                              +:+ str_exn e)))
        | Ok grading_result =>
            let attempt2 :=
              {| QuizAttempt.id := QuizAttempt.id attempt1;
                 QuizAttempt.user_id := QuizAttempt.user_id attempt1;
                 QuizAttempt.quiz_id := QuizAttempt.quiz_id attempt1;
                 QuizAttempt.answers_given := QuizAttempt.answers_given attempt1;
                 QuizAttempt.score := Grading.score_percentage grading_result;
                 QuizAttempt.passed := Grading.passed grading_result;
                 QuizAttempt.started_at := QuizAttempt.started_at attempt1;
                 QuizAttempt.completed_at := QuizAttempt.completed_at attempt1;
                 QuizAttempt.time_taken := QuizAttempt.time_taken attempt1 |} in
            (commit_attempt db attempt_id attempt2, (Some attempt2, None))
        end
  end.

(** ** Randomization and fingerprint (app/utils/quiz_randomizer.py) *)

(** The state of the module [random]: the numbers it will draw. *)
Definition rng : Type := list nat.

Definition randbelow (n : nat) (g : rng) : nat * rng :=
  match g with
  | [] => (0%nat, [])
  | r :: g' => ((r mod n)%nat, g')
  end.

(** [x[i], x[j] = x[j], x[i]] *)
Definition swap {A} (x : list A) (i j : nat) : list A :=
  match x !! i, x !! j with
  | Some a, Some b => <[i := b]> (<[j := a]> x)
  | _, _ => x
  end.

(** [random.shuffle(x)]:
    [for i in reversed(range(1, len(x))): j = randbelow(i + 1); swap]. *)
Fixpoint shuffle_from {A} (i : nat) (x : list A) (g : rng) : list A * rng :=
  match i with
  | O => (x, g)
  | S i' =>
      let (j, g') := randbelow (S i) g in
      shuffle_from i' (swap x i j) g'
  end.

Definition random_shuffle {A} (x : list A) (g : rng) : list A * rng :=
  shuffle_from (length x - 1) x g.

(** The selection loop of [random.sample]: draw a position of the pool,
    take its element, and move the last element of the pool there. *)
Fixpoint sample_loop {A} (k : nat) (pool : list A) (g : rng) : list A * rng :=
  match k with
  | O => ([], g)
  | S k' =>
      let n := length pool in
      let (j, g') := randbelow n g in
      match pool !! j, pool !! (n - 1)%nat with
      | Some a, Some last =>
          let (r, g'') := sample_loop k' (take (n - 1) (<[j := last]> pool)) g' in
          (a :: r, g'')
      | _, _ => ([], g')
      end
  end.

Definition random_sample {A} (population : list A) (k : Z) (g : rng)
  : result (list A) * rng :=
  if (k <? 0) || (Z.of_nat (length population) <? k) then
    (Raise (ValueError "Sample larger than population or is negative"), g)
  else
    let (r, g') := sample_loop (Z.to_nat k) population g in (Ok r, g').

Definition randomize_question_selection (quiz : Quiz.t) (pool_size : option Z)
    (g : rng) : result (list Question.t) * rng :=
  let all_questions := Quiz.questions quiz in
  let n := Z.of_nat (length all_questions) in
  match pool_size with
  | None => (Ok all_questions, g)
  | Some p =>
      if p >=? n then (Ok all_questions, g)
      else random_sample all_questions (Z.min p n) g
  end.

(** [Quiz.get_questions_for_attempt] of the model class:
    [if self.question_pool_size and self.question_pool_size < len(all)]. *)
Definition Quiz_get_questions_for_attempt (self : Quiz.t) (g : rng)
  : result (list Question.t) * rng :=
  let all_questions := Quiz.questions self in
  match Quiz.question_pool_size self with
  | Some p =>
      if negb (p =? 0) && (p <? Z.of_nat (length all_questions)) then
        random_sample all_questions p g
      else (Ok all_questions, g)
  | None => (Ok all_questions, g)
  end.

Module Randomized.
Record t := {
  question_id : Z;
  shuffled_answers : list answer_option;
  answer_mapping : gmap Z Z
}.
End Randomized.

(** [for new_index, (original_index, answer) in enumerate(indexed_answers)] *)
Fixpoint build_mapping (new_index : Z) (indexed_answers : list (Z * answer_option))
    (answer_mapping : gmap Z Z) (shuffled_answers : list answer_option)
  : gmap Z Z * list answer_option :=
  match indexed_answers with
  | [] => (answer_mapping, shuffled_answers)
  | (original_index, answer) :: rest =>
      build_mapping (new_index + 1) rest
        (<[new_index := original_index]> answer_mapping)
        (shuffled_answers ++ [answer])
  end.

Definition randomize_answer_order (question : Question.t) (g : rng)
  : Randomized.t * rng :=
  match Question.answers question with
  | [] =>
      ({| Randomized.question_id := Question.id question;
          Randomized.shuffled_answers := [];
          Randomized.answer_mapping := ∅ |}, g)
  | _ =>
      let indexed_answers := Question.enumerate (Question.answers question) in
      let (indexed_answers', g') := random_shuffle indexed_answers g in
      let (answer_mapping, shuffled_answers) :=
        build_mapping 0 indexed_answers' ∅ [] in
      ({| Randomized.question_id := Question.id question;
          Randomized.shuffled_answers := shuffled_answers;
          Randomized.answer_mapping := answer_mapping |}, g')
  end.

(** The dict [instance_data] of [generate_quiz_hash]. *)
Definition instance_data (quiz_instance : QuizInstance.t) : Json.value :=
  let questions := default [] (QuizInstance.questions quiz_instance) in
  Json.StrDict
    [ ("quiz_id", Json.Int (QuizInstance.quiz_id quiz_instance));
      ("question_ids",
        Json.List (map (fun q => Json.Int (QuestionData.question_id q)) questions));
      ("mappings",
        Json.List
          (map (fun q =>
                  Json.IntDict
                    (map (fun kv => (fst kv, Json.Int (snd kv)))
                         (map_to_list (QuestionData.answer_mapping q))))
               questions)) ].

Definition generate_quiz_hash (quiz_instance : QuizInstance.t) : string :=
  let instance_str := Json.dumps (instance_data quiz_instance) in
  Sha256.hexdigest (Sha256.encode instance_str).

(** [attempt] is [None] or an attempt; [quiz_hash] is a string, false
    when empty. *)
Definition validate_quiz_integrity (attempt : option QuizAttempt.t)
    (quiz_hash : string) : result bool :=
  match attempt with
  | None => Ok false
  | Some a =>
      if String.eqb quiz_hash EmptyString then Ok false
      else
        match QuizAttempt.answers_given a !! instance_key with
        | None => Ok true
        | Some quiz_instance =>
            if negb (truthy quiz_instance) then Ok true
            else
              match quiz_instance with
              | ADict d => Ok (String.eqb (generate_quiz_hash d) quiz_hash)
              | AInt _ =>
                  Raise (AttributeError "'int' object has no attribute 'get'")
              | AList _ =>
                  Raise (AttributeError "'list' object has no attribute 'get'")
              end
        end
  end.

(** ** Instance generation (app/services/quiz_service.py) *)

(** The identity mapping [{i: i for i in range(n)}]. *)
Definition identity_mapping (n : nat) : gmap Z Z :=
  list_to_map (map (fun i => (Z.of_nat i, Z.of_nat i)) (seq 0 n)).

(** [for question in selected_questions: ...] *)
Fixpoint build_questions_data (randomize : bool) (selected : list Question.t)
    (g : rng) : list QuestionData.t * rng :=
  match selected with
  | [] => ([], g)
  | question :: rest =>
      let '(answers, mapping, g1) :=
        if randomize then
          let (randomized, g') := randomize_answer_order question g in
          (Randomized.shuffled_answers randomized,
           Randomized.answer_mapping randomized, g')
        else
          (Question.answers question,
           identity_mapping (length (Question.answers question)), g) in
      let question_data :=
        {| QuestionData.question_id := Question.id question;
           QuestionData.question_text := Question.question_text question;
           QuestionData.question_type := Question.question_type question;
           QuestionData.points := Question.points question;
           QuestionData.order_index := Question.order_index question;
           QuestionData.answers := answers;
           QuestionData.answer_mapping := mapping |} in
      let (rest_data, g2) := build_questions_data randomize rest g1 in
      (question_data :: rest_data, g2)
  end.

(** Returns the instance, [None] when there is no quiz or no question was
    selected; an exception of [random.sample] is not caught. *)
Definition generate_quiz_instance (db : database) (quiz_id : Z) (g : rng)
  : result (option QuizInstance.t) * rng :=
  match quizzes db !! quiz_id with
  | None => (Ok None, g)
  | Some quiz =>
      match randomize_question_selection quiz (Quiz.question_pool_size quiz) g with
      | (Raise e, g1) => (Raise e, g1)
      | (Ok [], g1) => (Ok None, g1)
      | (Ok selected_questions, g1) =>
          let (questions_data, g2) :=
            build_questions_data (Quiz.randomize_answers quiz) selected_questions g1 in
          let question_ids := map Question.id selected_questions in
          let quiz_instance :=
            {| QuizInstance.quiz_id := quiz_id;
               QuizInstance.questions := Some questions_data;
               QuizInstance.question_ids := question_ids;
               QuizInstance.quiz_hash := None |} in
          let quiz_hash := generate_quiz_hash quiz_instance in
          (Ok (Some {| QuizInstance.quiz_id := quiz_id;
                       QuizInstance.questions := Some questions_data;
                       QuizInstance.question_ids := question_ids;
                       QuizInstance.quiz_hash := Some quiz_hash |}), g2)
      end
  end.

(** * The specification *)

(** The indices that an answer submits; a dict submits none. *)
Definition submitted_indices (user_answer : answer_data) : option (list Z) :=
  match user_answer with
  | AInt i => Some [i]
  | AList l => Some l
  | ADict _ => None
  end.

(** The set of an answer, as [grade_multiple_choice] builds it. *)
Definition submitted_set (l : list Z) : gset Z := list_to_set l.

(** The two policies in the words of the specification: exactly one
    index submitted, which is a correct option; the submitted set equal
    to the set of correct options. *)
Definition spec_correct (q : Question.t) (ua : answer_data) : bool :=
  if String.eqb (Question.question_type q) "single_choice" then
    match submitted_indices ua with
    | Some [x] => bool_decide (x ∈ Question.correct_answers q)
    | _ => false
    end
  else
    match submitted_indices ua with
    | Some l => bool_decide (submitted_set l = list_to_set (Question.correct_answers q))
    | None => false
    end.

(** An answer that the grader accepts for the question: any answer for
    single_choice, an index or a list of indices for multiple_choice;
    a question of another type is refused. *)
Definition gradable (q : Question.t) (ua : answer_data) : Prop :=
  Question.question_type q = "single_choice" \/
  (Question.question_type q = "multiple_choice" /\ submitted_indices ua <> None).

Definition sum_points (qs : list Question.t) : Z :=
  fold_right Z.add 0 (map Question.points qs).

(** The question was answered, and the answer is correct. *)
Definition answered_correctly (answers_given : gmap string answer_data)
    (q : Question.t) : bool :=
  match answers_given !! str (Question.id q) with
  | Some ua => spec_correct q ua
  | None => false
  end.

(** The selected set of an instance: the questions of the quiz whose id
    is in the stored list. *)
Definition selected_set (quiz : Quiz.t) (ids : list Z) : list Question.t :=
  filter (fun q => Question.id q ∈ ids) (Quiz.questions quiz).

Definition answers_gradable (answers_given : gmap string answer_data)
    (qs : list Question.t) : Prop :=
  Forall (fun q => forall ua,
            answers_given !! str (Question.id q) = Some ua -> gradable q ua) qs.

(** [attempt] with the answer of question [q] replaced. *)
Definition replace_answer (a : QuizAttempt.t) (q : Question.t)
    (answer : answer_data) : QuizAttempt.t :=
  {| QuizAttempt.id := QuizAttempt.id a;
     QuizAttempt.user_id := QuizAttempt.user_id a;
     QuizAttempt.quiz_id := QuizAttempt.quiz_id a;
     QuizAttempt.answers_given :=
       <[str (Question.id q) := answer]> (QuizAttempt.answers_given a);
     QuizAttempt.score := QuizAttempt.score a;
     QuizAttempt.passed := QuizAttempt.passed a;
     QuizAttempt.started_at := QuizAttempt.started_at a;
     QuizAttempt.completed_at := QuizAttempt.completed_at a;
     QuizAttempt.time_taken := QuizAttempt.time_taken a |}.

Definition score_of (r : result ScoreData.t) : option Q :=
  match r with Ok s => Some (ScoreData.score_percentage s) | Raise _ => None end.

Definition correct_of (r : result GradeResult.t) : option bool :=
  match r with Ok g => Some (GradeResult.correct g) | Raise _ => None end.

Definition graded (r : result Grading.t) : option (Q * Z * Z * bool) :=
  match r with
  | Ok g => Some (Grading.score_percentage g, Grading.points_earned g,
                  Grading.total_points g, Grading.passed g)
  | Raise _ => None
  end.

Definition selected_ids (r : result (option QuizInstance.t) * rng)
  : result (option (list Z)) :=
  match fst r with
  | Ok o => Ok (option_map QuizInstance.question_ids o)
  | Raise e => Raise e
  end.

(** The entries of 'questions' that the fingerprint reads: none when the
    instance has no such key. *)
Definition hashed_questions (i : QuizInstance.t) : list QuestionData.t :=
  default [] (QuizInstance.questions i).

(** What the caller sees of an outcome. *)
Definition summary (o : outcome) : option (Q * bool * option Z) * option string :=
  (option_map (fun a => (QuizAttempt.score a, QuizAttempt.passed a,
                         QuizAttempt.time_taken a)) (fst o),
   snd o).

(** ** The score *)

(** Half a unit in the last of 53 places: [2^-53]. *)
Definition unit_roundoff : Q := 1 # 9007199254740992.

(** [s] is [x] rounded to two decimal places: [n] is the whole number
    of hundredths nearest to [x], the even one of the two when [x] is
    half-way, and [s] is the float of [n / 100]. *)
Definition rounds_to_hundredths (x s : Q) : Prop :=
  exists n : Z,
    (Qabs (inject_Z n - 100 * x) <= 1 # 2)%Q /\
    ((Qabs (inject_Z n - 100 * x) == 1 # 2)%Q -> Z.even n = true) /\
    (Qabs (s - inject_Z n / 100) <= unit_roundoff * Qabs (inject_Z n / 100))%Q.

(** [s] is [pe / tp * 100] rounded to two decimal places, as far as
    binary64 can tell: the percentage [x] that is rounded is the exact
    one up to the rounding errors of the division and of the product. *)
Definition rounded_percentage (pe tp : Z) (s : Q) : Prop :=
  let exact := (100 * inject_Z pe / inject_Z tp)%Q in
  exists x : Q,
    (Qabs (x - exact) <= 3 * unit_roundoff * Qabs exact)%Q /\
    rounds_to_hundredths x s.

(** ** The text of the fingerprint *)

(** The items of an answer mapping as [sort_keys=True] writes them: every
    item of the mapping, once, by increasing key. *)
Definition mapping_entries (m : gmap Z Z) (kvs : list (Z * Z)) : Prop :=
  (forall k v, (k, v) ∈ kvs <-> m !! k = Some v) /\
  (forall i j a b, kvs !! i = Some a -> kvs !! j = Some b -> (i < j)%nat ->
                   fst a < fst b).

(** The JSON text of a mapping, of a list of ids, and of the dict
    [{quiz_id, question_ids, mappings}] with its keys in sorted order. *)
Definition mapping_text (kvs : list (Z * Z)) : string :=
  "{" +:+ Json.join (map (fun kv => Json.dump_item (str (fst kv), str (snd kv))) kvs)
      +:+ "}".

Definition id_list_text (ids : list Z) : string :=
  "[" +:+ Json.join (map str ids) +:+ "]".

Definition fingerprint_text (quiz_id : Z) (ids : list Z)
    (entries : list (list (Z * Z))) : string :=
  "{" +:+ Json.join
            [ Json.dump_item
                ("mappings", "[" +:+ Json.join (map mapping_text entries) +:+ "]");
              Json.dump_item ("question_ids", id_list_text ids);
              Json.dump_item ("quiz_id", str quiz_id) ]
      +:+ "}".

(** By increasing key. *)
Definition key_le {V : Type} (x y : Z * V) : Prop := fst x <= fst y.

(** * The data of the examples *)

Definition q_two_correct : Question.t :=
  {| Question.id := 1; Question.quiz_id := 1;
     Question.question_text := "Which of these are prime?";
     Question.question_type := "single_choice";
     Question.answers :=
       [ {| text := "2"; is_correct := true; explanation := None |};
         {| text := "4"; is_correct := false; explanation := None |};
         {| text := "5"; is_correct := true; explanation := None |} ];
     Question.points := 1; Question.order_index := 0 |}.

Definition q_multi : Question.t :=
  {| Question.id := 2; Question.quiz_id := 1;
     Question.question_text := "Select the even numbers";
     Question.question_type := "multiple_choice";
     Question.answers :=
       [ {| text := "2"; is_correct := true; explanation := None |};
         {| text := "4"; is_correct := true; explanation := None |};
         {| text := "5"; is_correct := false; explanation := None |} ];
     Question.points := 1; Question.order_index := 1 |}.

(** The end-to-end example of the specification: two questions of one
    point, minimum score 70; the first answered correctly, the second
    with a strict subset of its correct options. *)
Definition q1_example : Question.t :=
  {| Question.id := 1; Question.quiz_id := 1;
     Question.question_text := "Q1";
     Question.question_type := "single_choice";
     Question.answers :=
       [ {| text := "a"; is_correct := true; explanation := None |};
         {| text := "b"; is_correct := false; explanation := None |} ];
     Question.points := 1; Question.order_index := 0 |}.

Definition quiz_example : Quiz.t :=
  {| Quiz.id := 1; Quiz.question_pool_size := None; Quiz.minimum_score := 70;
     Quiz.is_eliminatory := false; Quiz.randomize_answers := false;
     Quiz.questions := [q1_example; q_multi] |}.

Definition instance_example : QuizInstance.t :=
  {| QuizInstance.quiz_id := 1; QuizInstance.questions := None;
     QuizInstance.question_ids := [1; 2];
     QuizInstance.quiz_hash := Some "h" |}.

Definition attempt_example : QuizAttempt.t :=
  {| QuizAttempt.id := 1; QuizAttempt.user_id := 10; QuizAttempt.quiz_id := 1;
     QuizAttempt.answers_given :=
       <[str 2 := AList [0]]>
         (<[str 1 := AInt 0]> {[ instance_key := ADict instance_example ]});
     QuizAttempt.score := 0; QuizAttempt.passed := false;
     QuizAttempt.started_at := 0; QuizAttempt.completed_at := None;
     QuizAttempt.time_taken := None |}.

Definition db_example : database :=
  {| quizzes := {[ 1 := quiz_example ]};
     quiz_attempts := {[ 1 := attempt_example ]};
     next_attempt_id := 2 |}.

(** A question worth a negative number of points (the catalog accepts
    any integer): answering it correctly lowers the score. *)
Definition q_three_points : Question.t :=
  {| Question.id := 1; Question.quiz_id := 1;
     Question.question_text := "Q1";
     Question.question_type := "single_choice";
     Question.answers :=
       [ {| text := "a"; is_correct := true; explanation := None |};
         {| text := "b"; is_correct := false; explanation := None |} ];
     Question.points := 3; Question.order_index := 0 |}.

Definition q_negative_points : Question.t :=
  {| Question.id := 2; Question.quiz_id := 1;
     Question.question_text := "Q2";
     Question.question_type := "single_choice";
     Question.answers :=
       [ {| text := "a"; is_correct := true; explanation := None |};
         {| text := "b"; is_correct := false; explanation := None |} ];
     Question.points := -1; Question.order_index := 1 |}.

Definition db_negative : database :=
  {| quizzes :=
       {[ 1 := {| Quiz.id := 1; Quiz.question_pool_size := None;
                  Quiz.minimum_score := 70; Quiz.is_eliminatory := false;
                  Quiz.randomize_answers := false;
                  Quiz.questions := [q_three_points; q_negative_points] |} ]};
     quiz_attempts := ∅;
     next_attempt_id := 1 |}.

Definition attempt_negative : QuizAttempt.t :=
  {| QuizAttempt.id := 1; QuizAttempt.user_id := 10; QuizAttempt.quiz_id := 1;
     QuizAttempt.answers_given :=
       <[str 2 := AInt 1]>
         (<[str 1 := AInt 0]> {[ instance_key := ADict instance_example ]});
     QuizAttempt.score := 0; QuizAttempt.passed := false;
     QuizAttempt.started_at := 0; QuizAttempt.completed_at := None;
     QuizAttempt.time_taken := None |}.

(** The attempt of a selection of the second question alone, answered
    correctly: the total of the points is negative. *)
Definition attempt_negative_total : QuizAttempt.t :=
  {| QuizAttempt.id := 1; QuizAttempt.user_id := 10; QuizAttempt.quiz_id := 1;
     QuizAttempt.answers_given :=
       <[str 2 := AInt 0]>
         {[ instance_key :=
              ADict {| QuizInstance.quiz_id := 1; QuizInstance.questions := None;
                       QuizInstance.question_ids := [2];
                       QuizInstance.quiz_hash := Some "h" |} ]};
     QuizAttempt.score := 0; QuizAttempt.passed := false;
     QuizAttempt.started_at := 0; QuizAttempt.completed_at := None;
     QuizAttempt.time_taken := None |}.

(** The example attempt, completed five seconds after it started. *)
Definition db_completed : database :=
  fst (complete_attempt 5000000 db_example 1).

Definition attempt_completed : QuizAttempt.t :=
  {| QuizAttempt.id := 1; QuizAttempt.user_id := 10; QuizAttempt.quiz_id := 1;
     QuizAttempt.answers_given := QuizAttempt.answers_given attempt_example;
     QuizAttempt.score := 50; QuizAttempt.passed := false;
     QuizAttempt.started_at := 0; QuizAttempt.completed_at := Some 5000000;
     QuizAttempt.time_taken := Some 5 |}.

(** The catalog of the example with a third question, outside the stored
    selection [1; 2], added. *)
Definition q3_added : Question.t :=
  {| Question.id := 3; Question.quiz_id := 1;
     Question.question_text := "Q3";
     Question.question_type := "single_choice";
     Question.answers := [ {| text := "a"; is_correct := true; explanation := None |} ];
     Question.points := 5; Question.order_index := 2 |}.

Definition with_questions (qs : list Question.t) : database :=
  {| quizzes :=
       {[ 1 := {| Quiz.id := 1; Quiz.question_pool_size := None;
                  Quiz.minimum_score := 70; Quiz.is_eliminatory := false;
                  Quiz.randomize_answers := false; Quiz.questions := qs |} ]};
     quiz_attempts := {[ 1 := attempt_example ]};
     next_attempt_id := 2 |}.

(** The second question edited after the instance was generated: only
    its first option is correct now. *)
Definition q_multi_edited : Question.t :=
  {| Question.id := 2; Question.quiz_id := 1;
     Question.question_text := "Select the even numbers";
     Question.question_type := "multiple_choice";
     Question.answers :=
       [ {| text := "2"; is_correct := true; explanation := None |};
         {| text := "4"; is_correct := false; explanation := None |};
         {| text := "5"; is_correct := false; explanation := None |} ];
     Question.points := 1; Question.order_index := 1 |}.

Definition db_pool (pool_size : option Z) : database :=
  {| quizzes :=
       {[ 1 := {| Quiz.id := 1; Quiz.question_pool_size := pool_size;
                  Quiz.minimum_score := 70; Quiz.is_eliminatory := false;
                  Quiz.randomize_answers := true;
                  Quiz.questions := [q1_example; q_multi] |} ]};
     quiz_attempts := ∅;
     next_attempt_id := 1 |}.

Definition quiz_pool (pool_size : option Z) : Quiz.t :=
  {| Quiz.id := 1; Quiz.question_pool_size := pool_size;
     Quiz.minimum_score := 70; Quiz.is_eliminatory := false;
     Quiz.randomize_answers := true;
     Quiz.questions := [q1_example; q_multi] |}.

Definition question_data_a : QuestionData.t :=
  {| QuestionData.question_id := 3;
     QuestionData.question_text := "First wording";
     QuestionData.question_type := "single_choice";
     QuestionData.points := 1; QuestionData.order_index := 0;
     QuestionData.answers := [];
     QuestionData.answer_mapping := <[0 := 2]> (<[1 := 0]> {[ 2 := 1 ]}) |}.

Definition question_data_a' : QuestionData.t :=
  {| QuestionData.question_id := 3;
     QuestionData.question_text := "Second wording";
     QuestionData.question_type := "multiple_choice";
     QuestionData.points := 4; QuestionData.order_index := 9;
     QuestionData.answers := [ {| text := "x"; is_correct := true; explanation := None |} ];
     QuestionData.answer_mapping := <[2 := 1]> (<[1 := 0]> {[ 0 := 2 ]}) |}.

Definition question_data_b : QuestionData.t :=
  {| QuestionData.question_id := 1;
     QuestionData.question_text := "Other question";
     QuestionData.question_type := "single_choice";
     QuestionData.points := 1; QuestionData.order_index := 1;
     QuestionData.answers := [];
     QuestionData.answer_mapping := <[10 := 0]> {[ 2 := 1 ]} |}.

Definition instance_a : QuizInstance.t :=
  {| QuizInstance.quiz_id := 7;
     QuizInstance.questions := Some [question_data_a; question_data_b];
     QuizInstance.question_ids := [3; 1];
     QuizInstance.quiz_hash := None |}.

Definition instance_a' : QuizInstance.t :=
  {| QuizInstance.quiz_id := 7;
     QuizInstance.questions := Some [question_data_a'; question_data_b];
     QuizInstance.question_ids := [];
     QuizInstance.quiz_hash := Some "stale" |}.

(** An attempt of before the instance block existed. *)
Definition attempt_legacy : QuizAttempt.t :=
  {| QuizAttempt.id := 2; QuizAttempt.user_id := 10; QuizAttempt.quiz_id := 1;
     QuizAttempt.answers_given := {[ str 1 := AInt 0 ]};
     QuizAttempt.score := 0; QuizAttempt.passed := false;
     QuizAttempt.started_at := 0; QuizAttempt.completed_at := None;
     QuizAttempt.time_taken := None |}.

Definition q_one_correct : Question.t :=
  {| Question.id := 4; Question.quiz_id := 1;
     Question.question_text := "Q4";
     Question.question_type := "single_choice";
     Question.answers :=
       [ {| text := "a"; is_correct := false; explanation := None |};
         {| text := "b"; is_correct := false; explanation := None |};
         {| text := "c"; is_correct := true; explanation := None |} ];
     Question.points := 1; Question.order_index := 3 |}.

Definition db_catalog : database :=
  {| quizzes := {[ 1 := quiz_example ]}; quiz_attempts := ∅; next_attempt_id := 1 |}.

(** A whole run through the services: generate, start, answer twice,
    complete, and try to complete and to answer again. *)
Definition run_example :=
  match fst (generate_quiz_instance db_catalog 1 []) with
  | Ok (Some quiz_instance) =>
      let db1 := fst (start_attempt 0 db_catalog 10 1 quiz_instance) in
      let db2 := fst (submit_answer db1 1 1 (AInt 0)) in
      let db3 := fst (submit_answer db2 1 2 (AList [0])) in
      let (db4, first) := complete_attempt 5000000 db3 1 in
      let (db5, second) := complete_attempt 9000000 db4 1 in
      let (db6, late) := submit_answer db5 1 2 (AList [0; 1]) in
      Some (summary first, summary second, summary late,
            summary (quiz_attempts db6 !! 1, None))
  | _ => None
  end.

(** * Feedback, results and retakes *)

(** ** generate_feedback (app/utils/quiz_grader.py) *)

Module Explanation.
(** One entry of [feedback['explanations']]. *)
Record t := {
  answer_index : Z;
  answer_text : string;
  explanation : string;
  is_correct : bool
}.
End Explanation.

Module QuestionFeedback.
Record t := {
  question_id : Z;
  question_text : string;
  question_type : string;
  correct : bool;
  points_earned : Z;
  points_possible : Z;
  user_answers : answer_data;
  correct_answers : list Z;
  explanations : list Explanation.t
}.
End QuestionFeedback.

Module Feedback.
(** [overall] has the keys of the dict of [grade_attempt]. *)
Record t := {
  overall : Grading.t;
  questions : list QuestionFeedback.t
}.
End Feedback.

(** The grading of one question in [generate_feedback]: an unanswered
    question gets the dict written out in the source. *)
Definition feedback_result (question : Question.t) (user_answer : option answer_data)
  : result GradeResult.t :=
  match user_answer with
  | Some ua => grade_question question ua
  | None =>
      Ok {| GradeResult.correct := false;
            GradeResult.points_earned := 0;
            GradeResult.correct_answers := Question.correct_answers question;
            GradeResult.user_answers := AList [] |}
  end.

(** [for idx, answer in enumerate(question.answers):
       if answer.get('explanation'): ...] *)
Definition build_explanations (question : Question.t) (correct_answers : list Z)
  : list Explanation.t :=
  omap (fun ia : Z * answer_option =>
          match explanation (snd ia) with
          | Some e =>
              if String.eqb e EmptyString then None
              else Some {| Explanation.answer_index := fst ia;
                           Explanation.answer_text := text (snd ia);
                           Explanation.explanation := e;
                           Explanation.is_correct :=
                             bool_decide (fst ia ∈ correct_answers) |}
          | None => None
          end)
       (Question.enumerate (Question.answers question)).

(** The body of [for question in questions: ...] of [generate_feedback]. *)
Fixpoint feedback_loop (answers_given : gmap string answer_data)
    (questions : list Question.t) : result (list QuestionFeedback.t) :=
  match questions with
  | [] => Ok []
  | question :: rest =>
      r <- feedback_result question (answers_given !! str (Question.id question)) ;;
      let feedback :=
        {| QuestionFeedback.question_id := Question.id question;
           QuestionFeedback.question_text := Question.question_text question;
           QuestionFeedback.question_type := Question.question_type question;
           QuestionFeedback.correct := GradeResult.correct r;
           QuestionFeedback.points_earned := GradeResult.points_earned r;
           QuestionFeedback.points_possible := Question.points question;
           QuestionFeedback.user_answers := GradeResult.user_answers r;
           QuestionFeedback.correct_answers := GradeResult.correct_answers r;
           QuestionFeedback.explanations :=
             build_explanations question (GradeResult.correct_answers r) |} in
      fs <- feedback_loop answers_given rest ;;
      Ok (feedback :: fs)
  end.

Definition generate_feedback (db : database) (attempt : QuizAttempt.t)
  : result Feedback.t :=
  score_data <- calculate_total_score db attempt ;;
  ids <- selected_question_ids (QuizAttempt.answers_given attempt) ;;
  match quizzes db !! QuizAttempt.quiz_id attempt with
  | None =>
      Raise (AttributeError "'NoneType' object has no attribute 'questions'")
  | Some quiz =>
      questions_feedback <-
        feedback_loop (QuizAttempt.answers_given attempt) (questions_to_grade quiz ids) ;;
      Ok {| Feedback.overall :=
              {| Grading.score_percentage := ScoreData.score_percentage score_data;
                 Grading.points_earned := ScoreData.points_earned score_data;
                 Grading.total_points := ScoreData.total_points score_data;
                 Grading.questions_correct := ScoreData.questions_correct score_data;
                 Grading.total_questions := ScoreData.total_questions score_data;
                 Grading.passed :=
                   determine_pass_fail (ScoreData.score_percentage score_data)
                                       (Quiz.minimum_score quiz) |};
            Feedback.questions := questions_feedback |}
  end.

(** ** The rest of the attempt service *)

Module AttemptResults.
(** The dict of [get_attempt_results]; a key that the dict does not have
    is [None]. *)
Record t := {
  attempt : QuizAttempt.t;
  feedback : option Feedback.t;
  error : option string;
  quiz : option Quiz.t
}.
End AttemptResults.

Definition not_completed_message : string := "Tentative non terminée".

Definition get_attempt_results (db : database) (attempt_id : Z)
  : result (option AttemptResults.t) :=
  match quiz_attempts db !! attempt_id with
  | None => Ok None
  | Some attempt =>
      if negb (QuizAttempt.is_completed attempt) then
        Ok (Some {| AttemptResults.attempt := attempt;
                    AttemptResults.feedback := None;
                    AttemptResults.error := Some not_completed_message;
                    AttemptResults.quiz := None |})
      else
        feedback <- generate_feedback db attempt ;;
        Ok (Some {| AttemptResults.attempt := attempt;
                    AttemptResults.feedback := Some feedback;
                    AttemptResults.error := None;
                    AttemptResults.quiz := quizzes db !! QuizAttempt.quiz_id attempt |})
  end.

(** The rows of the table of attempts. *)
Definition all_attempts (db : database) : list QuizAttempt.t :=
  snd <$> map_to_list (quiz_attempts db).

(** [order_by(QuizAttempt.started_at.desc())]: latest first. *)
Fixpoint insert_by_start (a : QuizAttempt.t) (l : list QuizAttempt.t)
  : list QuizAttempt.t :=
  match l with
  | [] => [a]
  | b :: l' =>
      if QuizAttempt.started_at b <=? QuizAttempt.started_at a then a :: l
      else b :: insert_by_start a l'
  end.

Definition order_by_started_at_desc (l : list QuizAttempt.t) : list QuizAttempt.t :=
  fold_right insert_by_start [] l.

(** [quiz_id] is [None] when the argument is left out; [if quiz_id:] is
    false for [None] and for 0. *)
Definition get_user_attempts (db : database) (user_id : Z) (quiz_id : option Z)
  : list QuizAttempt.t :=
  let by_user :=
    List.filter (fun a => QuizAttempt.user_id a =? user_id) (all_attempts db) in
  let by_quiz :=
    match quiz_id with
    | Some q =>
        if negb (q =? 0) then List.filter (fun a => QuizAttempt.quiz_id a =? q) by_user
        else by_user
    | None => by_user
    end in
  order_by_started_at_desc by_quiz.

Definition in_progress_message : string := "Vous avez déjà une tentative en cours.".

Definition can_retake_quiz (db : database) (user_id quiz_id : Z)
  : bool * option string :=
  match quizzes db !! quiz_id with
  | None => (false, Some quiz_not_found_message)
  | Some quiz =>
      let previous_attempts :=
        order_by_started_at_desc
          (List.filter (fun a => (QuizAttempt.user_id a =? user_id)
                                 && (QuizAttempt.quiz_id a =? quiz_id))
                       (all_attempts db)) in
      let incomplete_attempts :=
        List.filter (fun a => negb (QuizAttempt.is_completed a)) previous_attempts in
      match incomplete_attempts with
      | _ :: _ => (false, Some in_progress_message)
      | [] =>
          (* passed attempts of an eliminatory quiz: [pass] *)
          (true, None)
      end
  end.

(** ** The model classes *)

(** [Quiz.total_points]: [sum(q.points for q in self.questions.all())] *)
Definition Quiz_total_points (self : Quiz.t) : Z :=
  fold_left (fun s q => s + Question.points q) (Quiz.questions self) 0.

(** [Quiz.total_questions]: [self.questions.count()] *)
Definition Quiz_total_questions (self : Quiz.t) : Z :=
  Z.of_nat (length (Quiz.questions self)).

(** * More data for the examples *)

(** A question whose type the grader does not know. *)
Definition q_free_text : Question.t :=
  {| Question.id := 5; Question.quiz_id := 1;
     Question.question_text := "Explain";
     Question.question_type := "free_text";
     Question.answers := [ {| text := "a"; is_correct := true; explanation := None |} ];
     Question.points := 1; Question.order_index := 4 |}.

Definition attempt_free_text : QuizAttempt.t :=
  {| QuizAttempt.id := 1; QuizAttempt.user_id := 10; QuizAttempt.quiz_id := 1;
     QuizAttempt.answers_given :=
       <[str 5 := AInt 0]>
         {[ instance_key :=
              ADict {| QuizInstance.quiz_id := 1; QuizInstance.questions := None;
                       QuizInstance.question_ids := [1; 5];
                       QuizInstance.quiz_hash := Some "h" |} ]};
     QuizAttempt.score := 0; QuizAttempt.passed := false;
     QuizAttempt.started_at := 0; QuizAttempt.completed_at := None;
     QuizAttempt.time_taken := None |}.

Definition quiz_free_text : Quiz.t :=
  {| Quiz.id := 1; Quiz.question_pool_size := None; Quiz.minimum_score := 70;
     Quiz.is_eliminatory := false; Quiz.randomize_answers := false;
     Quiz.questions := [q1_example; q_free_text] |}.

Definition db_free_text : database :=
  {| quizzes := {[ 1 := quiz_free_text ]};
     quiz_attempts := {[ 1 := attempt_free_text ]};
     next_attempt_id := 2 |}.

(** * The rows of the table of attempts *)

(** The primary key of [quiz_attempts] is an auto-increment column: every
    row sits under its own id, and the ids in use are below the one that
    the next insert receives.  The empty table has the property and the
    services keep it. *)
Definition database_wf (db : database) : Prop :=
  forall k a, quiz_attempts db !! k = Some a ->
              QuizAttempt.id a = k /\ k < next_attempt_id db.

(** * Specification of the feedback *)

Definition feedback_points (fs : list QuestionFeedback.t) : Z :=
  fold_right Z.add 0 (map QuestionFeedback.points_earned fs).

Definition feedback_correct_count (fs : list QuestionFeedback.t) : Z :=
  Z.of_nat (length (List.filter QuestionFeedback.correct fs)).

(** What the entry of a question must be, given the answers. *)
Definition entry_matches (answers_given : gmap string answer_data)
    (q : Question.t) (f : QuestionFeedback.t) : Prop :=
  QuestionFeedback.question_id f = Question.id q /\
  QuestionFeedback.question_text f = Question.question_text q /\
  QuestionFeedback.question_type f = Question.question_type q /\
  QuestionFeedback.points_possible f = Question.points q /\
  QuestionFeedback.correct f = answered_correctly answers_given q /\
  QuestionFeedback.points_earned f
    = (if answered_correctly answers_given q then Question.points q else 0) /\
  (forall i, i ∈ QuestionFeedback.correct_answers f <-> i ∈ Question.correct_answers q) /\
  (answers_given !! str (Question.id q) = None ->
   QuestionFeedback.user_answers f = AList []).

(** A question whose second option carries an explanation. *)
Definition q_explained : Question.t :=
  {| Question.id := 6; Question.quiz_id := 1;
     Question.question_text := "Q6";
     Question.question_type := "single_choice";
     Question.answers :=
       [ {| text := "a"; is_correct := false; explanation := Some EmptyString |};
         {| text := "b"; is_correct := true; explanation := Some "b is right" |};
         {| text := "c"; is_correct := false; explanation := None |} ];
     Question.points := 1; Question.order_index := 5 |}.

(** * Specification of a generated instance *)

(** The entry of 'questions' made for a question: the fields of the
    question, its options in some order, and a mapping that sends each
    displayed position to the original index of the option shown there;
    without randomization, the options as they are and the identity. *)
Definition question_data_matches (randomize : bool) (q : Question.t)
    (d : QuestionData.t) : Prop :=
  let n := Z.of_nat (length (Question.answers q)) in
  QuestionData.question_id d = Question.id q /\
  QuestionData.question_text d = Question.question_text q /\
  QuestionData.question_type d = Question.question_type q /\
  QuestionData.points d = Question.points q /\
  QuestionData.order_index d = Question.order_index q /\
  Permutation (QuestionData.answers d) (Question.answers q) /\
  (forall key, is_Some (QuestionData.answer_mapping d !! key) <-> 0 <= key < n) /\
  (forall key orig, QuestionData.answer_mapping d !! key = Some orig ->
     0 <= orig < n /\
     QuestionData.answers d !! Z.to_nat key = Question.answers q !! Z.to_nat orig) /\
  (forall k1 k2 orig, QuestionData.answer_mapping d !! k1 = Some orig ->
                      QuestionData.answer_mapping d !! k2 = Some orig -> k1 = k2) /\
  (randomize = false ->
   QuestionData.answers d = Question.answers q /\
   forall key orig, QuestionData.answer_mapping d !! key = Some orig -> orig = key).

(** * Properties *)

(** ** Rounding is monotone *)

Module Float64Facts.
Import Float64.
Local Open Scope Q_scope.

Lemma round_half_even_bounds x :
  (Qfloor x <= round_half_even x <= Qfloor x + 1)%Z.
Proof.
  unfold round_half_even.
  destruct (Qcompare _ _); [destruct (Z.even _)|..]; lia.
Qed.

Lemma round_half_even_Z k : round_half_even (inject_Z k) = k.
Proof.
  unfold round_half_even. rewrite Qfloor_Z.
  destruct (Qcompare_spec (inject_Z k - inject_Z k) (1 # 2)) as [H|H|H];
    [exfalso; lra | reflexivity | exfalso; lra].
Qed.

Lemma round_half_even_mono x y :
  x <= y -> (round_half_even x <= round_half_even y)%Z.
Proof.
  intros Hxy.
  pose proof (Qfloor_resp_le _ _ Hxy) as Hf.
  destruct (Z.eq_dec (Qfloor x) (Qfloor y)) as [Heq|Hne].
  - unfold round_half_even. rewrite <- Heq.
    destruct (Qcompare_spec (x - inject_Z (Qfloor x)) (1 # 2)) as [Hx|Hx|Hx];
    destruct (Qcompare_spec (y - inject_Z (Qfloor x)) (1 # 2)) as [Hy|Hy|Hy];
      try destruct (Z.even (Qfloor x)); try lia; exfalso; lra.
  - pose proof (round_half_even_bounds x). pose proof (round_half_even_bounds y).
    lia.
Qed.

Lemma round_half_even_comp x y : x == y -> round_half_even x = round_half_even y.
Proof.
  intros H. unfold round_half_even.
  rewrite (Qfloor_comp _ _ H).
  assert (H' : x - inject_Z (Qfloor y) == y - inject_Z (Qfloor y)) by (rewrite H; reflexivity).
  now rewrite (Qcompare_comp _ _ H' _ _ (Qeq_refl _)).
Qed.

Lemma pow2_pos e : 0 < 2 ^ e.
Proof. apply Qpower_0_lt. reflexivity. Qed.

Lemma pow2_succ e : 2 ^ (e + 1) == 2 * 2 ^ e.
Proof. rewrite Qpower_plus by discriminate. simpl. ring. Qed.

Lemma Qdiv_lt_cross a b c d :
  0 < b -> 0 < d -> a * d < c * b -> a / b < c / d.
Proof.
  intros Hb Hd H. apply Qlt_shift_div_r; [exact Hb|].
  assert (E : c / d * b == c * b / d) by (field; lra).
  rewrite E. now apply Qlt_shift_div_l.
Qed.

Lemma Qdiv_le_cross a b c d :
  0 < b -> 0 < d -> a * d <= c * b -> a / b <= c / d.
Proof.
  intros Hb Hd H. apply Qle_shift_div_r; [exact Hb|].
  assert (E : c / d * b == c * b / d) by (field; lra).
  rewrite E. now apply Qle_shift_div_l.
Qed.

Lemma ilog2_spec x : 0 < x -> 2 ^ ilog2 x <= x /\ x < 2 ^ (ilog2 x + 1).
Proof.
  intros Hx. destruct x as [n d]. unfold ilog2. cbn [Qnum Qden].
  assert (Hn : (0 < n)%Z) by (unfold Qlt in Hx; cbn in Hx; lia).
  set (ln := Z.log2 n). set (ld := Z.log2 (Z.pos d)).
  destruct (Z.log2_spec n Hn) as [Hn1 Hn2]. fold ln in Hn1, Hn2.
  destruct (Z.log2_spec (Z.pos d) (Pos2Z.is_pos d)) as [Hd1 Hd2]. fold ld in Hd1, Hd2.
  assert (Hln : (0 <= ln)%Z) by apply Z.log2_nonneg.
  assert (Hld : (0 <= ld)%Z) by apply Z.log2_nonneg.
  assert (Hnd : n # d == inject_Z n / inject_Z (Z.pos d)) by apply Qmake_Qdiv.
  assert (Hdp : 0 < inject_Z (Z.pos d)) by (rewrite <- (Zlt_Qlt 0); lia).
  assert (Q1 : inject_Z (2 ^ ln) == 2 ^ ln) by (apply (Zpower_Qpower 2); lia).
  assert (Q2 : inject_Z (2 ^ ld) == 2 ^ ld) by (apply (Zpower_Qpower 2); lia).
  assert (Q3 : inject_Z (2 ^ Z.succ ln) == 2 * 2 ^ ln).
  { rewrite <- pow2_succ. apply (Zpower_Qpower 2); lia. }
  assert (Q4 : inject_Z (2 ^ Z.succ ld) == 2 * 2 ^ ld).
  { rewrite <- pow2_succ. apply (Zpower_Qpower 2); lia. }
  rewrite Zle_Qle in Hn1, Hd1. rewrite Zlt_Qlt in Hn2, Hd2.
  rewrite Q1 in Hn1. rewrite Q2 in Hd1. rewrite Q3 in Hn2. rewrite Q4 in Hd2.
  pose proof (pow2_pos ld) as Hp. pose proof (pow2_pos ln) as Hp'.
  assert (E0 : 2 ^ (ln - ld) == 2 ^ ln / 2 ^ ld) by (apply Qpower_minus; discriminate).
  destruct (Qle_bool (2 ^ (ln - ld)) (n # d)) eqn:Hb.
  - split; [now apply Qle_bool_iff|].
    rewrite pow2_succ, E0, Hnd.
    assert (E : 2 * (2 ^ ln / 2 ^ ld) == (2 * 2 ^ ln) / 2 ^ ld) by (field; lra).
    rewrite E. apply Qdiv_lt_cross; [exact Hdp|exact Hp|].
    generalize dependent (2 ^ ln). generalize dependent (2 ^ ld).
    generalize dependent (inject_Z n). generalize dependent (inject_Z (Z.pos d)).
    intros; nra.
  - split.
    + assert (E : 2 ^ (ln - ld - 1) == 2 ^ ln / (2 * 2 ^ ld)).
      { replace (ln - ld - 1)%Z with (ln - (ld + 1))%Z by lia.
        rewrite Qpower_minus by discriminate. now rewrite pow2_succ. }
      rewrite E, Hnd. apply Qdiv_le_cross; [lra|exact Hdp|].
      clear E E0 Hb Hnd Q1 Q2 Q3 Q4.
      generalize dependent (2 ^ ln). generalize dependent (2 ^ ld).
      generalize dependent (inject_Z n). generalize dependent (inject_Z (Z.pos d)).
      intros; nra.
    + replace (ln - ld - 1 + 1)%Z with (ln - ld)%Z by lia.
      apply Qnot_le_lt. intros Hc. apply Qle_bool_iff in Hc. congruence.
Qed.

Lemma scaled_bounds x :
  0 < x ->
  inject_Z (2 ^ 52) <= x / 2 ^ (ilog2 x - 52) /\
  x / 2 ^ (ilog2 x - 52) <= inject_Z (2 ^ 53).
Proof.
  intros Hx. destruct (ilog2_spec x Hx) as [H1 H2].
  pose proof (pow2_pos (ilog2 x - 52)) as Hp.
  assert (E1 : 2 ^ ilog2 x == inject_Z (2 ^ 52) * 2 ^ (ilog2 x - 52)).
  { replace (ilog2 x) with (52 + (ilog2 x - 52))%Z at 1 by lia.
    rewrite Qpower_plus by discriminate. reflexivity. }
  assert (E2 : 2 ^ (ilog2 x + 1) == inject_Z (2 ^ 53) * 2 ^ (ilog2 x - 52)).
  { replace (ilog2 x + 1)%Z with (53 + (ilog2 x - 52))%Z by lia.
    rewrite Qpower_plus by discriminate. reflexivity. }
  split.
  - apply Qle_shift_div_l; [exact Hp|]. now rewrite <- E1.
  - apply Qle_shift_div_r; [exact Hp|]. rewrite <- E2. now apply Qlt_le_weak.
Qed.

Lemma round_pos_bounds x :
  0 < x -> 2 ^ ilog2 x <= round_pos x /\ round_pos x <= 2 ^ (ilog2 x + 1).
Proof.
  intros Hx. destruct (scaled_bounds x Hx) as [H1 H2].
  pose proof (pow2_pos (ilog2 x - 52)) as Hp.
  apply round_half_even_mono in H1, H2. rewrite round_half_even_Z in H1, H2.
  rewrite Zle_Qle in H1, H2. unfold round_pos. cbv zeta.
  split.
  - replace (ilog2 x) with (52 + (ilog2 x - 52))%Z at 1 by lia.
    rewrite Qpower_plus by discriminate.
    apply Qmult_le_compat_r; [exact H1|now apply Qlt_le_weak].
  - replace (ilog2 x + 1)%Z with (53 + (ilog2 x - 52))%Z by lia.
    rewrite Qpower_plus by discriminate.
    apply Qmult_le_compat_r; [exact H2|now apply Qlt_le_weak].
Qed.

Lemma round_pos_pos x : 0 < x -> 0 < round_pos x.
Proof.
  intros Hx. eapply Qlt_le_trans; [apply (pow2_pos (ilog2 x))|].
  now apply round_pos_bounds.
Qed.

Lemma ilog2_mono x y : 0 < x -> x <= y -> (ilog2 x <= ilog2 y)%Z.
Proof.
  intros Hx Hxy.
  destruct (ilog2_spec x Hx) as [H1 _].
  destruct (ilog2_spec y) as [_ H2]; [lra|].
  assert (H : 2 ^ ilog2 x < 2 ^ (ilog2 y + 1)) by lra.
  apply Qpower_lt_compat_l_inv in H; [lia|reflexivity].
Qed.

Lemma round_pos_mono x y : 0 < x -> x <= y -> round_pos x <= round_pos y.
Proof.
  intros Hx Hxy. assert (Hy : 0 < y) by lra.
  pose proof (ilog2_mono x y Hx Hxy) as HE.
  destruct (Z.eq_dec (ilog2 x) (ilog2 y)) as [Heq|Hne].
  - unfold round_pos. cbv zeta. rewrite <- Heq.
    pose proof (pow2_pos (ilog2 x - 52)) as Hp.
    apply Qmult_le_compat_r; [|now apply Qlt_le_weak].
    rewrite <- Zle_Qle. apply round_half_even_mono.
    apply Qmult_le_compat_r; [exact Hxy|].
    apply Qlt_le_weak, Qinv_lt_0_compat, Hp.
  - destruct (round_pos_bounds x Hx) as [_ Hu].
    destruct (round_pos_bounds y Hy) as [Hl _].
    apply Qle_trans with (2 ^ (ilog2 x + 1)); [exact Hu|].
    apply Qle_trans with (2 ^ ilog2 y); [|exact Hl].
    apply Qpower_le_compat_l; [lia|discriminate].
Qed.

Lemma round_float_mono x y : x <= y -> round_float x <= round_float y.
Proof.
  intros Hxy. unfold round_float. rewrite !Qred_correct.
  destruct (Qcompare_spec x 0) as [Hx|Hx|Hx];
    destruct (Qcompare_spec y 0) as [Hy|Hy|Hy]; try (exfalso; lra).
  - lra.
  - apply Qlt_le_weak, round_pos_pos, Hy.
  - pose proof (round_pos_pos (- x)). lra.
  - assert (H : - y <= - x) by lra.
    apply round_pos_mono in H; lra.
  - pose proof (round_pos_pos (- x)). pose proof (round_pos_pos y). lra.
  - now apply round_pos_mono.
Qed.


Lemma float_mul_mono x y c : 0 <= c -> x <= y -> float_mul x c <= float_mul y c.
Proof. intros Hc Hxy. apply round_float_mono. now apply Qmult_le_compat_r. Qed.

Lemma py_round2_mono x y : x <= y -> py_round2 x <= py_round2 y.
Proof.
  intros Hxy. apply round_float_mono.
  apply Qmult_le_compat_r; [|discriminate].
  rewrite <- Zle_Qle. apply round_half_even_mono.
  apply Qmult_le_compat_r; [exact Hxy|discriminate].
Qed.
End Float64Facts.

(** ** The rounding errors of the score *)

Module Float64Error.
Import Float64 Float64Facts.
Local Open Scope Q_scope.

Lemma abs_le x y : -y <= x <= y -> Qabs x <= y.
Proof. intros H. now apply Qabs_Qle_condition. Qed.

Lemma abs_bounds x : - Qabs x <= x <= Qabs x.
Proof. apply Qabs_Qle_condition. apply Qle_refl. Qed.

Lemma abs_diff x y e : Qabs (x - y) <= e -> y - e <= x <= y + e.
Proof. intros H. apply Qabs_Qle_condition in H. lra. Qed.

Lemma round_half_even_error x : Qabs (inject_Z (round_half_even x) - x) <= 1 # 2.
Proof.
  pose proof (Qfloor_le x) as Hlo. pose proof (Qlt_floor x) as Hhi.
  rewrite inject_Z_plus in Hhi. change (inject_Z 1) with 1 in Hhi. apply abs_le.
  unfold round_half_even.
  destruct (Qcompare_spec (x - inject_Z (Qfloor x)) (1 # 2)) as [H|H|H].
  - destruct (Z.even (Qfloor x));
      [|rewrite inject_Z_plus; change (inject_Z 1) with 1]; lra.
  - lra.
  - rewrite inject_Z_plus. change (inject_Z 1) with 1. lra.
Qed.

Lemma unit_roundoff_pow : unit_roundoff == / 2 ^ 53.
Proof. reflexivity. Qed.

Lemma half_ulp_bound (x p rp : Q) :
  p * 4503599627370496 <= x ->
  rp - x <= (1 # 2) * p -> - (1 # 2) * p <= rp - x ->
  - (unit_roundoff * x) <= rp - x <= unit_roundoff * x.
Proof. unfold unit_roundoff. intros. lra. Qed.

Lemma round_pos_error x : 0 < x -> Qabs (round_pos x - x) <= unit_roundoff * x.
Proof.
  intros Hx. destruct (ilog2_spec x Hx) as [H1 _].
  pose proof (pow2_pos (ilog2 x - 52)) as Hp.
  pose proof (round_half_even_error (x / 2 ^ (ilog2 x - 52))) as He.
  apply Qabs_Qle_condition in He.
  assert (E : 2 ^ ilog2 x == 2 ^ (ilog2 x - 52) * inject_Z (2 ^ 52)).
  { replace (ilog2 x) with ((ilog2 x - 52) + 52)%Z at 1 by lia.
    rewrite Qpower_plus by discriminate. reflexivity. }
  rewrite E in H1.
  unfold round_pos. cbv zeta.
  set (p := 2 ^ (ilog2 x - 52)) in *.
  set (r := inject_Z (round_half_even (x / p))) in *.
  assert (Ex : x / p * p == x) by (field; lra).
  apply abs_le.
  change (inject_Z (2 ^ 52)) with (4503599627370496 # 1) in H1.
  destruct He as [He1 He2].
  assert (G1 : (r - x / p) * p <= (1 # 2) * p)
    by (apply Qmult_le_compat_r; lra).
  assert (G2 : - (1 # 2) * p <= (r - x / p) * p)
    by (apply Qmult_le_compat_r; lra).
  assert (Er : (r - x / p) * p == r * p - x) by (rewrite <- Ex at 2; ring).
  rewrite Er in G1, G2. exact (half_ulp_bound x p (r * p) H1 G1 G2).
Qed.

Lemma round_float_error x : Qabs (round_float x - x) <= unit_roundoff * Qabs x.
Proof.
  unfold round_float. rewrite Qred_correct.
  destruct (Qcompare_spec x 0) as [H|H|H].
  - rewrite H. vm_compute. discriminate.
  - pose proof (round_pos_error (- x)) as He.
    apply Qabs_Qle_condition in He; [|lra].
    rewrite (Qabs_neg x) by lra. apply abs_le. lra.
  - pose proof (round_pos_error x H) as He.
    apply Qabs_Qle_condition in He.
    rewrite (Qabs_pos x) by lra. apply abs_le. lra.
Qed.

(** The float percentage is the exact percentage, up to two roundings. *)
Lemma percentage_error pe tp :
  (0 < tp)%Z ->
  Qabs (float_mul (int_truediv pe tp) 100 - 100 * inject_Z pe / inject_Z tp)
    <= 3 * unit_roundoff * Qabs (100 * inject_Z pe / inject_Z tp).
Proof.
  intros Htp. unfold float_mul, int_truediv.
  assert (Hpos : 0 < inject_Z tp) by (rewrite <- (Zlt_Qlt 0); lia).
  set (q := inject_Z pe / inject_Z tp).
  assert (Eq : 100 * inject_Z pe / inject_Z tp == 100 * q).
  { unfold q. field. lra. }
  rewrite Eq.
  pose proof (round_float_error q) as H1.
  set (y := round_float q) in *.
  pose proof (round_float_error (y * 100)) as H2.
  set (x := round_float (y * 100)) in *.
  assert (EA : Qabs (100 * q) == 100 * Qabs q).
  { rewrite Qabs_Qmult. reflexivity. }
  assert (EB : Qabs (y * 100) == 100 * Qabs y).
  { rewrite Qabs_Qmult. change (Qabs 100) with 100. ring. }
  rewrite EA. rewrite EB in H2.
  pose proof (abs_bounds q) as Bq. pose proof (Qabs_nonneg q) as Nq.
  apply Qabs_Qle_condition in H1. apply Qabs_Qle_condition in H2.
  assert (By : Qabs y <= (1 + unit_roundoff) * Qabs q) by (apply abs_le; lra).
  apply abs_le. unfold unit_roundoff in *. lra.
Qed.

Lemma round_half_even_tie x :
  Qabs (inject_Z (round_half_even x) - x) == 1 # 2 ->
  Z.even (round_half_even x) = true.
Proof.
  pose proof (Qfloor_le x) as Hlo. pose proof (Qlt_floor x) as Hhi.
  rewrite inject_Z_plus in Hhi. change (inject_Z 1) with 1 in Hhi.
  unfold round_half_even.
  destruct (Qcompare_spec (x - inject_Z (Qfloor x)) (1 # 2)) as [H|H|H].
  - intros _. destruct (Z.even (Qfloor x)) eqn:E; [exact E|].
    rewrite Z.even_add, E. reflexivity.
  - intros Ht. exfalso. rewrite Qabs_neg in Ht by lra. lra.
  - rewrite inject_Z_plus. change (inject_Z 1) with 1.
    intros Ht. exfalso. rewrite Qabs_pos in Ht by lra. lra.
Qed.

Lemma py_round2_rounds x : rounds_to_hundredths x (py_round2 x).
Proof.
  exists (round_half_even (x * 100)).
  assert (E : inject_Z (round_half_even (x * 100)) - 100 * x
              == inject_Z (round_half_even (x * 100)) - x * 100) by ring.
  rewrite E. split; [apply round_half_even_error|].
  split; [apply round_half_even_tie|apply round_float_error].
Qed.

Lemma rounded_percentage_float pe tp :
  (0 < tp)%Z ->
  rounded_percentage pe tp (py_round2 (float_mul (int_truediv pe tp) 100)).
Proof.
  intros Htp. exists (float_mul (int_truediv pe tp) 100).
  split; [now apply percentage_error|apply py_round2_rounds].
Qed.

End Float64Error.


(** The operations agree with the binary64 operations of the machine on
    the values of the examples below. *)
Example int_truediv_1_3 : Float64.int_truediv 1 3 = Float64.machine_div 1 3.
Proof. vm_compute. reflexivity. Qed.

Example int_truediv_2_7 : Float64.int_truediv 2 7 = Float64.machine_div 2 7.
Proof. vm_compute. reflexivity. Qed.

Example float_mul_1_800 :
  Float64.float_mul (Float64.int_truediv 1 800) 100
  = Float64.machine_mul (PrimFloat.div 1 800) 100.
Proof. vm_compute. reflexivity. Qed.

(** [round(1 / 800 * 100, 2)] is [0.12], as printed by Python: the
    nearest binary64 value to 12/100. *)
Example py_round2_tie :
  Float64.py_round2 (Float64.float_mul (Float64.int_truediv 1 800) 100)
  = Float64.machine_div 12 100.
Proof. vm_compute. reflexivity. Qed.

Example py_round2_two_thirds :
  Float64.py_round2 (Float64.float_mul (Float64.int_truediv 2 3) 100)
  = Float64.machine_div 6667 100.
Proof. vm_compute. reflexivity. Qed.

(** ** hashlib and json on known values *)

Example sha256_first_constants :
  firstn 2 Sha256.K = [0x428a2f98; 0x71374491] /\
  firstn 2 Sha256.H0 = [0x6a09e667; 0xbb67ae85] /\
  length Sha256.K = 64%nat.
Proof. vm_compute. repeat split; reflexivity. Qed.

Example sha256_empty :
  Sha256.hexdigest (Sha256.encode EmptyString)
  = "e3b0c44298fc1c149afbf4c8996fb92427ae41e4649b934ca495991b7852b855".
Proof. vm_compute. reflexivity. Qed.

Example sha256_abc :
  Sha256.hexdigest (Sha256.encode "abc")
  = "ba7816bf8f01cfea414140de5dae2223b00361a396177a9cb410ff61f20015ad".
Proof. vm_compute. reflexivity. Qed.

Example sha256_two_blocks :
  Sha256.hexdigest
    (Sha256.encode "abcdbcdecdefdefgefghfghighijhijkijkljklmklmnlmnomnopnopq")
  = "248d6a61d20638b8e5c026930c3e6039a33ce45964ff2167f6ecedd419db06c1".
Proof. vm_compute. reflexivity. Qed.

(** Integer keys are sorted as numbers: 2 before 10. *)
Example dumps_int_keys :
  Json.dumps (Json.IntDict [(10, Json.Int 0); (2, Json.Int 1)])
  = "{" +:+ Json.quote "2" +:+ ": 1, " +:+ Json.quote "10" +:+ ": 0}".
Proof. vm_compute. reflexivity. Qed.

(** ** The grading policies *)

Lemma QuizInstance_len_ge_2 d : 2 <= QuizInstance.len d.
Proof.
  unfold QuizInstance.len.
  destruct (QuizInstance.questions d), (QuizInstance.quiz_hash d); lia.
Qed.

Lemma grade_single_choice_ok q ua :
  Question.question_type q = "single_choice" ->
  grade_single_choice q ua =
    Ok {| GradeResult.correct :=
            match submitted_indices ua with
            | Some [x] => bool_decide (x ∈ Question.correct_answers q)
            | _ => false
            end;
          GradeResult.points_earned :=
            if match submitted_indices ua with
               | Some [x] => bool_decide (x ∈ Question.correct_answers q)
               | _ => false
               end then Question.points q else 0;
          GradeResult.correct_answers := Question.correct_answers q;
          GradeResult.user_answers :=
            match ua with AInt i => AList [i] | _ => ua end |}.
Proof.
  intros Ht. unfold grade_single_choice. rewrite Ht, String.eqb_refl.
  cbn [negb]. destruct ua as [i|l|d]; cbn.
  - reflexivity.
  - destruct l as [|x [|y l]]; reflexivity.
  - pose proof (QuizInstance_len_ge_2 d).
    destruct (QuizInstance.len d =? 1) eqn:E; [lia|reflexivity].
Qed.

(** C1. For a single_choice question the grader marks a submission
    correct if and only if exactly one index was submitted and it is one
    of the correct options of the question; the number of correct
    options does not matter. *)
Theorem C1_single_choice_policy (q : Question.t) (ua : answer_data) :
  Question.question_type q = "single_choice" ->
  exists r,
    grade_single_choice q ua = Ok r /\
    (GradeResult.correct r = true <->
     exists i, submitted_indices ua = Some [i] /\ i ∈ Question.correct_answers q) /\
    (forall i, i ∈ Question.correct_answers q ->
       exists r', grade_single_choice q (AInt i) = Ok r' /\
                  GradeResult.correct r' = true).
Proof.
  intros Ht. eexists. split; [apply (grade_single_choice_ok q ua Ht)|].
  cbn [GradeResult.correct]. split.
  - destruct (submitted_indices ua) as [[|x [|y l]]|]; split;
      try discriminate; try (intros (i & [=] & _); fail).
    + intros H. exists x. split; [reflexivity|]. now apply bool_decide_eq_true in H.
    + intros (i & [= ->] & Hi). now apply bool_decide_eq_true.
  - intros i Hi. eexists. split; [apply (grade_single_choice_ok q (AInt i) Ht)|].
    cbn. now apply bool_decide_eq_true.
Qed.

Lemma C1_single_choice_policy_witness :
  exists r,
    grade_single_choice q_two_correct (AInt 2) = Ok r /\
    (GradeResult.correct r = true <->
     exists i, submitted_indices (AInt 2) = Some [i] /\
               i ∈ Question.correct_answers q_two_correct) /\
    (forall i, i ∈ Question.correct_answers q_two_correct ->
       exists r', grade_single_choice q_two_correct (AInt i) = Ok r' /\
                  GradeResult.correct r' = true).
Proof. apply (C1_single_choice_policy q_two_correct (AInt 2)). reflexivity. Defined.

(** Two indices submitted, both correct: not exactly one. *)
Example single_choice_two_selected :
  correct_of (grade_single_choice q_two_correct (AList [0; 2])) = Some false.
Proof. vm_compute. reflexivity. Qed.

(** The examples of the specification for single_choice: correct set
    {2}, selection {2} is correct and selection {0, 2} is not. *)
Example single_choice_spec_examples :
  correct_of (grade_single_choice q_one_correct (AInt 2)) = Some true /\
  correct_of (grade_single_choice q_one_correct (AList [2])) = Some true /\
  correct_of (grade_single_choice q_one_correct (AList [0; 2])) = Some false.
Proof. vm_compute. repeat split; reflexivity. Qed.

(** With two correct options, one of them selected: the grader accepts,
    the method [check_answer] of the model does not. *)
Example check_answer_example :
  correct_of (grade_single_choice q_two_correct (AInt 2)) = Some true /\
  Question_check_answer q_two_correct (AInt 2) = Ok false.
Proof. vm_compute. split; reflexivity. Qed.

Lemma grade_multiple_choice_ok q ua l :
  Question.question_type q = "multiple_choice" ->
  submitted_indices ua = Some l ->
  grade_multiple_choice q ua =
    Ok {| GradeResult.correct :=
            bool_decide (submitted_set l = list_to_set (Question.correct_answers q));
          GradeResult.points_earned :=
            if bool_decide (submitted_set l = list_to_set (Question.correct_answers q))
            then Question.points q else 0;
          GradeResult.correct_answers :=
            elements (list_to_set (Question.correct_answers q) : gset Z);
          GradeResult.user_answers := AList (elements (submitted_set l)) |}.
Proof.
  intros Ht Hl. unfold grade_multiple_choice. rewrite Ht, String.eqb_refl.
  cbn [negb]. destruct ua as [i|l'|d]; cbn in Hl; inversion Hl; subst; reflexivity.
Qed.

(** C6. For a multiple_choice question the grader marks a submission
    correct if and only if the set of submitted indices equals the set of
    correct options; a strict subset and a strict superset are graded
    incorrect, and earn no point. *)
Theorem C6_multiple_choice_policy (q : Question.t) (ua : answer_data) (l : list Z) :
  Question.question_type q = "multiple_choice" ->
  submitted_indices ua = Some l ->
  exists r,
    grade_multiple_choice q ua = Ok r /\
    (GradeResult.correct r = true <->
     forall x, x ∈ l <-> x ∈ Question.correct_answers q) /\
    (submitted_set l ⊂ list_to_set (Question.correct_answers q) ->
     GradeResult.correct r = false /\ GradeResult.points_earned r = 0) /\
    (list_to_set (Question.correct_answers q) ⊂ submitted_set l ->
     GradeResult.correct r = false /\ GradeResult.points_earned r = 0).
Proof.
  intros Ht Hl. eexists. split; [apply (grade_multiple_choice_ok q ua l Ht Hl)|].
  cbn [GradeResult.correct GradeResult.points_earned].
  split; [|split].
  - rewrite bool_decide_eq_true. unfold submitted_set. split.
    + intros H x. rewrite <- (elem_of_list_to_set (C:=gset Z) x l), H.
      apply elem_of_list_to_set.
    + intros H. apply set_eq. intros x. rewrite !elem_of_list_to_set. apply H.
  - intros Hsub.
    assert (E : bool_decide (submitted_set l = list_to_set (Question.correct_answers q)) = false).
    { apply bool_decide_eq_false. intros E. destruct Hsub as [_ Hn]. apply Hn. now rewrite E. }
    now rewrite E.
  - intros Hsub.
    assert (E : bool_decide (submitted_set l = list_to_set (Question.correct_answers q)) = false).
    { apply bool_decide_eq_false. intros E. destruct Hsub as [_ Hn]. apply Hn. now rewrite E. }
    now rewrite E.
Qed.

Lemma C6_multiple_choice_policy_witness :
  exists r,
    grade_multiple_choice q_multi (AList [0; 1]) = Ok r /\
    (GradeResult.correct r = true <->
     forall x, x ∈ [0; 1] <-> x ∈ Question.correct_answers q_multi) /\
    (submitted_set [0; 1] ⊂ list_to_set (Question.correct_answers q_multi) ->
     GradeResult.correct r = false /\ GradeResult.points_earned r = 0) /\
    (list_to_set (Question.correct_answers q_multi) ⊂ submitted_set [0; 1] ->
     GradeResult.correct r = false /\ GradeResult.points_earned r = 0).
Proof.
  apply (C6_multiple_choice_policy q_multi (AList [0; 1]) [0; 1]); reflexivity.
Defined.

Example multiple_choice_exact :
  bind (grade_multiple_choice q_multi (AList [1; 0; 1]))
       (fun r => Ok (GradeResult.correct r, GradeResult.points_earned r))
  = Ok (true, 1).
Proof. vm_compute. reflexivity. Qed.

Example multiple_choice_subset :
  bind (grade_multiple_choice q_multi (AList [0])) (fun r => Ok (GradeResult.correct r))
  = Ok false.
Proof. vm_compute. reflexivity. Qed.

Example multiple_choice_superset :
  bind (grade_multiple_choice q_multi (AList [0; 1; 2])) (fun r => Ok (GradeResult.correct r))
  = Ok false.
Proof. vm_compute. reflexivity. Qed.

(** On a multiple_choice question [check_answer] decides as the grader. *)
Lemma check_answer_multiple q ua l :
  Question.question_type q = "multiple_choice" ->
  submitted_indices ua = Some l ->
  Question_check_answer q ua
  = Ok (bool_decide (submitted_set l = list_to_set (Question.correct_answers q))).
Proof.
  intros Ht Hl. unfold Question_check_answer. rewrite Ht.
  destruct ua; cbn in Hl; inversion Hl; subst; reflexivity.
Qed.

(** ** Aggregation *)

Lemma grade_question_ok q ua :
  gradable q ua ->
  exists r, grade_question q ua = Ok r /\
            GradeResult.correct r = spec_correct q ua /\
            GradeResult.points_earned r =
              if spec_correct q ua then Question.points q else 0.
Proof.
  intros [Hs|[Hm Hl]]; unfold grade_question, spec_correct; rewrite ?Hs, ?Hm.
  - rewrite String.eqb_refl. eexists. split; [apply grade_single_choice_ok, Hs|].
    split; reflexivity.
  - cbn [String.eqb Ascii.eqb Bool.eqb].
    destruct (submitted_indices ua) as [l|] eqn:E; [|congruence].
    eexists. split; [apply (grade_multiple_choice_ok q ua l Hm E)|].
    split; reflexivity.
Qed.

Lemma grade_question_points q ua r :
  grade_question q ua = Ok r ->
  GradeResult.points_earned r = if GradeResult.correct r then Question.points q else 0.
Proof.
  unfold grade_question.
  destruct (String.eqb (Question.question_type q) "single_choice") eqn:Es.
  - apply String.eqb_eq in Es. rewrite (grade_single_choice_ok q ua Es).
    intros [= <-]. reflexivity.
  - unfold grade_multiple_choice.
    destruct (negb _); [discriminate|].
    destruct ua; cbn; intros [= <-]; reflexivity.
Qed.

Lemma selected_set_questions_to_grade quiz ids :
  ids <> [] -> questions_to_grade quiz ids = selected_set quiz ids.
Proof.
  intros Hne. unfold questions_to_grade, selected_set.
  destruct ids as [|i ids]; [congruence|].
  apply list_filter_iff. intros q. apply bool_decide_spec.
Qed.

Lemma score_loop_spec answers_given qs : forall acc,
  answers_gradable answers_given qs ->
  score_loop answers_given qs acc =
    Ok {| c_points_earned :=
            c_points_earned acc
            + sum_points (filter (fun q => answered_correctly answers_given q) qs);
          c_total_points := c_total_points acc + sum_points qs;
          c_questions_correct :=
            c_questions_correct acc
            + Z.of_nat (length (filter (fun q => answered_correctly answers_given q) qs));
          c_total_questions := c_total_questions acc + Z.of_nat (length qs) |}.
Proof.
  induction qs as [|q qs IH]; intros acc Hwf.
  - cbn. destruct acc; cbn. f_equal. f_equal; lia.
  - apply Forall_cons in Hwf as [Hq Hwf]. cbn [score_loop].
    destruct (answers_given !! str (Question.id q)) as [ua|] eqn:E.
    + assert (Hac : answered_correctly answers_given q = spec_correct q ua)
        by (unfold answered_correctly; now rewrite E).
      destruct (grade_question_ok q ua (Hq ua eq_refl)) as (r & Hr & Hc & Hp).
      rewrite Hr. cbn [bind]. rewrite IH by exact Hwf.
      cbn [c_points_earned c_total_points c_questions_correct c_total_questions].
      rewrite Hc, Hp. destruct (spec_correct q ua).
      * rewrite filter_cons_True by (rewrite Hac; exact I).
        f_equal. f_equal; unfold sum_points; cbn [map fold_right length]; lia.
      * rewrite filter_cons_False by (rewrite Hac; intros []).
        f_equal. f_equal; unfold sum_points; cbn [map fold_right length]; lia.
    + assert (Hac : answered_correctly answers_given q = false)
        by (unfold answered_correctly; now rewrite E).
      rewrite IH by exact Hwf.
      cbn [c_points_earned c_total_points c_questions_correct c_total_questions].
      rewrite filter_cons_False by (rewrite Hac; intros []).
      f_equal. f_equal; unfold sum_points; cbn [map fold_right length]; lia.
Qed.

(** The hypothesis of gradability is no restriction: it holds whenever
    the loop returns. *)
Lemma graded_is_gradable q ua r : grade_question q ua = Ok r -> gradable q ua.
Proof.
  unfold grade_question, gradable.
  destruct (String.eqb (Question.question_type q) "single_choice") eqn:Es.
  - intros _. left. now apply String.eqb_eq.
  - unfold grade_multiple_choice.
    destruct (String.eqb (Question.question_type q) "multiple_choice") eqn:Em;
      cbn [negb]; [|discriminate].
    intros H. right. split; [now apply String.eqb_eq|].
    destruct ua; cbn in *; discriminate.
Qed.

Lemma score_loop_gradable answers_given qs : forall acc c,
  score_loop answers_given qs acc = Ok c -> answers_gradable answers_given qs.
Proof.
  induction qs as [|q qs IH]; intros acc c H; [constructor|].
  cbn [score_loop] in H.
  destruct (answers_given !! str (Question.id q)) as [ua|] eqn:E.
  - destruct (grade_question q ua) as [r|e] eqn:Hr; [|discriminate].
    cbn [bind] in H. constructor; [|eapply IH, H].
    intros ua' Hua. rewrite E in Hua. injection Hua as <-.
    eapply graded_is_gradable, Hr.
  - constructor; [|eapply IH, H]. intros ua' Hua. rewrite E in Hua. discriminate.
Qed.

(** C2 (amended). Grading an attempt whose instance block selects the
    questions [selected_set quiz ids]: totalPoints is the sum of the
    points of all selected questions, answered or not; pointsEarned is
    the sum of the points of those answered correctly; when totalPoints
    is positive the score is pointsEarned / totalPoints * 100, computed
    in binary64 and rounded to two decimal places, ties to even
    ([rounds_to_hundredths]; [rounded_percentage] bounds it against the
    exact quotient), and it is 0 when totalPoints is zero or negative;
    passed holds exactly when the score is at least the minimum score of
    the quiz.  The answers are gradable whenever grading returns at all
    ([score_loop_gradable]). *)
Theorem C2_score_aggregation (db : database) (a : QuizAttempt.t)
    (quiz : Quiz.t) (d : QuizInstance.t) :
  quizzes db !! QuizAttempt.quiz_id a = Some quiz ->
  QuizAttempt.answers_given a !! instance_key = Some (ADict d) ->
  QuizInstance.question_ids d <> [] ->
  answers_gradable (QuizAttempt.answers_given a)
    (selected_set quiz (QuizInstance.question_ids d)) ->
  exists g,
    grade_attempt db a = Ok g /\
    Grading.total_points g
      = sum_points (selected_set quiz (QuizInstance.question_ids d)) /\
    Grading.points_earned g
      = sum_points (filter (fun q => answered_correctly (QuizAttempt.answers_given a) q)
                           (selected_set quiz (QuizInstance.question_ids d))) /\
    (0 < Grading.total_points g ->
     Grading.score_percentage g
       = Float64.py_round2
           (Float64.float_mul
              (Float64.int_truediv (Grading.points_earned g) (Grading.total_points g))
              100) /\
     rounds_to_hundredths
       (Float64.float_mul
          (Float64.int_truediv (Grading.points_earned g) (Grading.total_points g))
          100)
       (Grading.score_percentage g) /\
     rounded_percentage (Grading.points_earned g) (Grading.total_points g)
       (Grading.score_percentage g)) /\
    (Grading.total_points g <= 0 -> Grading.score_percentage g = 0%Q) /\
    (Grading.passed g = true <->
     (inject_Z (Quiz.minimum_score quiz) <= Grading.score_percentage g)%Q).
Proof.
  intros Hquiz Hinst Hne Hwf.
  unfold grade_attempt, calculate_total_score, selected_question_ids.
  rewrite Hquiz, Hinst. cbn [bind].
  rewrite (selected_set_questions_to_grade quiz _ Hne).
  rewrite (score_loop_spec _ _ _ Hwf). cbn [bind].
  eexists. split; [reflexivity|].
  cbn [Grading.total_points Grading.points_earned Grading.score_percentage
       Grading.passed ScoreData.score_percentage ScoreData.points_earned
       ScoreData.total_points c_points_earned c_total_points].
  rewrite !Z.add_0_l.
  split; [reflexivity|]. split; [reflexivity|].
  split; [|split].
  - intros Hpos. unfold percentage.
    pose proof Hpos as Hgt. apply Z.gtb_lt in Hgt. rewrite Hgt.
    split; [reflexivity|].
    split; [apply Float64Error.py_round2_rounds|].
    now apply Float64Error.rounded_percentage_float.
  - intros Hz. unfold percentage.
    destruct (_ >? 0) eqn:E; [apply Z.gtb_lt in E; lia|reflexivity].
  - unfold determine_pass_fail, Float64.float_ge_int. apply Qle_bool_iff.
Qed.

Example grade_attempt_example :
  grade_attempt db_example attempt_example
  = Ok {| Grading.score_percentage := 50; Grading.points_earned := 1;
          Grading.total_points := 2; Grading.questions_correct := 1;
          Grading.total_questions := 2; Grading.passed := false |}.
Proof. vm_compute. reflexivity. Qed.

Lemma answers_gradable_example :
  answers_gradable (QuizAttempt.answers_given attempt_example)
    (selected_set quiz_example (QuizInstance.question_ids instance_example)).
Proof.
  replace (selected_set quiz_example (QuizInstance.question_ids instance_example))
    with [q1_example; q_multi] by (vm_compute; reflexivity).
  constructor; [|constructor; [|constructor]].
  - intros ua _. left. reflexivity.
  - intros ua H. right. split; [reflexivity|].
    vm_compute in H. injection H as <-. discriminate.
Qed.

Lemma C2_score_aggregation_witness :
  exists g,
    grade_attempt db_example attempt_example = Ok g /\
    Grading.total_points g
      = sum_points (selected_set quiz_example (QuizInstance.question_ids instance_example)) /\
    Grading.points_earned g
      = sum_points
          (filter (fun q => answered_correctly (QuizAttempt.answers_given attempt_example) q)
                  (selected_set quiz_example (QuizInstance.question_ids instance_example))) /\
    (0 < Grading.total_points g ->
     Grading.score_percentage g
       = Float64.py_round2
           (Float64.float_mul
              (Float64.int_truediv (Grading.points_earned g) (Grading.total_points g))
              100) /\
     rounds_to_hundredths
       (Float64.float_mul
          (Float64.int_truediv (Grading.points_earned g) (Grading.total_points g))
          100)
       (Grading.score_percentage g) /\
     rounded_percentage (Grading.points_earned g) (Grading.total_points g)
       (Grading.score_percentage g)) /\
    (Grading.total_points g <= 0 -> Grading.score_percentage g = 0%Q) /\
    (Grading.passed g = true <->
     (inject_Z (Quiz.minimum_score quiz_example) <= Grading.score_percentage g)%Q).
Proof.
  apply (C2_score_aggregation db_example attempt_example quiz_example
           instance_example).
  - vm_compute. reflexivity.
  - vm_compute. reflexivity.
  - discriminate.
  - exact answers_gradable_example.
Defined.

(** C2 as the specification words it does not hold: the one selected
    question is worth -1 point and is answered correctly, so that
    pointsEarned / totalPoints * 100 is 100, and the score is 0. *)
Lemma C2_negative_total_counterexample :
  exists g,
    grade_attempt db_negative attempt_negative_total = Ok g /\
    Grading.points_earned g = -1 /\
    Grading.total_points g = -1 /\
    Grading.score_percentage g = 0%Q /\
    ~ rounded_percentage (Grading.points_earned g) (Grading.total_points g)
        (Grading.score_percentage g).
Proof.
  eexists. split; [vm_compute; reflexivity|].
  cbn [Grading.points_earned Grading.total_points Grading.score_percentage].
  do 3 (split; [reflexivity|]).
  intros (x & Hx & n & H1 & _ & H2). cbv zeta in Hx.
  assert (E : (100 * inject_Z (-1) / inject_Z (-1) == 100)%Q) by reflexivity.
  rewrite E in Hx. change (Qabs 100) with 100%Q in Hx.
  assert (En : (inject_Z n == 100 * (inject_Z n / 100))%Q) by (field; discriminate).
  rewrite En in H1. set (z := (inject_Z n / 100)%Q) in *. clearbody z.
  apply Qabs_Qle_condition in Hx. apply Qabs_Qle_condition in H1.
  apply Qabs_Qle_condition in H2. unfold unit_roundoff in *.
  destruct (Qlt_le_dec z 0) as [Hn|Hn].
  - rewrite Qabs_neg in H2 by lra. lra.
  - rewrite Qabs_pos in H2 by lra. lra.
Qed.

(** ** Keys of [answers_given] *)

Lemma pretty_N_go_head x : forall s t,
  (forall t', s <> String "_" t') -> pretty_N_go x s <> String "_" t.
Proof.
  induction (N.lt_wf_0 x) as [x _ IH]; intros s t Hs.
  assert (x = 0 \/ 0 < x)%N as [->|Hx] by lia.
  - rewrite pretty_N_go_0. apply Hs.
  - rewrite pretty_N_go_step by exact Hx. apply IH.
    + now apply N.div_lt.
    + intros t'. unfold pretty_N_char. repeat case_match; discriminate.
Qed.

(** The key of a question is never the key of the instance block. *)
Lemma str_ne_instance_key n : str n <> instance_key.
Proof.
  unfold str, instance_key, pretty, pretty_Z.
  destruct n as [|p|p]; [discriminate| |discriminate].
  unfold pretty, pretty_positive, pretty, pretty_N.
  case_decide; [discriminate|].
  apply pretty_N_go_head. intros t'. discriminate.
Qed.

Lemma str_inj n m : str n = str m -> n = m.
Proof. apply pretty_Z_inj. Qed.

(** ** Monotonicity of the score *)


Section Replace.
Variables (answers_given : gmap string answer_data) (q : Question.t).
Variables (old new : answer_data) (r_old r_new : GradeResult.t).
Hypothesis Hold : answers_given !! str (Question.id q) = Some old.
Hypothesis Hold_graded : grade_question q old = Ok r_old.
Hypothesis Hold_incorrect : GradeResult.correct r_old = false.
Hypothesis Hnew_graded : grade_question q new = Ok r_new.
Hypothesis Hpoints : 0 <= Question.points q.

End Replace.



(** C9. At the failing input the monotonicity is broken: the quiz has a
    question worth 3 points and a question worth -1 point, a value that
    the catalog stores without a check; the answer of the second question
    goes from incorrect to correct, all other answers fixed, and the score
    goes from 150, outside the documented range 0-100, down to 100. *)
Theorem C9_negative_points_failing_input :
  QuizAttempt.answers_given attempt_negative !! str (Question.id q_negative_points)
    = Some (AInt 1) /\
  correct_of (grade_question q_negative_points (AInt 1)) = Some false /\
  correct_of (grade_question q_negative_points (AInt 0)) = Some true /\
  score_of (calculate_total_score db_negative attempt_negative) = Some 150%Q /\
  score_of (calculate_total_score db_negative
              (replace_answer attempt_negative q_negative_points (AInt 0)))
    = Some 100%Q /\
  ~ (150 <= 100)%Q.
Proof. vm_compute. repeat split; try reflexivity. intros H. apply H. reflexivity. Qed.

(** ** The lifecycle of an attempt *)

Lemma complete_attempt_completed now db attempt_id a :
  quiz_attempts db !! attempt_id = Some a ->
  QuizAttempt.is_completed a = true ->
  complete_attempt now db attempt_id = (db, (None, Some completed_message)).
Proof. intros Ha Hc. unfold complete_attempt. now rewrite Ha, Hc. Qed.

Lemma complete_attempt_success now db attempt_id db' a' :
  complete_attempt now db attempt_id = (db', (Some a', None)) ->
  quiz_attempts db' !! attempt_id = Some a' /\
  QuizAttempt.completed_at a' = Some now.
Proof.
  unfold complete_attempt.
  destruct (quiz_attempts db !! attempt_id) as [a|]; [|discriminate].
  destruct (QuizAttempt.is_completed a); [discriminate|].
  destruct (grade_attempt db _) as [g|e]; [|discriminate].
  intros [= <- <-]. split; [apply lookup_insert_eq|reflexivity].
Qed.

(** C7. Completion is single-shot.  A call to [complete_attempt] on an
    attempt that is already completed returns the error outcome
    (no attempt, the message that the attempt is already finished) and
    leaves the database as it was; in particular, after a first
    successful completion a second call changes neither the stored score
    nor the stored passed flag. *)
Theorem C7_complete_single_shot (now now' : Z) (db db' : database)
    (attempt_id : Z) (a : QuizAttempt.t) :
  (quiz_attempts db !! attempt_id = Some a ->
   QuizAttempt.is_completed a = true ->
   complete_attempt now db attempt_id = (db, (None, Some completed_message))) /\
  (complete_attempt now db attempt_id = (db', (Some a, None)) ->
   quiz_attempts db' !! attempt_id = Some a /\
   QuizAttempt.is_completed a = true /\
   complete_attempt now' db' attempt_id = (db', (None, Some completed_message)) /\
   (forall db'' out,
      complete_attempt now' db' attempt_id = (db'', out) ->
      QuizAttempt.score <$> (quiz_attempts db'' !! attempt_id)
        = Some (QuizAttempt.score a) /\
      QuizAttempt.passed <$> (quiz_attempts db'' !! attempt_id)
        = Some (QuizAttempt.passed a))).
Proof.
  split.
  - apply complete_attempt_completed.
  - intros H. apply complete_attempt_success in H as [Hl Hc].
    assert (Hcomp : QuizAttempt.is_completed a = true)
      by (unfold QuizAttempt.is_completed; now rewrite Hc).
    pose proof (complete_attempt_completed now' db' attempt_id a Hl Hcomp) as H2.
    repeat split; try assumption;
      rewrite H2 in H; injection H as <- _; now rewrite Hl.
Qed.

Example complete_attempt_example :
  complete_attempt 5000000 db_example 1
  = (db_completed, (Some attempt_completed, None)).
Proof. vm_compute. reflexivity. Qed.

Lemma C7_complete_single_shot_witness :
  complete_attempt 9000000 db_completed 1
    = (db_completed, (None, Some completed_message)) /\
  QuizAttempt.score <$> (quiz_attempts db_completed !! 1) = Some 50%Q /\
  QuizAttempt.passed <$> (quiz_attempts db_completed !! 1) = Some false.
Proof.
  destruct (C7_complete_single_shot 5000000 9000000 db_example db_completed 1
              attempt_completed) as [_ H].
  destruct (H complete_attempt_example) as (_ & _ & H2 & H3).
  destruct (H3 _ _ H2) as [Hs Hp].
  exact (conj H2 (conj Hs Hp)).
Defined.

(** C8. [submit_answer] on a completed attempt returns the error outcome
    and leaves the database, hence the answer map of the attempt,
    unchanged; it succeeds only on an attempt that is in progress.  This
    holds whatever value the request gives as question id. *)
Theorem C8_submit_only_in_progress (db : database) (attempt_id : Z)
    (question_id : json_id) (answer : answer_data) (a : QuizAttempt.t) :
  quiz_attempts db !! attempt_id = Some a ->
  (QuizAttempt.is_completed a = true ->
   submit_answer db attempt_id question_id answer
     = (db, (None, Some completed_message))) /\
  (forall db' a',
     submit_answer db attempt_id question_id answer = (db', (Some a', None)) ->
     QuizAttempt.is_in_progress a = true) /\
  (QuizAttempt.is_in_progress a = true ->
   exists a',
     submit_answer db attempt_id question_id answer
       = (commit_attempt db attempt_id a', (Some a', None)) /\
     QuizAttempt.answers_given a'
       = <[str_id question_id := answer]> (QuizAttempt.answers_given a)).
Proof.
  intros Ha. unfold submit_answer. rewrite Ha.
  unfold QuizAttempt.is_completed, QuizAttempt.is_in_progress.
  destruct (QuizAttempt.completed_at a); repeat split;
    try discriminate; try reflexivity.
  intros _. eexists. split; reflexivity.
Qed.

Lemma C8_submit_only_in_progress_witness :
  submit_answer db_completed 1 1 (AInt 1)
    = (db_completed, (None, Some completed_message)).
Proof.
  refine (proj1 (C8_submit_only_in_progress db_completed 1 1 (AInt 1)
                   attempt_completed _) _).
  - vm_compute. reflexivity.
  - reflexivity.
Defined.

Example run_example_result :
  run_example
  = Some ((Some (50%Q, false, Some 5), None),
          (None, Some completed_message),
          (None, Some completed_message),
          (Some (50%Q, false, Some 5), None)).
Proof. vm_compute. reflexivity. Qed.

(** ** Grading and the catalog *)

(** C3 (amended). The attempt stores the ids of the selected questions,
    not the questions: grading reads the questions with these ids, and
    the minimum score, from the catalog as it is when the attempt is
    completed.  Two catalog states in which the quiz of the attempt has
    the same minimum score and the same questions among the stored ids
    give the same grading and the same outcome of [complete_attempt];
    questions outside the stored selection may differ freely. *)
Theorem C3_grading_reads_selected_ids (now : Z) (db1 db2 : database)
    (attempt_id : Z) (a : QuizAttempt.t) (quiz1 quiz2 : Quiz.t)
    (d : QuizInstance.t) :
  quiz_attempts db1 !! attempt_id = Some a ->
  quiz_attempts db2 !! attempt_id = Some a ->
  quizzes db1 !! QuizAttempt.quiz_id a = Some quiz1 ->
  quizzes db2 !! QuizAttempt.quiz_id a = Some quiz2 ->
  QuizAttempt.answers_given a !! instance_key = Some (ADict d) ->
  QuizInstance.question_ids d <> [] ->
  selected_set quiz1 (QuizInstance.question_ids d)
    = selected_set quiz2 (QuizInstance.question_ids d) ->
  Quiz.minimum_score quiz1 = Quiz.minimum_score quiz2 ->
  grade_attempt db1 a = grade_attempt db2 a /\
  snd (complete_attempt now db1 attempt_id) = snd (complete_attempt now db2 attempt_id).
Proof.
  intros Ha1 Ha2 Hq1 Hq2 Hinst Hne Hsel Hmin.
  assert (Hg : forall a', QuizAttempt.quiz_id a' = QuizAttempt.quiz_id a ->
                 QuizAttempt.answers_given a' = QuizAttempt.answers_given a ->
                 grade_attempt db1 a' = grade_attempt db2 a').
  { intros a' Eq Ea. unfold grade_attempt, calculate_total_score.
    rewrite Eq, Ea, Hq1, Hq2. unfold selected_question_ids. rewrite Hinst.
    cbn [bind]. rewrite !(selected_set_questions_to_grade _ _ Hne), Hsel, Hmin.
    reflexivity. }
  split; [now apply Hg|].
  unfold complete_attempt. rewrite Ha1, Ha2.
  destruct (QuizAttempt.is_completed a); [reflexivity|].
  rewrite Hg by reflexivity.
  destruct (grade_attempt db2 _); reflexivity.
Qed.

Lemma C3_grading_reads_selected_ids_witness :
  grade_attempt db_example attempt_example
    = grade_attempt (with_questions [q1_example; q_multi; q3_added]) attempt_example /\
  snd (complete_attempt 5000000 db_example 1)
    = snd (complete_attempt 5000000 (with_questions [q1_example; q_multi; q3_added]) 1).
Proof.
  eapply (C3_grading_reads_selected_ids 5000000 db_example
            (with_questions [q1_example; q_multi; q3_added]) 1 attempt_example
            quiz_example _ instance_example).
  - vm_compute. reflexivity.
  - vm_compute. reflexivity.
  - vm_compute. reflexivity.
  - vm_compute. reflexivity.
  - vm_compute. reflexivity.
  - discriminate.
  - vm_compute. reflexivity.
  - reflexivity.
Defined.

(** C3 as the specification words it does not hold.  The three catalog
    states hold the same attempt, with the same instance block; the
    question of id 2 is as generated in the first, edited in the second
    and removed in the third.  The gradings differ: 50 and failed,
    against 100 and passed. *)
Lemma C3_stored_set_counterexample :
  quiz_attempts db_example !! 1 = Some attempt_example /\
  quiz_attempts (with_questions [q1_example; q_multi_edited]) !! 1 = Some attempt_example /\
  quiz_attempts (with_questions [q1_example]) !! 1 = Some attempt_example /\
  graded (grade_attempt db_example attempt_example) = Some (50%Q, 1, 2, false) /\
  graded (grade_attempt (with_questions [q1_example; q_multi_edited]) attempt_example)
    = Some (100%Q, 2, 2, true) /\
  graded (grade_attempt (with_questions [q1_example]) attempt_example)
    = Some (100%Q, 1, 1, true).
Proof. vm_compute. repeat split; reflexivity. Qed.

(** ** Instance generation and the pool size *)

Lemma build_questions_data_ids randomize selected : forall g,
  map QuestionData.question_id (fst (build_questions_data randomize selected g))
  = map Question.id selected.
Proof.
  induction selected as [|q qs IH]; intros g; [reflexivity|].
  cbn [build_questions_data].
  destruct randomize.
  - destruct (randomize_answer_order q g) as [rz g1].
    specialize (IH g1). destruct (build_questions_data true qs g1) as [rest g2].
    cbn in *. now rewrite IH.
  - specialize (IH g). destruct (build_questions_data false qs g) as [rest g2].
    cbn in *. now rewrite IH.
Qed.



(** C5. At the failing input instance generation does not use all the
    questions: with two questions in the quiz, a pool size of zero yields
    no instance, where the method [Quiz.get_questions_for_attempt] of the
    model returns both questions, and a pool size of -1 raises; an unset
    pool size selects both questions. *)
Theorem C5_pool_size_failing_input :
  selected_ids (generate_quiz_instance (db_pool (Some 0)) 1 [3; 1; 4]%nat) = Ok None /\
  Quiz_get_questions_for_attempt (quiz_pool (Some 0)) [3; 1; 4]%nat
    = (Ok [q1_example; q_multi], [3; 1; 4]%nat) /\
  selected_ids (generate_quiz_instance (db_pool (Some (-1))) 1 [3; 1; 4]%nat)
    = Raise (ValueError "Sample larger than population or is negative") /\
  selected_ids (generate_quiz_instance (db_pool None) 1 [3; 1; 4]%nat) = Ok (Some [1; 2]).
Proof. vm_compute. repeat split; reflexivity. Qed.

(** A pool of one question out of two: the sample has one element. *)
Example pool_of_one :
  selected_ids (generate_quiz_instance (db_pool (Some 1)) 1 [3; 1; 4]%nat) = Ok (Some [2]).
Proof. vm_compute. reflexivity. Qed.

(** ** The fingerprint *)

Lemma instance_data_ext i1 i2 :
  QuizInstance.quiz_id i1 = QuizInstance.quiz_id i2 ->
  map QuestionData.question_id (hashed_questions i1)
    = map QuestionData.question_id (hashed_questions i2) ->
  map QuestionData.answer_mapping (hashed_questions i1)
    = map QuestionData.answer_mapping (hashed_questions i2) ->
  instance_data i1 = instance_data i2.
Proof.
  intros Hq Hids Hmaps. unfold instance_data. fold (hashed_questions i1).
  fold (hashed_questions i2). rewrite Hq.
  replace (map (fun q => Json.Int (QuestionData.question_id q)) (hashed_questions i1))
    with (map Json.Int (map QuestionData.question_id (hashed_questions i1)))
    by (rewrite map_map; reflexivity).
  replace (map (fun q => Json.Int (QuestionData.question_id q)) (hashed_questions i2))
    with (map Json.Int (map QuestionData.question_id (hashed_questions i2)))
    by (rewrite map_map; reflexivity).
  set (f := fun m : gmap Z Z =>
              Json.IntDict (map (fun kv => (fst kv, Json.Int (snd kv))) (map_to_list m))).
  replace (map (fun q => Json.IntDict _) (hashed_questions i1))
    with (map f (map QuestionData.answer_mapping (hashed_questions i1)))
    by (rewrite map_map; reflexivity).
  replace (map (fun q => Json.IntDict _) (hashed_questions i2))
    with (map f (map QuestionData.answer_mapping (hashed_questions i2)))
    by (rewrite map_map; reflexivity).
  now rewrite Hids, Hmaps.
Qed.

Lemma round_length st kw : length st = 8%nat -> length (Sha256.round st kw) = 8%nat.
Proof.
  intros H. do 9 (destruct st as [|? st]; try discriminate). reflexivity.
Qed.

Lemma compress_length h block : length h = 8%nat -> length (Sha256.compress h block) = 8%nat.
Proof.
  intros H. unfold Sha256.compress. rewrite length_map, length_combine.
  assert (Hst : forall l st, length st = 8%nat ->
                  length (fold_left Sha256.round l st) = 8%nat).
  { induction l as [|kw l IH]; intros st Hs; [exact Hs|].
    cbn. apply IH, round_length, Hs. }
  rewrite (Hst _ _ H), H. reflexivity.
Qed.

Lemma digest_length msg : length (Sha256.digest msg) = 32%nat.
Proof.
  unfold Sha256.digest.
  assert (Hh : forall blocks h, length h = 8%nat ->
                 length (fold_left Sha256.compress blocks h) = 8%nat).
  { induction blocks as [|b bs IH]; intros h Hl; [exact Hl|].
    cbn. apply IH, compress_length, Hl. }
  assert (H0l : length Sha256.H0 = 8%nat) by (vm_compute; reflexivity).
  specialize (Hh (Sha256.chunks (length (Sha256.pad msg)) 64 (Sha256.pad msg))
                 Sha256.H0 H0l).
  destruct (fold_left _ _ _) as [|a [|b [|c [|d [|e [|f [|g [|h [|]]]]]]]]];
    try discriminate. reflexivity.
Qed.

Lemma hexdigest_length msg : String.length (Sha256.hexdigest msg) = 64%nat.
Proof.
  unfold Sha256.hexdigest.
  assert (H : forall l, String.length (string_of_list_ascii l) = length l).
  { induction l; cbn; congruence. }
  rewrite H.
  assert (H2 : forall bs, length (flat_map Sha256.hex_byte bs) = (2 * length bs)%nat).
  { induction bs; cbn in *; lia. }
  rewrite H2, digest_length. reflexivity.
Qed.

Lemma dumps_StrDict items :
  Json.dumps (Json.StrDict items)
  = "{" +:+ Json.join (map Json.dump_item
                         (Json.sort_items Json.string_leb
                            (map (fun kv => (fst kv, Json.dumps (snd kv))) items)))
        +:+ "}".
Proof. reflexivity. Qed.

(** [sort_keys=True] puts the three keys in this order. *)
Lemma sort_instance_keys {V} (x y z : V) :
  Json.sort_items Json.string_leb
    [("quiz_id", x); ("question_ids", y); ("mappings", z)]
  = [("mappings", z); ("question_ids", y); ("quiz_id", x)].
Proof. reflexivity. Qed.

(** ** Sorting the items of a dict *)

Section SortItems.
Context {V : Type}.
Implicit Types (l : list (Z * V)) (x : Z * V).

Lemma insert_item_perm x l : Permutation (Json.insert_item Z.leb x l) (x :: l).
Proof.
  induction l as [|y l IH]; cbn; [reflexivity|].
  destruct (fst x <=? fst y); [reflexivity|].
  rewrite IH. apply perm_swap.
Qed.

Lemma sort_items_perm l : Permutation (Json.sort_items Z.leb l) l.
Proof.
  induction l as [|x l IH]; cbn; [reflexivity|].
  unfold Json.sort_items in IH. rewrite insert_item_perm. now rewrite IH.
Qed.

Lemma insert_item_sorted x l :
  StronglySorted key_le l -> StronglySorted key_le (Json.insert_item Z.leb x l).
Proof.
  induction 1 as [|y l Hs IH Hall]; cbn.
  - repeat constructor.
  - destruct (Z.leb_spec (fst x) (fst y)) as [Hle|Hlt].
    + constructor; [now constructor|]. constructor; [exact Hle|].
      eapply Forall_impl; [exact Hall|]. unfold key_le. cbn. intros; lia.
    + constructor; [exact IH|].
      rewrite insert_item_perm. constructor; [unfold key_le; lia|exact Hall].
Qed.

Lemma sort_items_sorted l : StronglySorted key_le (Json.sort_items Z.leb l).
Proof.
  induction l as [|x l IH]; cbn; [constructor|]. now apply insert_item_sorted.
Qed.

Lemma sorted_lookup_le l i j a b :
  StronglySorted key_le l -> l !! i = Some a -> l !! j = Some b -> (i < j)%nat ->
  fst a <= fst b.
Proof.
  intros Hs. revert i j. induction Hs as [|y l Hs IH Hall]; intros i j Hi Hj Hlt.
  - discriminate.
  - destruct j as [|j]; [lia|]. cbn in Hj. destruct i as [|i].
    + cbn in Hi. injection Hi as <-. rewrite Forall_forall in Hall.
      apply Hall. apply list_elem_of_lookup. eauto.
    + cbn in Hi. apply (IH i j Hi Hj). lia.
Qed.

(** Rendering the values commutes with sorting by key. *)
Lemma sort_items_map {W} (f : V -> W) l :
  Json.sort_items Z.leb (map (fun kv => (fst kv, f (snd kv))) l)
  = map (fun kv => (fst kv, f (snd kv))) (Json.sort_items Z.leb l).
Proof.
  induction l as [|x l IH]; [reflexivity|]. cbn [map Json.sort_items fold_right].
  unfold Json.sort_items in IH. rewrite IH.
  generalize (fold_right (Json.insert_item Z.leb) [] l). intros s.
  induction s as [|y s IHs]; [reflexivity|]. cbn.
  destruct (fst x <=? fst y); [reflexivity|]. cbn. now rewrite IHs.
Qed.
End SortItems.

Lemma sorted_mapping_entries (m : gmap Z Z) :
  mapping_entries m (Json.sort_items Z.leb (map_to_list m)).
Proof.
  split.
  - intros k v. rewrite sort_items_perm. apply elem_of_map_to_list.
  - intros i j a b Hi Hj Hlt.
    pose proof (sorted_lookup_le _ i j a b (sort_items_sorted _) Hi Hj Hlt) as Hle.
    assert (Hnd : NoDup (Json.sort_items Z.leb (map_to_list m)).*1).
    { rewrite sort_items_perm. apply NoDup_fst_map_to_list. }
    destruct (decide (fst a = fst b)) as [E|]; [|lia].
    exfalso. assert (i = j); [|lia].
    eapply (NoDup_lookup _ i j (fst a) Hnd).
    + now rewrite list_lookup_fmap, Hi.
    + now rewrite list_lookup_fmap, Hj, E.
Qed.

(** The entries are determined by the mapping. *)
Lemma mapping_entries_unique m kvs1 kvs2 :
  mapping_entries m kvs1 -> mapping_entries m kvs2 -> kvs1 = kvs2.
Proof.
  revert m kvs2. induction kvs1 as [|x l1 IH]; intros m kvs2 [H1 S1] [H2 S2].
  - destruct kvs2 as [|[k v] l2]; [reflexivity|]. exfalso.
    assert (Hin : (k, v) ∈ ([] : list (Z * Z))) by (apply H1, H2; left).
    now apply elem_of_nil in Hin.
  - destruct kvs2 as [|y l2].
    { exfalso. destruct x as [k v].
      assert (Hin : (k, v) ∈ ([] : list (Z * Z))) by (apply H2, H1; left).
      now apply elem_of_nil in Hin. }
    assert (Hmin1 : forall z, z ∈ l1 -> fst x < fst z).
    { intros z Hz. apply list_elem_of_lookup in Hz as [i Hi].
      apply (S1 0%nat (S i) x z); [reflexivity|exact Hi|lia]. }
    assert (Hmin2 : forall z, z ∈ l2 -> fst y < fst z).
    { intros z Hz. apply list_elem_of_lookup in Hz as [i Hi].
      apply (S2 0%nat (S i) y z); [reflexivity|exact Hi|lia]. }
    assert (Hxy : x = y).
    { destruct x as [kx vx], y as [ky vy].
      assert (Hx : (kx, vx) ∈ (ky, vy) :: l2) by (apply H2, H1; left).
      assert (Hy : (ky, vy) ∈ (kx, vx) :: l1) by (apply H1, H2; left).
      apply elem_of_cons in Hx as [Hx|Hx]; [exact Hx|].
      apply elem_of_cons in Hy as [Hy|Hy]; [now symmetry|].
      apply Hmin2 in Hx. apply Hmin1 in Hy. cbn in *. lia. }
    subst y. f_equal.
    apply (IH (delete (fst x) m)).
    + split.
      * intros k v. rewrite lookup_delete_Some, <- H1. split.
        -- intros Hin. split; [|now apply list_elem_of_further].
           apply Hmin1 in Hin. cbn in Hin. lia.
        -- intros [Hne Hin]. apply elem_of_cons in Hin as [E|Hin]; [|exact Hin].
           rewrite <- E in Hne. cbn in Hne. congruence.
      * intros i j a b Hi Hj Hlt. apply (S1 (S i) (S j) a b Hi Hj). lia.
    + split.
      * intros k v. rewrite lookup_delete_Some, <- H2. split.
        -- intros Hin. split; [|now apply list_elem_of_further].
           apply Hmin2 in Hin. cbn in Hin. lia.
        -- intros [Hne Hin]. apply elem_of_cons in Hin as [E|Hin]; [|exact Hin].
           rewrite <- E in Hne. cbn in Hne. congruence.
      * intros i j a b Hi Hj Hlt. apply (S2 (S i) (S j) a b Hi Hj). lia.
Qed.

Lemma dumps_mapping (m : gmap Z Z) :
  Json.dumps (Json.IntDict (map (fun kv => (fst kv, Json.Int (snd kv))) (map_to_list m)))
  = mapping_text (Json.sort_items Z.leb (map_to_list m)).
Proof.
  unfold mapping_text. cbn [Json.dumps]. do 2 f_equal.
  rewrite map_map. cbn [fst snd Json.dumps].
  rewrite (sort_items_map (fun v : Z => pretty v)). rewrite map_map. reflexivity.
Qed.

Lemma dumps_List items :
  Json.dumps (Json.List items) = "[" +:+ Json.join (map Json.dumps items) +:+ "]".
Proof. reflexivity. Qed.

Lemma instance_data_text (i : QuizInstance.t) :
  Json.dumps (instance_data i)
  = fingerprint_text (QuizInstance.quiz_id i)
      (map QuestionData.question_id (hashed_questions i))
      (map (fun q => Json.sort_items Z.leb (map_to_list (QuestionData.answer_mapping q)))
           (hashed_questions i)).
Proof.
  unfold instance_data. fold (hashed_questions i). rewrite dumps_StrDict.
  cbn [map fst snd]. rewrite sort_instance_keys. unfold fingerprint_text, id_list_text.
  rewrite !dumps_List, !map_map.
  rewrite (map_ext (fun q => Json.dumps (Json.IntDict _))
                   (fun q => mapping_text
                               (Json.sort_items Z.leb
                                  (map_to_list (QuestionData.answer_mapping q)))))
    by (intros q; apply dumps_mapping).
  reflexivity.
Qed.

Lemma entries_of_mappings (maps : list (gmap Z Z)) (entries : list (list (Z * Z))) :
  Forall2 mapping_entries maps entries <->
  entries = map (fun m => Json.sort_items Z.leb (map_to_list m)) maps.
Proof.
  split.
  - induction 1 as [|m kvs maps entries Hm _ IH]; [reflexivity|].
    cbn. f_equal; [|exact IH].
    apply (mapping_entries_unique m); [exact Hm|apply sorted_mapping_entries].
  - intros ->. induction maps as [|m maps IH]; constructor;
      [apply sorted_mapping_entries|exact IH].
Qed.

(** C4. The fingerprint is a function of the quiz id, the list of the
    question ids and the list of the answer mappings of the instance:
    two instances that agree on the three have the same digest, whatever
    their other fields.  The digest is the SHA-256 hash, written as 64
    hexadecimal digits (256 bits), of the JSON text of
    [{quiz_id, question_ids, mappings}] with sorted keys:
    [fingerprint_text] of the quiz id, the question ids in their order,
    and the items of each mapping by increasing key. *)
Theorem C4_fingerprint_deterministic (i1 i2 : QuizInstance.t) :
  QuizInstance.quiz_id i1 = QuizInstance.quiz_id i2 ->
  map QuestionData.question_id (hashed_questions i1)
    = map QuestionData.question_id (hashed_questions i2) ->
  map QuestionData.answer_mapping (hashed_questions i1)
    = map QuestionData.answer_mapping (hashed_questions i2) ->
  generate_quiz_hash i1 = generate_quiz_hash i2 /\
  generate_quiz_hash i1
    = Sha256.hexdigest (Sha256.encode (Json.dumps (instance_data i1))) /\
  String.length (generate_quiz_hash i1) = 64%nat /\
  (exists entries,
     Forall2 mapping_entries
       (map QuestionData.answer_mapping (hashed_questions i1)) entries) /\
  (forall entries,
     Forall2 mapping_entries
       (map QuestionData.answer_mapping (hashed_questions i1)) entries ->
     generate_quiz_hash i1
     = Sha256.hexdigest
         (Sha256.encode
            (fingerprint_text (QuizInstance.quiz_id i1)
               (map QuestionData.question_id (hashed_questions i1)) entries))).
Proof.
  intros Hq Hids Hmaps.
  split.
  { unfold generate_quiz_hash. now rewrite (instance_data_ext i1 i2 Hq Hids Hmaps). }
  split; [reflexivity|]. split; [apply hexdigest_length|].
  split.
  - eexists. apply entries_of_mappings. reflexivity.
  - intros entries He. apply entries_of_mappings in He. subst entries.
    unfold generate_quiz_hash. rewrite instance_data_text, map_map. reflexivity.
Qed.

Lemma C4_fingerprint_deterministic_witness :
  generate_quiz_hash instance_a = generate_quiz_hash instance_a' /\
  generate_quiz_hash instance_a
    = Sha256.hexdigest (Sha256.encode (Json.dumps (instance_data instance_a))) /\
  String.length (generate_quiz_hash instance_a) = 64%nat /\
  (exists entries,
     Forall2 mapping_entries
       (map QuestionData.answer_mapping (hashed_questions instance_a)) entries) /\
  (forall entries,
     Forall2 mapping_entries
       (map QuestionData.answer_mapping (hashed_questions instance_a)) entries ->
     generate_quiz_hash instance_a
     = Sha256.hexdigest
         (Sha256.encode
            (fingerprint_text (QuizInstance.quiz_id instance_a)
               (map QuestionData.question_id (hashed_questions instance_a)) entries))).
Proof.
  apply (C4_fingerprint_deterministic instance_a instance_a').
  - reflexivity.
  - reflexivity.
  - vm_compute. reflexivity.
Defined.

(** The text that is hashed for [instance_a], and its digest. *)
Example fingerprint_text_example :
  Forall2 mapping_entries
    (map QuestionData.answer_mapping (hashed_questions instance_a))
    [[(0, 2); (1, 0); (2, 1)]; [(2, 1); (10, 0)]] /\
  id_list_text (map QuestionData.question_id (hashed_questions instance_a))
    = "[3, 1]" /\
  mapping_text [(0, 2); (1, 0); (2, 1)]
    = "{" +:+ Json.join [Json.quote "0" +:+ ": 2"; Json.quote "1" +:+ ": 0";
                         Json.quote "2" +:+ ": 1"] +:+ "}" /\
  Sha256.hexdigest
    (Sha256.encode (fingerprint_text 7 [3; 1] [[(0, 2); (1, 0); (2, 1)]; [(2, 1); (10, 0)]]))
    = "d74254ad43523f816926654f23593f42d3f003a183fbd2502704142f2671a709".
Proof.
  split; [apply entries_of_mappings; vm_compute; reflexivity|].
  split; [reflexivity|]. split; vm_compute; reflexivity.
Qed.

(** The digest of this instance, as CPython computes it. *)
Example generate_quiz_hash_example :
  generate_quiz_hash instance_a
  = "d74254ad43523f816926654f23593f42d3f003a183fbd2502704142f2671a709".
Proof. vm_compute. reflexivity. Qed.

(** ** Integrity validation *)

(** C10. [validate_quiz_integrity] returns False when there is no attempt
    or the expected hash is empty; it returns True, whatever the expected
    hash, when the answer map of the attempt has no '_quiz_instance'
    entry; the hash is recomputed from the stored instance and compared
    with the expected one only when the entry is there. *)
Theorem C10_integrity_legacy_bypass (a : QuizAttempt.t) (quiz_hash : string)
    (d : QuizInstance.t) :
  validate_quiz_integrity None quiz_hash = Ok false /\
  validate_quiz_integrity (Some a) EmptyString = Ok false /\
  (quiz_hash <> EmptyString ->
   QuizAttempt.answers_given a !! instance_key = None ->
   validate_quiz_integrity (Some a) quiz_hash = Ok true) /\
  (quiz_hash <> EmptyString ->
   QuizAttempt.answers_given a !! instance_key = Some (ADict d) ->
   validate_quiz_integrity (Some a) quiz_hash
     = Ok (String.eqb (generate_quiz_hash d) quiz_hash)).
Proof.
  split; [reflexivity|]. split; [reflexivity|].
  unfold validate_quiz_integrity.
  split; intros Hne Hl; rewrite Hl;
    (destruct (String.eqb quiz_hash EmptyString) eqn:E;
     [apply String.eqb_eq in E; contradiction|reflexivity]).
Qed.

Lemma C10_integrity_legacy_bypass_witness :
  validate_quiz_integrity (Some attempt_legacy) "not the hash of anything" = Ok true /\
  validate_quiz_integrity (Some attempt_example) "not the hash of anything"
    = Ok (String.eqb (generate_quiz_hash instance_example) "not the hash of anything").
Proof.
  destruct (C10_integrity_legacy_bypass attempt_legacy "not the hash of anything"
              instance_example) as (_ & _ & H3 & _).
  destruct (C10_integrity_legacy_bypass attempt_example "not the hash of anything"
              instance_example) as (_ & _ & _ & H4).
  split.
  - apply H3; [discriminate|vm_compute; reflexivity].
  - apply H4; [discriminate|vm_compute; reflexivity].
Defined.

(** The stored block carries no 'questions': its hash is that of empty
    lists of ids and mappings. *)
Example stored_instance_hash :
  generate_quiz_hash
    {| QuizInstance.quiz_id := 7; QuizInstance.questions := None;
       QuizInstance.question_ids := [3; 1];
       QuizInstance.quiz_hash := Some "h" |}
  = "3da5f62dccbff038329d1872c59cc256edfd626b6ff510f6607b61e7d8961680".
Proof. vm_compute. reflexivity. Qed.

(** * Further properties of the grader *)

(** ** The correct options of a question *)

Lemma enumerate_from_lookup {A} (l : list A) : forall (i : Z) (k : nat),
  Question.enumerate_from i l !! k = (fun x => (i + Z.of_nat k, x)) <$> (l !! k).
Proof.
  induction l as [|x l IH]; intros i k; [now destruct k|].
  destruct k as [|k]; cbn.
  - now rewrite Z.add_0_r.
  - rewrite IH. destruct (l !! k); cbn; [|reflexivity].
    do 2 f_equal. lia.
Qed.

Lemma enumerate_from_fst_lt {A} (l : list A) : forall i p,
  p ∈ Question.enumerate_from i l -> i <= fst p < i + Z.of_nat (length l).
Proof.
  intros i p Hp. apply list_elem_of_lookup in Hp as [k Hk].
  rewrite enumerate_from_lookup in Hk.
  destruct (l !! k) eqn:E; [|discriminate]. injection Hk as <-.
  apply lookup_lt_Some in E. cbn. lia.
Qed.

Lemma elem_of_map {A B} (f : A -> B) (l : list A) (y : B) :
  y ∈ map f l <-> exists x, y = f x /\ x ∈ l.
Proof.
  rewrite list_elem_of_In, in_map_iff. split; intros (x & H1 & H2); exists x.
  - split; [now symmetry|now apply list_elem_of_In].
  - split; [now symmetry|now apply list_elem_of_In].
Qed.

Lemma elem_of_correct_answers (q : Question.t) (i : Z) :
  i ∈ Question.correct_answers q <->
  0 <= i /\ exists a, Question.answers q !! Z.to_nat i = Some a /\ is_correct a = true.
Proof.
  unfold Question.correct_answers, Question.enumerate.
  rewrite elem_of_map. split.
  - intros ([j a] & -> & Hin). cbn.
    apply list_elem_of_filter in Hin as [Hc Hin]. cbn in Hc.
    apply list_elem_of_lookup in Hin as [k Hk].
    rewrite enumerate_from_lookup in Hk.
    destruct (Question.answers q !! k) as [a'|] eqn:E; [|discriminate].
    injection Hk as <- <-. split; [lia|].
    exists a'. rewrite Z.add_0_l, Nat2Z.id. split; [exact E|].
    now destruct (is_correct a').
  - intros (Hi & a & Ha & Hc). exists (i, a). split; [reflexivity|].
    apply list_elem_of_filter. split; [cbn; now rewrite Hc|].
    apply list_elem_of_lookup. exists (Z.to_nat i).
    rewrite enumerate_from_lookup, Ha. cbn. do 2 f_equal. lia.
Qed.

Lemma correct_answers_increasing (q : Question.t) :
  forall j k x y,
    Question.correct_answers q !! j = Some x ->
    Question.correct_answers q !! k = Some y ->
    (j < k)%nat -> x < y.
Proof.
  unfold Question.correct_answers, Question.enumerate. generalize 0 as start.
  induction (Question.answers q) as [|a l IH]; intros start j k x y Hj Hk Hlt.
  - discriminate.
  - cbn [Question.enumerate_from] in Hj, Hk. rewrite filter_cons in Hj, Hk.
    destruct (decide _) as [Hd|Hd]; [|eapply IH; eassumption].
    cbn [map fst] in Hj, Hk. destruct k as [|k]; [lia|]. cbn in Hk.
    assert (Hy : start + 1 <= y).
    { assert (Hin : y ∈ map fst (filter (fun ia : Z * answer_option => is_correct (snd ia))
                                    (Question.enumerate_from (start + 1) l)))
        by (apply list_elem_of_lookup; eauto).
      apply elem_of_map in Hin as ([z b] & -> & Hin).
      apply list_elem_of_filter in Hin as [_ Hin].
      apply enumerate_from_fst_lt in Hin. cbn in *. lia. }
    destruct j as [|j]; cbn in Hj.
    + injection Hj as <-. lia.
    + eapply IH; [exact Hj|exact Hk|lia].
Qed.

(** X1. an index is among the correct answers exactly when the option at
    that index is flagged correct, and the indices are listed in
    increasing order, each once. *)
Theorem correct_answers_spec (q : Question.t) (i : Z) :
  (i ∈ Question.correct_answers q <->
   exists k a, i = Z.of_nat k /\ Question.answers q !! k = Some a /\ is_correct a = true) /\
  (forall j k x y,
     Question.correct_answers q !! j = Some x ->
     Question.correct_answers q !! k = Some y ->
     (j < k)%nat -> x < y) /\
  NoDup (Question.correct_answers q).
Proof.
  split; [|split].
  - rewrite elem_of_correct_answers. split.
    + intros (Hi & a & Ha & Hc). exists (Z.to_nat i), a. split; [lia|now split].
    + intros (k & a & -> & Ha & Hc). split; [lia|]. exists a. now rewrite Nat2Z.id.
  - apply correct_answers_increasing.
  - apply NoDup_alt. intros j k x Hj Hk.
    destruct (Nat.lt_trichotomy j k) as [H|[H|H]]; [|exact H|].
    + pose proof (correct_answers_increasing q j k x x Hj Hk H). lia.
    + pose proof (correct_answers_increasing q k j x x Hk Hj H). lia.
Qed.

(** ** Totals and bounds of the score *)

(** What the loop adds to the counters, whatever the answers. *)
Lemma score_loop_totals answers_given qs : forall acc c,
  score_loop answers_given qs acc = Ok c ->
  c_total_points c = c_total_points acc + sum_points qs /\
  c_total_questions c = c_total_questions acc + Z.of_nat (length qs).
Proof.
  induction qs as [|q qs IH]; intros acc c H.
  - cbn in H. injection H as <-. unfold sum_points. cbn. lia.
  - cbn [score_loop] in H.
    destruct (answers_given !! str (Question.id q)) as [ua|].
    + destruct (grade_question q ua) as [r|e]; [|discriminate]. cbn [bind] in H.
      apply IH in H as [H1 H2]. cbn in H1, H2.
      unfold sum_points in *. cbn [map fold_right length]. lia.
    + apply IH in H as [H1 H2]. cbn in H1, H2.
      unfold sum_points in *. cbn [map fold_right length]. lia.
Qed.

Lemma score_loop_bounds answers_given qs : forall acc c,
  Forall (fun q => 0 <= Question.points q) qs ->
  score_loop answers_given qs acc = Ok c ->
  0 <= c_points_earned c - c_points_earned acc
    <= c_total_points c - c_total_points acc /\
  0 <= c_questions_correct c - c_questions_correct acc
    <= c_total_questions c - c_total_questions acc.
Proof.
  induction qs as [|q qs IH]; intros acc c Hpos H.
  - cbn in H. injection H as <-. lia.
  - apply Forall_cons in Hpos as [Hq Hpos]. cbn [score_loop] in H.
    destruct (answers_given !! str (Question.id q)) as [ua|].
    + destruct (grade_question q ua) as [r|e] eqn:Hr; [|discriminate].
      cbn [bind] in H. apply (IH _ _ Hpos) in H. cbn in H.
      rewrite (grade_question_points _ _ _ Hr) in H.
      destruct (GradeResult.correct r); lia.
    + apply (IH _ _ Hpos) in H. cbn in H. lia.
Qed.

Lemma round_float_0 : Float64.round_float 0 = 0%Q.
Proof. reflexivity. Qed.

Lemma percentage_range pe tp :
  0 <= pe <= tp -> (0 <= percentage pe tp <= 100)%Q.
Proof.
  intros [H0 H1]. unfold percentage.
  destruct (tp >? 0) eqn:E; [|split; [apply Qle_refl|discriminate]].
  apply Z.gtb_lt in E.
  assert (Ht : (0 < inject_Z tp)%Q) by (rewrite <- (Zlt_Qlt 0); lia).
  assert (Hlo : (0 <= Float64.int_truediv pe tp)%Q).
  { change 0%Q with (Float64.round_float 0). apply Float64Facts.round_float_mono.
    apply Qle_shift_div_l; [exact Ht|]. rewrite Qmult_0_l, <- (Zle_Qle 0). lia. }
  assert (Hhi : (Float64.int_truediv pe tp <= 1)%Q).
  { change 1%Q with (Float64.round_float 1). apply Float64Facts.round_float_mono.
    apply Qle_shift_div_r; [exact Ht|]. rewrite Qmult_1_l, <- Zle_Qle. lia. }
  split.
  - change 0%Q with (Float64.float_mul 0 100).
    apply Float64Facts.float_mul_mono; [discriminate|exact Hlo].
  - change 100%Q with (Float64.float_mul 1 100).
    apply Float64Facts.float_mul_mono; [discriminate|exact Hhi].
Qed.

(** X2. with no negative point value in the quiz, a grading that returns
    has 0 <= pointsEarned <= totalPoints, 0 <= questionsCorrect <=
    totalQuestions and a score between 0 and 100, as the docstring of
    [calculate_total_score] says. *)
Theorem score_within_0_100 (db : database) (a : QuizAttempt.t) (s : ScoreData.t) :
  (forall quiz, quizzes db !! QuizAttempt.quiz_id a = Some quiz ->
                Forall (fun q => 0 <= Question.points q) (Quiz.questions quiz)) ->
  calculate_total_score db a = Ok s ->
  0 <= ScoreData.points_earned s <= ScoreData.total_points s /\
  0 <= ScoreData.questions_correct s <= ScoreData.total_questions s /\
  (0 <= ScoreData.score_percentage s <= 100)%Q.
Proof.
  intros Hpos H. unfold calculate_total_score in H.
  destruct (quizzes db !! QuizAttempt.quiz_id a) as [quiz|] eqn:Hq.
  - destruct (selected_question_ids _) as [ids|e]; [|discriminate]. cbn [bind] in H.
    destruct (score_loop _ _ _) as [c|e] eqn:Hc; [|discriminate].
    cbn [bind] in H. injection H as <-. cbn.
    assert (Hsub : Forall (fun q => 0 <= Question.points q) (questions_to_grade quiz ids)).
    { specialize (Hpos quiz eq_refl). unfold questions_to_grade.
      destruct ids; [exact Hpos|]. rewrite Forall_forall in *.
      intros x Hx. apply Hpos. now apply list_elem_of_filter in Hx as [_ ?]. }
    destruct (score_loop_bounds _ _ _ _ Hsub Hc) as [Hb1 Hb2]. cbn in Hb1, Hb2.
    split; [lia|]. split; [lia|].
    destruct (percentage_range (c_points_earned c) (c_total_points c)) as [P0 P1]; [lia|].
    split.
    + change 0%Q with (Float64.py_round2 0). now apply Float64Facts.py_round2_mono.
    + change 100%Q with (Float64.py_round2 100). now apply Float64Facts.py_round2_mono.
  - injection H as <-. cbn. repeat split; try lia; discriminate.
Qed.

Lemma score_within_0_100_witness :
  exists s,
    calculate_total_score db_example attempt_example = Ok s /\
    0 <= ScoreData.points_earned s <= ScoreData.total_points s /\
    0 <= ScoreData.questions_correct s <= ScoreData.total_questions s /\
    (0 <= ScoreData.score_percentage s <= 100)%Q.
Proof.
  eexists. split; [vm_compute; reflexivity|].
  apply (score_within_0_100 db_example attempt_example).
  - intros quiz H. vm_compute in H. injection H as <-.
    repeat constructor; discriminate.
  - vm_compute. reflexivity.
Defined.

(** [Quiz.total_points] adds the same points as the loop of the grader. *)
Lemma Quiz_total_points_sum quiz : Quiz_total_points quiz = sum_points (Quiz.questions quiz).
Proof.
  unfold Quiz_total_points, sum_points.
  assert (H : forall l s, fold_left (fun s q => s + Question.points q) l s
                          = s + fold_right Z.add 0 (map Question.points l)).
  { induction l as [|q l IH]; intros s; cbn; [lia|]. rewrite IH. lia. }
  rewrite H. lia.
Qed.

(** X3. totalPoints and totalQuestions do not depend on the answers: they
    are the sum of the points and the number of the catalog questions
    among the stored ids.  For an attempt with no instance block, or with
    an empty id list, they are [Quiz.total_points] and
    [Quiz.total_questions]: every question of the quiz is graded. *)
Theorem totals_of_graded_questions (db : database) (a : QuizAttempt.t)
    (quiz : Quiz.t) (ids : list Z) (s : ScoreData.t) :
  quizzes db !! QuizAttempt.quiz_id a = Some quiz ->
  selected_question_ids (QuizAttempt.answers_given a) = Ok ids ->
  calculate_total_score db a = Ok s ->
  (ids <> [] ->
   ScoreData.total_points s = sum_points (selected_set quiz ids) /\
   ScoreData.total_questions s = Z.of_nat (length (selected_set quiz ids))) /\
  (ids = [] ->
   ScoreData.total_points s = Quiz_total_points quiz /\
   ScoreData.total_questions s = Quiz_total_questions quiz).
Proof.
  intros Hq Hids H. unfold calculate_total_score in H. rewrite Hq, Hids in H.
  cbn [bind] in H.
  destruct (score_loop _ _ _) as [c|e] eqn:Hc; [|discriminate].
  cbn [bind] in H. injection H as <-. cbn.
  apply score_loop_totals in Hc as [H1 H2].
  cbn [c_total_points c_total_questions] in H1, H2.
  split.
  - intros Hne. rewrite (selected_set_questions_to_grade _ _ Hne) in H1, H2. lia.
  - intros ->. cbn [questions_to_grade] in H1, H2. rewrite Quiz_total_points_sum.
    unfold Quiz_total_questions. lia.
Qed.

Lemma totals_of_graded_questions_witness :
  (QuizInstance.question_ids instance_example <> [] ->
   2 = sum_points (selected_set quiz_example (QuizInstance.question_ids instance_example)) /\
   2 = Z.of_nat (length (selected_set quiz_example
                           (QuizInstance.question_ids instance_example)))) /\
  (QuizInstance.question_ids instance_example = [] ->
   2 = Quiz_total_points quiz_example /\ 2 = Quiz_total_questions quiz_example).
Proof.
  apply (totals_of_graded_questions db_example attempt_example quiz_example
           (QuizInstance.question_ids instance_example)
           {| ScoreData.score_percentage := 50; ScoreData.points_earned := 1;
              ScoreData.total_points := 2; ScoreData.questions_correct := 1;
              ScoreData.total_questions := 2 |}).
  - vm_compute. reflexivity.
  - vm_compute. reflexivity.
  - vm_compute. reflexivity.
Defined.

(** ** Answers that the grader ignores *)

Lemma score_loop_insert_other answers_given key answer qs : forall acc,
  (forall q, q ∈ qs -> str (Question.id q) <> key) ->
  score_loop (<[key := answer]> answers_given) qs acc
  = score_loop answers_given qs acc.
Proof.
  induction qs as [|q qs IH]; intros acc Hk; [reflexivity|].
  cbn [score_loop].
  rewrite lookup_insert_ne by (intros E; eapply Hk; [left|now symmetry]).
  assert (Hk' : forall x, x ∈ qs -> str (Question.id x) <> key)
    by (intros x Hx; apply Hk; now right).
  destruct (answers_given !! str (Question.id q)) as [ua|].
  - destruct (grade_question q ua); cbn [bind]; [apply IH, Hk'|reflexivity].
  - apply IH, Hk'.
Qed.

(** X4. [submit_answer] does not check that the question belongs to the
    instance, and the grader never looks at such an answer: an answer
    submitted under a key that is neither '_quiz_instance' nor the key of
    a graded question is stored, and the grading of the attempt stays as
    it was. *)
Theorem unknown_question_ignored (db db' : database) (attempt_id : Z)
    (question_id : json_id) (answer : answer_data) (a a' : QuizAttempt.t)
    (quiz : Quiz.t) (ids : list Z) :
  quiz_attempts db !! attempt_id = Some a ->
  quizzes db !! QuizAttempt.quiz_id a = Some quiz ->
  selected_question_ids (QuizAttempt.answers_given a) = Ok ids ->
  str_id question_id <> instance_key ->
  (forall q, q ∈ questions_to_grade quiz ids ->
             str (Question.id q) <> str_id question_id) ->
  submit_answer db attempt_id question_id answer = (db', (Some a', None)) ->
  QuizAttempt.answers_given a' !! str_id question_id = Some answer /\
  grade_attempt db' a' = grade_attempt db a.
Proof.
  intros Ha Hq Hids Hkey Hno Hsub. unfold submit_answer in Hsub. rewrite Ha in Hsub.
  destruct (QuizAttempt.is_completed a); [discriminate|].
  injection Hsub as <- <-. cbn. split; [apply lookup_insert_eq|].
  unfold grade_attempt, calculate_total_score. cbn. rewrite Hq.
  assert (E : selected_question_ids
                (<[str_id question_id := answer]> (QuizAttempt.answers_given a))
              = Ok ids).
  { rewrite <- Hids. unfold selected_question_ids.
    now rewrite lookup_insert_ne by exact Hkey. }
  rewrite E, Hids. cbn [bind].
  rewrite score_loop_insert_other; [reflexivity|].
  intros q Hin Hs. now apply (Hno q Hin).
Qed.

Lemma unknown_question_ignored_witness :
  exists db' a',
    submit_answer db_example 1 (IdText "remark") (AInt 0) = (db', (Some a', None)) /\
    QuizAttempt.answers_given a' !! "remark" = Some (AInt 0) /\
    grade_attempt db' a' = grade_attempt db_example attempt_example.
Proof.
  assert (H : exists db' a',
            submit_answer db_example 1 (IdText "remark") (AInt 0)
            = (db', (Some a', None))) by (do 2 eexists; reflexivity).
  destruct H as (db' & a' & H). exists db', a'. split; [exact H|].
  apply (unknown_question_ignored db_example db' 1 (IdText "remark") (AInt 0)
           attempt_example a' quiz_example [1; 2]).
  - vm_compute. reflexivity.
  - vm_compute. reflexivity.
  - vm_compute. reflexivity.
  - discriminate.
  - intros q Hq. replace (questions_to_grade quiz_example [1; 2])
      with [q1_example; q_multi] in Hq by (vm_compute; reflexivity).
    apply elem_of_cons in Hq as [->|Hq]; [vm_compute; discriminate|].
    apply elem_of_cons in Hq as [->|Hq]; [vm_compute; discriminate|].
    now apply elem_of_nil in Hq.
  - exact H.
Defined.

(** [submit_answer] with the text '_quiz_instance' as question id puts
    the answer in the place of the instance block: here the selection
    shrinks to the first question and the attempt, graded 50 before, is
    graded 100. *)
Example submit_answer_overwrites_instance :
  bind (grade_attempt db_example attempt_example)
       (fun g => Ok (Grading.score_percentage g, Grading.total_questions g))
    = Ok (50%Q, 2) /\
  match submit_answer db_example 1 (IdText "_quiz_instance")
          (ADict {| QuizInstance.quiz_id := 1; QuizInstance.questions := None;
                    QuizInstance.question_ids := [1];
                    QuizInstance.quiz_hash := Some "h" |}) with
  | (db', (Some a', None)) =>
      bind (grade_attempt db' a')
           (fun g => Ok (Grading.score_percentage g, Grading.total_questions g))
  | _ => Raise (KeyError "no attempt")
  end = Ok (100%Q, 1).
Proof. split; vm_compute; reflexivity. Qed.

(** * Further properties of the attempt service *)

(** ** When completion succeeds *)

(** Grading reads the quiz id and the answers of the attempt only. *)
Lemma grade_attempt_ext db a1 a2 :
  QuizAttempt.quiz_id a1 = QuizAttempt.quiz_id a2 ->
  QuizAttempt.answers_given a1 = QuizAttempt.answers_given a2 ->
  grade_attempt db a1 = grade_attempt db a2.
Proof.
  intros Hq Ha. unfold grade_attempt, calculate_total_score. now rewrite Hq, Ha.
Qed.

(** X5. an attempt in progress whose quiz exists is completed when every
    answered question among the graded ones is of type single_choice or
    multiple_choice and is answered by an index or a list of indices.
    When an answered question among the graded ones has another type,
    [complete_attempt] returns an error message and the database as it
    was: the attempt stays in progress. *)
Theorem completion_outcome (now : Z) (db : database) (attempt_id : Z)
    (a : QuizAttempt.t) (quiz : Quiz.t) (ids : list Z) :
  quiz_attempts db !! attempt_id = Some a ->
  QuizAttempt.is_in_progress a = true ->
  quizzes db !! QuizAttempt.quiz_id a = Some quiz ->
  selected_question_ids (QuizAttempt.answers_given a) = Ok ids ->
  ((forall q ua,
      q ∈ questions_to_grade quiz ids ->
      QuizAttempt.answers_given a !! str (Question.id q) = Some ua ->
      (Question.question_type q = "single_choice" \/
       Question.question_type q = "multiple_choice") /\
      submitted_indices ua <> None) ->
   exists db' a', complete_attempt now db attempt_id = (db', (Some a', None))) /\
  ((exists q ua,
      q ∈ questions_to_grade quiz ids /\
      QuizAttempt.answers_given a !! str (Question.id q) = Some ua /\
      Question.question_type q <> "single_choice" /\
      Question.question_type q <> "multiple_choice") ->
   exists msg, complete_attempt now db attempt_id = (db, (None, Some msg))).
Proof.
  intros Ha Hip Hq Hids. unfold complete_attempt. rewrite Ha.
  assert (Hc : QuizAttempt.is_completed a = false).
  { unfold QuizAttempt.is_in_progress, QuizAttempt.is_completed in *.
    destruct (QuizAttempt.completed_at a); [discriminate|reflexivity]. }
  rewrite Hc.
  set (a1 := {| QuizAttempt.id := QuizAttempt.id a |}).
  rewrite (grade_attempt_ext db a1 a eq_refl eq_refl).
  unfold grade_attempt, calculate_total_score. rewrite Hq, Hids. cbn [bind].
  split.
  - intros Hall.
    assert (Hwf : answers_gradable (QuizAttempt.answers_given a)
                    (questions_to_grade quiz ids)).
    { apply Forall_forall. intros q Hin ua Hua.
      destruct (Hall q ua Hin Hua) as [[Ht|Ht] Hs]; [now left|now right]. }
    rewrite (score_loop_spec _ _ _ Hwf). cbn [bind]. eauto.
  - intros (q & ua & Hin & Hua & Hs & Hm).
    destruct (score_loop (QuizAttempt.answers_given a) (questions_to_grade quiz ids) _)
      as [c|e] eqn:Hl; cbn [bind]; [|eauto].
    exfalso. apply score_loop_gradable in Hl.
    unfold answers_gradable in Hl. rewrite Forall_forall in Hl.
    destruct (Hl q Hin ua Hua) as [Ht|[Ht _]]; contradiction.
Qed.

(** An answered question of type free_text: the attempt cannot be
    completed. *)
Example complete_attempt_unknown_type :
  complete_attempt 7000000 db_free_text 1
  = (db_free_text,
     (None, Some "Erreur lors de la finalisation de la tentative: Question type must be 'multiple_choice'")).
Proof. vm_compute. reflexivity. Qed.

Lemma completion_outcome_witness :
  (exists db' a', complete_attempt 5000000 db_example 1 = (db', (Some a', None))) /\
  (exists msg, complete_attempt 7000000 db_free_text 1 = (db_free_text, (None, Some msg))).
Proof.
  split.
  - refine (proj1 (completion_outcome 5000000 db_example 1 attempt_example
                     quiz_example [1; 2] _ _ _ _) _);
      try (vm_compute; reflexivity).
    intros q ua Hin Hua.
    replace (questions_to_grade quiz_example [1; 2])
      with [q1_example; q_multi] in Hin by (vm_compute; reflexivity).
    apply elem_of_cons in Hin as [->|Hin].
    { vm_compute in Hua. injection Hua as <-. split; [now left|discriminate]. }
    apply elem_of_cons in Hin as [->|Hin]; [|now apply elem_of_nil in Hin].
    vm_compute in Hua. injection Hua as <-. split; [now right|discriminate].
  - refine (proj2 (completion_outcome 7000000 db_free_text 1 attempt_free_text
                     quiz_free_text [1; 5] _ _ _ _) _);
      try (vm_compute; reflexivity).
    exists q_free_text, (AInt 0).
    split; [|split; [vm_compute; reflexivity|split; discriminate]].
    replace (questions_to_grade quiz_free_text [1; 5])
      with [q1_example; q_free_text] by (vm_compute; reflexivity).
    apply list_elem_of_further, list_elem_of_here.
Defined.

(** ** What completion writes *)

(** The row and the database that a successful completion leaves. *)
Lemma complete_attempt_inv now db db' attempt_id a a' :
  quiz_attempts db !! attempt_id = Some a ->
  complete_attempt now db attempt_id = (db', (Some a', None)) ->
  exists g,
    grade_attempt db a = Ok g /\
    a' = {| QuizAttempt.id := QuizAttempt.id a;
            QuizAttempt.user_id := QuizAttempt.user_id a;
            QuizAttempt.quiz_id := QuizAttempt.quiz_id a;
            QuizAttempt.answers_given := QuizAttempt.answers_given a;
            QuizAttempt.score := Grading.score_percentage g;
            QuizAttempt.passed := Grading.passed g;
            QuizAttempt.started_at := QuizAttempt.started_at a;
            QuizAttempt.completed_at := Some now;
            QuizAttempt.time_taken :=
              Some (elapsed_seconds (QuizAttempt.started_at a) now) |} /\
    db' = commit_attempt db attempt_id a'.
Proof.
  intros Ha H. unfold complete_attempt in H. rewrite Ha in H.
  destruct (QuizAttempt.is_completed a); [discriminate|].
  set (a1 := {| QuizAttempt.id := QuizAttempt.id a |}) in H.
  rewrite (grade_attempt_ext db a1 a eq_refl eq_refl) in H.
  destruct (grade_attempt db a) as [g|e]; [|discriminate].
  injection H as <- <-. exists g. repeat split.
Qed.

(** X6. a successful [complete_attempt] stores the result of grading the
    answers as they were, the completion time and the whole seconds
    elapsed since the start; it changes no answer, no other field of the
    attempt, no other attempt and nothing of the catalog. *)
Theorem completion_freezes_grading (now : Z) (db db' : database) (attempt_id : Z)
    (a a' : QuizAttempt.t) :
  quiz_attempts db !! attempt_id = Some a ->
  complete_attempt now db attempt_id = (db', (Some a', None)) ->
  (exists g, grade_attempt db a = Ok g /\
             QuizAttempt.score a' = Grading.score_percentage g /\
             QuizAttempt.passed a' = Grading.passed g) /\
  QuizAttempt.completed_at a' = Some now /\
  QuizAttempt.time_taken a'
    = Some (Z.quot (now - QuizAttempt.started_at a) 1000000) /\
  QuizAttempt.answers_given a' = QuizAttempt.answers_given a /\
  QuizAttempt.id a' = QuizAttempt.id a /\
  QuizAttempt.user_id a' = QuizAttempt.user_id a /\
  QuizAttempt.quiz_id a' = QuizAttempt.quiz_id a /\
  QuizAttempt.started_at a' = QuizAttempt.started_at a /\
  quiz_attempts db' = <[attempt_id := a']> (quiz_attempts db) /\
  quizzes db' = quizzes db /\
  next_attempt_id db' = next_attempt_id db.
Proof.
  intros Ha H.
  destruct (complete_attempt_inv now db db' attempt_id a a' Ha H) as (g & Hg & -> & ->).
  cbn. split; [eauto|]. repeat split.
Qed.

Lemma completion_freezes_grading_witness :
  (exists g, grade_attempt db_example attempt_example = Ok g /\
             QuizAttempt.score attempt_completed = Grading.score_percentage g /\
             QuizAttempt.passed attempt_completed = Grading.passed g) /\
  QuizAttempt.completed_at attempt_completed = Some 5000000 /\
  QuizAttempt.time_taken attempt_completed
    = Some (Z.quot (5000000 - QuizAttempt.started_at attempt_example) 1000000) /\
  QuizAttempt.answers_given attempt_completed = QuizAttempt.answers_given attempt_example /\
  QuizAttempt.id attempt_completed = QuizAttempt.id attempt_example /\
  QuizAttempt.user_id attempt_completed = QuizAttempt.user_id attempt_example /\
  QuizAttempt.quiz_id attempt_completed = QuizAttempt.quiz_id attempt_example /\
  QuizAttempt.started_at attempt_completed = QuizAttempt.started_at attempt_example /\
  quiz_attempts db_completed = <[1 := attempt_completed]> (quiz_attempts db_example) /\
  quizzes db_completed = quizzes db_example /\
  next_attempt_id db_completed = next_attempt_id db_example.
Proof.
  apply (completion_freezes_grading 5000000 db_example db_completed 1
           attempt_example attempt_completed).
  - vm_compute. reflexivity.
  - exact complete_attempt_example.
Defined.

(** ** Starting an attempt *)

(** Rows are inserted under an id not in use, and no service moves a row. *)
Lemma start_attempt_wf now db user_id quiz_id quiz_instance :
  database_wf db ->
  database_wf (fst (start_attempt now db user_id quiz_id quiz_instance)).
Proof.
  intros Hwf. unfold start_attempt.
  destruct (quizzes db !! quiz_id); [|exact Hwf].
  destruct (QuizInstance.quiz_hash quiz_instance); [|exact Hwf].
  cbn [fst]. intros k b Hk. cbn in Hk.
  apply lookup_insert_Some in Hk as [[<- <-]|[Hne Hk]]; cbn.
  - split; [reflexivity|lia].
  - destruct (Hwf k b Hk). split; [assumption|lia].
Qed.


(** X7. [start_attempt] fails, without writing, when the quiz does not
    exist or the instance has no quiz_hash.  Otherwise it inserts an
    attempt in progress with score 0, not passed, started now, whose
    answer map holds the instance block only (quiz id, ids and hash of
    the instance, not its 'questions'); the catalog is as before.  The
    attempt receives the next id; on a table whose ids are in order
    ([database_wf]) this id was not in use, every attempt stored before
    is still there, unchanged, and the ids are in order afterwards. *)
Theorem start_attempt_spec (now : Z) (db : database) (user_id quiz_id : Z)
    (quiz_instance : QuizInstance.t) :
  (quizzes db !! quiz_id = None ->
   start_attempt now db user_id quiz_id quiz_instance
     = (db, (None, Some quiz_not_found_message))) /\
  (is_Some (quizzes db !! quiz_id) ->
   QuizInstance.quiz_hash quiz_instance = None ->
   exists msg,
     start_attempt now db user_id quiz_id quiz_instance = (db, (None, Some msg))) /\
  (forall h,
     is_Some (quizzes db !! quiz_id) ->
     QuizInstance.quiz_hash quiz_instance = Some h ->
     exists db' a,
       start_attempt now db user_id quiz_id quiz_instance = (db', (Some a, None)) /\
       QuizAttempt.id a = next_attempt_id db /\
       QuizAttempt.user_id a = user_id /\
       QuizAttempt.quiz_id a = quiz_id /\
       QuizAttempt.is_in_progress a = true /\
       QuizAttempt.score a = 0%Q /\
       QuizAttempt.passed a = false /\
       QuizAttempt.started_at a = now /\
       dom (QuizAttempt.answers_given a) = {[ instance_key ]} /\
       selected_question_ids (QuizAttempt.answers_given a)
         = Ok (QuizInstance.question_ids quiz_instance) /\
       quiz_attempts db' = <[next_attempt_id db := a]> (quiz_attempts db) /\
       quizzes db' = quizzes db /\
       next_attempt_id db' = next_attempt_id db + 1 /\
       (database_wf db ->
        quiz_attempts db !! QuizAttempt.id a = None /\
        (forall k b, quiz_attempts db !! k = Some b ->
                     quiz_attempts db' !! k = Some b) /\
        database_wf db')).
Proof.
  split; [|split].
  - unfold start_attempt. intros ->. reflexivity.
  - unfold start_attempt. intros [quiz ->] ->. eauto.
  - intros h [quiz Hq] Hh.
    pose proof (start_attempt_wf now db user_id quiz_id quiz_instance) as Hpres.
    unfold start_attempt in *. rewrite Hq, Hh in *.
    do 2 eexists. split; [reflexivity|]. cbn [fst] in Hpres. cbn.
    do 12 (split; [reflexivity|]).
    intros Hwf.
    assert (Hfresh : quiz_attempts db !! next_attempt_id db = None).
    { destruct (quiz_attempts db !! next_attempt_id db) as [b|] eqn:E; [|reflexivity].
      destruct (Hwf _ _ E). lia. }
    split; [exact Hfresh|]. split; [|exact (Hpres Hwf)].
    intros k b Hk. rewrite lookup_insert_ne; [exact Hk|].
    intros <-. rewrite Hfresh in Hk. discriminate.
Qed.

Lemma db_example_wf : database_wf db_example.
Proof.
  intros k a H.
  replace (quiz_attempts db_example) with ({[ 1 := attempt_example ]} : gmap Z _)
    in H by reflexivity.
  apply lookup_singleton_Some in H as [<- <-]. split; [reflexivity|cbn; lia].
Qed.

Lemma start_attempt_spec_witness :
  exists db' a,
    start_attempt 0 db_example 11 1 instance_example = (db', (Some a, None)) /\
    QuizAttempt.id a = 2 /\
    QuizAttempt.user_id a = 11 /\
    dom (QuizAttempt.answers_given a) = {[ instance_key ]} /\
    quiz_attempts db_example !! QuizAttempt.id a = None /\
    (forall k b, quiz_attempts db_example !! k = Some b ->
                 quiz_attempts db' !! k = Some b) /\
    database_wf db'.
Proof.
  destruct (proj2 (proj2 (start_attempt_spec 0 db_example 11 1 instance_example))
              "h") as (db' & a & H & Hid & Hu & _ & _ & _ & _ & _ & Hdom & _ & _ & _ & _ & Hwf).
  - vm_compute. eauto.
  - reflexivity.
  - destruct (Hwf db_example_wf) as (Hf & Ho & Hw).
    exists db', a. exact (conj H (conj Hid (conj Hu (conj Hdom (conj Hf (conj Ho Hw)))))).
Defined.



(** ** Submitting answers *)

(** The database after a successful [submit_answer]. *)
Lemma submit_answer_in_progress db attempt_id question_id answer a :
  quiz_attempts db !! attempt_id = Some a ->
  QuizAttempt.is_completed a = false ->
  exists a',
    submit_answer db attempt_id question_id answer
      = (commit_attempt db attempt_id a', (Some a', None)) /\
    a' = {| QuizAttempt.id := QuizAttempt.id a;
            QuizAttempt.user_id := QuizAttempt.user_id a;
            QuizAttempt.quiz_id := QuizAttempt.quiz_id a;
            QuizAttempt.answers_given :=
              <[str_id question_id := answer]> (QuizAttempt.answers_given a);
            QuizAttempt.score := QuizAttempt.score a;
            QuizAttempt.passed := QuizAttempt.passed a;
            QuizAttempt.started_at := QuizAttempt.started_at a;
            QuizAttempt.completed_at := QuizAttempt.completed_at a;
            QuizAttempt.time_taken := QuizAttempt.time_taken a |}.
Proof.
  intros Ha Hc. unfold submit_answer. rewrite Ha, Hc. eauto.
Qed.

(** X8. a successful [submit_answer] stores the answer under the key
    [str(question_id)] and changes nothing else: the other answers, the
    score, the passed flag and the timestamps of the attempt, the other
    attempts and the catalog are as before.  The instance block is as
    before unless the key is '_quiz_instance', which no integer id gives;
    a question id with that text puts the answer in the place of the
    block. *)
Theorem submit_answer_frame (db db' : database) (attempt_id : Z)
    (question_id : json_id) (answer : answer_data) (a a' : QuizAttempt.t) :
  quiz_attempts db !! attempt_id = Some a ->
  submit_answer db attempt_id question_id answer = (db', (Some a', None)) ->
  QuizAttempt.answers_given a' !! str_id question_id = Some answer /\
  (forall key, key <> str_id question_id ->
     QuizAttempt.answers_given a' !! key = QuizAttempt.answers_given a !! key) /\
  (str_id question_id <> instance_key ->
   QuizAttempt.answers_given a' !! instance_key
     = QuizAttempt.answers_given a !! instance_key) /\
  (forall i : Z, question_id = IdInt i ->
   QuizAttempt.answers_given a' !! instance_key
     = QuizAttempt.answers_given a !! instance_key) /\
  (str_id question_id = instance_key ->
   QuizAttempt.answers_given a' !! instance_key = Some answer) /\
  (QuizAttempt.score a', QuizAttempt.passed a', QuizAttempt.started_at a',
   QuizAttempt.completed_at a', QuizAttempt.time_taken a')
  = (QuizAttempt.score a, QuizAttempt.passed a, QuizAttempt.started_at a,
     None, QuizAttempt.time_taken a) /\
  quiz_attempts db' !! attempt_id = Some a' /\
  (forall k, k <> attempt_id -> quiz_attempts db' !! k = quiz_attempts db !! k) /\
  quizzes db' = quizzes db.
Proof.
  intros Ha H. unfold submit_answer in H. rewrite Ha in H.
  unfold QuizAttempt.is_completed in H.
  destruct (QuizAttempt.completed_at a) eqn:Hc; [discriminate|].
  injection H as <- <-. cbn.
  split; [apply lookup_insert_eq|].
  split; [intros key Hk; now apply lookup_insert_ne|].
  split; [intros Hk; now apply lookup_insert_ne|].
  split; [intros i ->; apply lookup_insert_ne, str_ne_instance_key|].
  split; [intros <-; apply lookup_insert_eq|].
  split; [reflexivity|].
  split; [apply lookup_insert_eq|].
  split; [intros k Hk; now apply lookup_insert_ne|reflexivity].
Qed.

Lemma submit_answer_frame_witness :
  exists db' a',
    submit_answer db_example 1 (IdText "remark") (AList [0; 1])
      = (db', (Some a', None)) /\
    QuizAttempt.answers_given a' !! "remark" = Some (AList [0; 1]) /\
    QuizAttempt.answers_given a' !! instance_key
      = QuizAttempt.answers_given attempt_example !! instance_key.
Proof.
  destruct (submit_answer_in_progress db_example 1 (IdText "remark") (AList [0; 1])
              attempt_example)
    as (a' & H & _); [vm_compute; reflexivity|reflexivity|].
  destruct (submit_answer_frame db_example (commit_attempt db_example 1 a') 1
              (IdText "remark") (AList [0; 1]) attempt_example a')
    as (H1 & _ & H3 & _); [vm_compute; reflexivity|exact H|].
  exists (commit_attempt db_example 1 a'), a'.
  refine (conj H (conj H1 (H3 _))). discriminate.
Defined.

(** X9. the last write wins and answers to different questions do not
    interfere: on an attempt in progress, submitting twice for the same
    question leaves the database that the second submission alone would
    leave, and submissions under two different keys, as those of two
    different integer ids always are, commute. *)
Theorem submit_answer_last_write_wins (db : database) (attempt_id : Z)
    (q1 q2 : json_id) (x y : answer_data) (a : QuizAttempt.t) :
  quiz_attempts db !! attempt_id = Some a ->
  QuizAttempt.is_in_progress a = true ->
  fst (submit_answer (fst (submit_answer db attempt_id q1 x)) attempt_id q1 y)
    = fst (submit_answer db attempt_id q1 y) /\
  (str_id q1 <> str_id q2 ->
   fst (submit_answer (fst (submit_answer db attempt_id q1 x)) attempt_id q2 y)
     = fst (submit_answer (fst (submit_answer db attempt_id q2 y)) attempt_id q1 x)) /\
  (forall i j : Z, q1 = IdInt i -> q2 = IdInt j -> i <> j ->
   fst (submit_answer (fst (submit_answer db attempt_id q1 x)) attempt_id q2 y)
     = fst (submit_answer (fst (submit_answer db attempt_id q2 y)) attempt_id q1 x)).
Proof.
  intros Ha Hip.
  assert (Hc : QuizAttempt.is_completed a = false).
  { unfold QuizAttempt.is_in_progress, QuizAttempt.is_completed in *.
    destruct (QuizAttempt.completed_at a); [discriminate|reflexivity]. }
  assert (Hstep : forall q v,
            exists a', submit_answer db attempt_id q v
                       = (commit_attempt db attempt_id a', (Some a', None)) /\
                       QuizAttempt.is_completed a' = false /\
                       a' = {| QuizAttempt.id := QuizAttempt.id a;
                               QuizAttempt.user_id := QuizAttempt.user_id a;
                               QuizAttempt.quiz_id := QuizAttempt.quiz_id a;
                               QuizAttempt.answers_given :=
                                 <[str_id q := v]> (QuizAttempt.answers_given a);
                               QuizAttempt.score := QuizAttempt.score a;
                               QuizAttempt.passed := QuizAttempt.passed a;
                               QuizAttempt.started_at := QuizAttempt.started_at a;
                               QuizAttempt.completed_at := QuizAttempt.completed_at a;
                               QuizAttempt.time_taken := QuizAttempt.time_taken a |}).
  { intros q v. destruct (submit_answer_in_progress db attempt_id q v a Ha Hc)
      as (a' & H1 & H2). exists a'. split; [exact H1|]. split; [|exact H2].
    subst a'. exact Hc. }
  assert (Htwice : forall qa va qb vb,
            fst (submit_answer (fst (submit_answer db attempt_id qa va)) attempt_id qb vb)
            = {| quizzes := quizzes db;
                 quiz_attempts :=
                   <[attempt_id :=
                       {| QuizAttempt.id := QuizAttempt.id a;
                          QuizAttempt.user_id := QuizAttempt.user_id a;
                          QuizAttempt.quiz_id := QuizAttempt.quiz_id a;
                          QuizAttempt.answers_given :=
                            <[str_id qb := vb]>
                              (<[str_id qa := va]> (QuizAttempt.answers_given a));
                          QuizAttempt.score := QuizAttempt.score a;
                          QuizAttempt.passed := QuizAttempt.passed a;
                          QuizAttempt.started_at := QuizAttempt.started_at a;
                          QuizAttempt.completed_at := QuizAttempt.completed_at a;
                          QuizAttempt.time_taken := QuizAttempt.time_taken a |}]>
                     (quiz_attempts db);
                 next_attempt_id := next_attempt_id db |}).
  { intros qa va qb vb. destruct (Hstep qa va) as (a1 & H1 & Hc1 & E1).
    rewrite H1. cbn [fst].
    destruct (submit_answer_in_progress (commit_attempt db attempt_id a1) attempt_id
                qb vb a1) as (a2 & H2 & E2);
      [apply lookup_insert_eq|exact Hc1|].
    rewrite H2. cbn [fst]. subst a2 a1. unfold commit_attempt. cbn.
    now rewrite insert_insert_eq. }
  assert (Hcomm : str_id q1 <> str_id q2 ->
            fst (submit_answer (fst (submit_answer db attempt_id q1 x)) attempt_id q2 y)
            = fst (submit_answer (fst (submit_answer db attempt_id q2 y)) attempt_id q1 x)).
  { intros Hne. rewrite !Htwice. do 3 f_equal.
    apply insert_insert_ne. intros E. now apply Hne. }
  split; [|split].
  - rewrite Htwice. destruct (Hstep q1 y) as (a1 & H1 & _ & E1). rewrite H1.
    subst a1. unfold commit_attempt. cbn. now rewrite insert_insert_eq.
  - exact Hcomm.
  - intros i j -> -> Hne. apply Hcomm. cbn [str_id]. intros E.
    now apply str_inj in E.
Qed.

Lemma submit_answer_last_write_wins_witness :
  fst (submit_answer (fst (submit_answer db_example 1 2 (AList [0]))) 1 2 (AList [0; 1]))
    = fst (submit_answer db_example 1 2 (AList [0; 1])) /\
  fst (submit_answer (fst (submit_answer db_example 1 2 (AList [0]))) 1 1 (AList [0; 1]))
    = fst (submit_answer (fst (submit_answer db_example 1 1 (AList [0; 1]))) 1 2
             (AList [0])).
Proof.
  destruct (submit_answer_last_write_wins db_example 1 (IdInt 2) (IdInt 1)
              (AList [0]) (AList [0; 1]) attempt_example)
    as (H1 & H2 & _); [vm_compute; reflexivity|reflexivity|].
  split; [exact H1|]. apply H2. vm_compute. discriminate.
Defined.

(** ** Feedback *)

Lemma feedback_result_matches answers_given q :
  (forall ua, answers_given !! str (Question.id q) = Some ua -> gradable q ua) ->
  exists r,
    feedback_result q (answers_given !! str (Question.id q)) = Ok r /\
    GradeResult.correct r = answered_correctly answers_given q /\
    GradeResult.points_earned r
      = (if answered_correctly answers_given q then Question.points q else 0) /\
    (forall i, i ∈ GradeResult.correct_answers r <-> i ∈ Question.correct_answers q) /\
    (answers_given !! str (Question.id q) = None ->
     GradeResult.user_answers r = AList []).
Proof.
  intros Hg. unfold answered_correctly.
  destruct (answers_given !! str (Question.id q)) as [ua|] eqn:E; cbn.
  - destruct (grade_question_ok q ua (Hg ua eq_refl)) as (r & Hr & Hc & Hp).
    exists r. repeat split; try assumption; try discriminate.
    + revert Hr. unfold grade_question.
      destruct (String.eqb (Question.question_type q) "single_choice") eqn:Es.
      * apply String.eqb_eq in Es. rewrite (grade_single_choice_ok q ua Es).
        intros [= <-]. exact (fun H => H).
      * unfold grade_multiple_choice. destruct (negb _); [discriminate|].
        destruct ua; cbn; intros [= <-]; cbn;
          rewrite elem_of_elements, elem_of_list_to_set; exact (fun H => H).
    + revert Hr. unfold grade_question.
      destruct (String.eqb (Question.question_type q) "single_choice") eqn:Es.
      * apply String.eqb_eq in Es. rewrite (grade_single_choice_ok q ua Es).
        intros [= <-]. exact (fun H => H).
      * unfold grade_multiple_choice. destruct (negb _); [discriminate|].
        destruct ua; cbn; intros [= <-]; cbn;
          rewrite elem_of_elements, elem_of_list_to_set; exact (fun H => H).
  - eexists. split; [reflexivity|]. cbn. repeat split; auto.
Qed.

Lemma feedback_loop_spec answers_given qs : forall acc c,
  score_loop answers_given qs acc = Ok c ->
  exists fs,
    feedback_loop answers_given qs = Ok fs /\
    Forall2 (entry_matches answers_given) qs fs /\
    c_points_earned c = c_points_earned acc + feedback_points fs /\
    c_questions_correct c = c_questions_correct acc + feedback_correct_count fs.
Proof.
  induction qs as [|q qs IH]; intros acc c H.
  - cbn in H. injection H as <-. exists []. cbn.
    repeat split; [constructor|unfold feedback_points; cbn; lia|
                   unfold feedback_correct_count; cbn; lia].
  - pose proof (score_loop_gradable _ _ _ _ H) as Hwf.
    apply Forall_cons in Hwf as [Hq _].
    destruct (feedback_result_matches answers_given q Hq)
      as (r & Hr & Hc & Hp & Hca & Hua).
    cbn [score_loop feedback_loop] in *. rewrite Hr. cbn [bind].
    assert (Hsame : forall ua, answers_given !! str (Question.id q) = Some ua ->
                      grade_question q ua = Ok r).
    { intros ua E. rewrite E in Hr. exact Hr. }
    destruct (answers_given !! str (Question.id q)) as [ua|] eqn:E.
    + rewrite (Hsame ua eq_refl) in H. cbn [bind] in H.
      apply IH in H as (fs & Hfs & Hall & Hpe & Hqc). rewrite Hfs. cbn [bind].
      eexists. split; [reflexivity|]. split; [|split].
      * constructor; [|exact Hall]. unfold entry_matches. cbn. rewrite E.
        repeat split; try assumption; try apply Hca; try discriminate.
      * cbn in Hpe. unfold feedback_points in *. cbn. lia.
      * cbn in Hqc. unfold feedback_correct_count in *. cbn.
        destruct (GradeResult.correct r); cbn [length]; lia.
    + cbn in Hr. injection Hr as <-.
      apply IH in H as (fs & Hfs & Hall & Hpe & Hqc). rewrite Hfs. cbn [bind].
      eexists. split; [reflexivity|]. split; [|split].
      * constructor; [|exact Hall]. unfold entry_matches, answered_correctly. cbn.
        rewrite E. repeat split; auto.
      * cbn in Hpe. unfold feedback_points in *. cbn. lia.
      * cbn in Hqc. unfold feedback_correct_count in *. cbn. lia.
Qed.

(** Feedback exists whenever grading returns, with the grading as its
    overall block. *)
Lemma generate_feedback_overall db a g :
  grade_attempt db a = Ok g ->
  exists f, generate_feedback db a = Ok f /\ Feedback.overall f = g.
Proof.
  unfold grade_attempt, generate_feedback, calculate_total_score. intros H.
  destruct (quizzes db !! QuizAttempt.quiz_id a) as [quiz|] eqn:Hq;
    [|cbn in H; discriminate].
  destruct (selected_question_ids _) as [ids|e]; [|discriminate]. cbn [bind] in *.
  destruct (score_loop _ _ _) as [c|e] eqn:Hc; [|discriminate]. cbn [bind] in *.
  injection H as <-.
  destruct (feedback_loop_spec _ _ _ _ Hc) as (fs & Hfs & _).
  rewrite Hfs. cbn [bind]. eauto.
Qed.

(** X10. whenever grading an attempt returns, [generate_feedback] returns
    too; its overall block is the grading; it has one entry per graded
    question, in the order of grading, carrying the id, text, type and
    points of the question and whether it was answered correctly (an
    unanswered question is incorrect, with no user answer); and the
    points and the correct entries add up to the overall pointsEarned
    and questionsCorrect. *)
Theorem feedback_agrees_with_grading (db : database) (a : QuizAttempt.t)
    (g : Grading.t) :
  grade_attempt db a = Ok g ->
  exists f quiz ids,
    quizzes db !! QuizAttempt.quiz_id a = Some quiz /\
    selected_question_ids (QuizAttempt.answers_given a) = Ok ids /\
    generate_feedback db a = Ok f /\
    Feedback.overall f = g /\
    Forall2 (entry_matches (QuizAttempt.answers_given a))
            (questions_to_grade quiz ids) (Feedback.questions f) /\
    feedback_points (Feedback.questions f) = Grading.points_earned g /\
    feedback_correct_count (Feedback.questions f) = Grading.questions_correct g.
Proof.
  unfold grade_attempt, generate_feedback, calculate_total_score. intros H.
  destruct (quizzes db !! QuizAttempt.quiz_id a) as [quiz|] eqn:Hq;
    [|cbn in H; discriminate].
  destruct (selected_question_ids _) as [ids|e]; [|discriminate]. cbn [bind] in *.
  destruct (score_loop _ _ _) as [c|e] eqn:Hc; [|discriminate]. cbn [bind] in *.
  injection H as <-.
  destruct (feedback_loop_spec _ _ _ _ Hc) as (fs & Hfs & Hall & Hpe & Hqc).
  rewrite Hfs. cbn [bind]. eexists. exists quiz, ids.
  split; [reflexivity|]. split; [reflexivity|]. split; [reflexivity|].
  cbn [Feedback.overall Feedback.questions Grading.points_earned
       Grading.questions_correct ScoreData.points_earned ScoreData.questions_correct].
  cbn [c_points_earned c_questions_correct] in Hpe, Hqc.
  repeat split; try assumption; lia.
Qed.

Lemma feedback_agrees_with_grading_witness :
  exists f quiz ids,
    quizzes db_example !! QuizAttempt.quiz_id attempt_example = Some quiz /\
    selected_question_ids (QuizAttempt.answers_given attempt_example) = Ok ids /\
    generate_feedback db_example attempt_example = Ok f /\
    Feedback.overall f
      = {| Grading.score_percentage := 50; Grading.points_earned := 1;
           Grading.total_points := 2; Grading.questions_correct := 1;
           Grading.total_questions := 2; Grading.passed := false |} /\
    Forall2 (entry_matches (QuizAttempt.answers_given attempt_example))
            (questions_to_grade quiz ids) (Feedback.questions f) /\
    feedback_points (Feedback.questions f) = 1 /\
    feedback_correct_count (Feedback.questions f) = 1.
Proof.
  apply (feedback_agrees_with_grading db_example attempt_example). exact grade_attempt_example.
Defined.

(** X11. the explanations of an entry are those of the options that have a
    non-empty explanation, each with the index and the text of its option
    and flagged correct exactly when the option is. *)
Theorem explanations_spec (q : Question.t) (correct_answers : list Z)
    (e : Explanation.t) :
  (forall i, i ∈ correct_answers <-> i ∈ Question.correct_answers q) ->
  (e ∈ build_explanations q correct_answers <->
   exists (k : nat) (o : answer_option) (s : string),
     Question.answers q !! k = Some o /\
     explanation o = Some s /\ s <> EmptyString /\
     e = {| Explanation.answer_index := Z.of_nat k;
            Explanation.answer_text := text o;
            Explanation.explanation := s;
            Explanation.is_correct := is_correct o |}).
Proof.
  intros Hca. unfold build_explanations, Question.enumerate.
  rewrite list_elem_of_omap. split.
    + intros ([i o] & Hin & He). cbn in He.
      apply list_elem_of_lookup in Hin as [k Hk].
      rewrite enumerate_from_lookup in Hk.
      destruct (Question.answers q !! k) as [o'|] eqn:E; [|discriminate].
      injection Hk as <- <-. rewrite Z.add_0_l in He.
      destruct (explanation o') as [s|] eqn:Es; [|discriminate].
      destruct (String.eqb s EmptyString) eqn:Ee; [discriminate|].
      injection He as <-. exists k, o', s. repeat split; try assumption.
      * intros ->. discriminate.
      * f_equal. pose proof (elem_of_correct_answers q (Z.of_nat k)) as Hspec.
        destruct (is_correct o') eqn:Hc.
        -- apply bool_decide_eq_true, Hca, Hspec. split; [lia|].
           exists o'. now rewrite Nat2Z.id.
        -- apply bool_decide_eq_false. intros Hin. apply Hca, Hspec in Hin.
           destruct Hin as (_ & o2 & Ho2 & Hc2). rewrite Nat2Z.id, E in Ho2.
           injection Ho2 as <-. congruence.
    + intros (k & o & s & Ho & Hs & Hne & ->). exists (Z.of_nat k, o). split.
      * apply list_elem_of_lookup. exists k. rewrite enumerate_from_lookup, Ho.
        cbn. now rewrite Z.add_0_l.
      * cbn. rewrite Hs.
        destruct (String.eqb s EmptyString) eqn:Ee;
          [apply String.eqb_eq in Ee; contradiction|].
        do 2 f_equal. pose proof (elem_of_correct_answers q (Z.of_nat k)) as Hspec.
        destruct (is_correct o) eqn:Hc.
        -- apply bool_decide_eq_true, Hca, Hspec. split; [lia|].
           exists o. now rewrite Nat2Z.id.
        -- apply bool_decide_eq_false. intros Hin. apply Hca, Hspec in Hin.
           destruct Hin as (_ & o2 & Ho2 & Hc2). rewrite Nat2Z.id, Ho in Ho2.
           injection Ho2 as <-. congruence.
Qed.

Lemma explanations_spec_witness :
  {| Explanation.answer_index := 1; Explanation.answer_text := "b";
     Explanation.explanation := "b is right"; Explanation.is_correct := true |}
    ∈ build_explanations q_explained (Question.correct_answers q_explained) <->
  exists (k : nat) (o : answer_option) (s : string),
    Question.answers q_explained !! k = Some o /\
    explanation o = Some s /\ s <> EmptyString /\
    {| Explanation.answer_index := 1; Explanation.answer_text := "b";
       Explanation.explanation := "b is right"; Explanation.is_correct := true |}
    = {| Explanation.answer_index := Z.of_nat k;
         Explanation.answer_text := text o;
         Explanation.explanation := s;
         Explanation.is_correct := is_correct o |}.
Proof.
  apply (explanations_spec q_explained (Question.correct_answers q_explained)).
  intros i. reflexivity.
Defined.

Example build_explanations_example :
  build_explanations q_explained (Question.correct_answers q_explained)
  = [ {| Explanation.answer_index := 1; Explanation.answer_text := "b";
         Explanation.explanation := "b is right"; Explanation.is_correct := true |} ].
Proof. vm_compute. reflexivity. Qed.

(** ** Results *)

(** X12. [get_attempt_results] gives feedback for completed attempts only:
    no result for an unknown id; for an attempt in progress the attempt
    with no feedback and the error 'Tentative non terminée'.  Right
    after a successful [complete_attempt] it returns feedback whose
    overall score and passed flag are those stored on the attempt. *)
Theorem results_after_completion (now : Z) (db db' : database) (attempt_id : Z)
    (a a' : QuizAttempt.t) :
  (quiz_attempts db !! attempt_id = None -> get_attempt_results db attempt_id = Ok None) /\
  (quiz_attempts db !! attempt_id = Some a ->
   QuizAttempt.is_in_progress a = true ->
   get_attempt_results db attempt_id
   = Ok (Some {| AttemptResults.attempt := a; AttemptResults.feedback := None;
                 AttemptResults.error := Some not_completed_message;
                 AttemptResults.quiz := None |})) /\
  (forall r f, get_attempt_results db attempt_id = Ok (Some r) ->
     AttemptResults.feedback r = Some f ->
     QuizAttempt.is_completed (AttemptResults.attempt r) = true) /\
  (quiz_attempts db !! attempt_id = Some a ->
   complete_attempt now db attempt_id = (db', (Some a', None)) ->
   exists r f,
     get_attempt_results db' attempt_id = Ok (Some r) /\
     AttemptResults.attempt r = a' /\
     AttemptResults.error r = None /\
     AttemptResults.feedback r = Some f /\
     Grading.score_percentage (Feedback.overall f) = QuizAttempt.score a' /\
     Grading.passed (Feedback.overall f) = QuizAttempt.passed a').
Proof.
  unfold get_attempt_results. split; [|split; [|split]].
  - intros ->. reflexivity.
  - intros -> Hip. unfold QuizAttempt.is_in_progress, QuizAttempt.is_completed in *.
    destruct (QuizAttempt.completed_at a); [discriminate|reflexivity].
  - intros r f H Hf. destruct (quiz_attempts db !! attempt_id) as [x|]; [|discriminate].
    destruct (QuizAttempt.is_completed x) eqn:Hc; cbn [negb] in H.
    + destruct (generate_feedback db x); [|discriminate].
      cbn in H. injection H as <-. exact Hc.
    + injection H as <-. discriminate.
  - intros Ha Hcomp.
    destruct (complete_attempt_inv now db db' attempt_id a a' Ha Hcomp)
      as (g & Hg & Ea & ->).
    unfold commit_attempt. cbn [quiz_attempts quizzes]. rewrite lookup_insert_eq.
    assert (Hc : QuizAttempt.is_completed a' = true) by (subst a'; reflexivity).
    rewrite Hc. cbn [negb].
    assert (Hg' : grade_attempt (commit_attempt db attempt_id a') a' = Ok g).
    { rewrite <- Hg. subst a'. reflexivity. }
    destruct (generate_feedback_overall _ _ _ Hg') as (f & Hf & Ho).
    unfold commit_attempt in Hf. rewrite Hf. cbn [bind].
    do 2 eexists. split; [reflexivity|]. cbn. rewrite Ho. subst a'.
    repeat split.
Qed.

Lemma results_after_completion_witness :
  exists r f,
    get_attempt_results db_completed 1 = Ok (Some r) /\
    AttemptResults.attempt r = attempt_completed /\
    AttemptResults.error r = None /\
    AttemptResults.feedback r = Some f /\
    Grading.score_percentage (Feedback.overall f) = QuizAttempt.score attempt_completed /\
    Grading.passed (Feedback.overall f) = QuizAttempt.passed attempt_completed.
Proof.
  refine (proj2 (proj2 (proj2 (results_after_completion 5000000 db_example
                                 db_completed 1 attempt_example attempt_completed)))
                _ _).
  - vm_compute. reflexivity.
  - exact complete_attempt_example.
Defined.

(** ** Retakes *)

Lemma insert_by_start_perm a l : Permutation (insert_by_start a l) (a :: l).
Proof.
  induction l as [|b l IH]; cbn; [reflexivity|].
  destruct (_ <=? _); [reflexivity|].
  rewrite IH. apply perm_swap.
Qed.

Lemma order_by_started_at_desc_perm l : Permutation (order_by_started_at_desc l) l.
Proof.
  induction l as [|a l IH]; cbn; [reflexivity|].
  rewrite insert_by_start_perm. now constructor.
Qed.

Lemma elem_of_all_attempts db a :
  a ∈ all_attempts db <-> exists k, quiz_attempts db !! k = Some a.
Proof.
  unfold all_attempts. rewrite list_elem_of_fmap. split.
  - intros ([k x] & -> & Hin). exists k. now apply elem_of_map_to_list in Hin.
  - intros [k Hk]. exists (k, a). split; [reflexivity|]. now apply elem_of_map_to_list.
Qed.

(** The attempts that block a retake. *)
Lemma incomplete_attempts_spec db user_id quiz_id a :
  a ∈ List.filter (fun a => negb (QuizAttempt.is_completed a))
        (order_by_started_at_desc
           (List.filter (fun a => (QuizAttempt.user_id a =? user_id)
                                  && (QuizAttempt.quiz_id a =? quiz_id))
                        (all_attempts db))) <->
  (exists k, quiz_attempts db !! k = Some a) /\
  QuizAttempt.user_id a = user_id /\ QuizAttempt.quiz_id a = quiz_id /\
  QuizAttempt.is_completed a = false.
Proof.
  rewrite list_elem_of_In, filter_In, <- list_elem_of_In.
  rewrite order_by_started_at_desc_perm.
  rewrite list_elem_of_In, filter_In, <- list_elem_of_In, elem_of_all_attempts.
  rewrite andb_true_iff, !Z.eqb_eq, negb_true_iff. tauto.
Qed.

Lemma can_retake_quiz_blocked db user_id quiz_id :
  is_Some (quizzes db !! quiz_id) ->
  (exists k a, quiz_attempts db !! k = Some a /\
               QuizAttempt.user_id a = user_id /\ QuizAttempt.quiz_id a = quiz_id /\
               QuizAttempt.is_completed a = false) ->
  can_retake_quiz db user_id quiz_id = (false, Some in_progress_message).
Proof.
  unfold can_retake_quiz. intros [quiz ->] (k & a & Hk & Hu & Hq & Hc).
  assert (Hin : a ∈ List.filter (fun a => negb (QuizAttempt.is_completed a))
                  (order_by_started_at_desc
                     (List.filter (fun a => (QuizAttempt.user_id a =? user_id)
                                            && (QuizAttempt.quiz_id a =? quiz_id))
                                  (all_attempts db))))
    by (apply incomplete_attempts_spec; eauto).
  destruct (List.filter _ _); [now apply elem_of_nil in Hin|reflexivity].
Qed.

Lemma can_retake_quiz_allowed db user_id quiz_id :
  is_Some (quizzes db !! quiz_id) ->
  (forall k a, quiz_attempts db !! k = Some a ->
               QuizAttempt.user_id a = user_id -> QuizAttempt.quiz_id a = quiz_id ->
               QuizAttempt.is_completed a = true) ->
  can_retake_quiz db user_id quiz_id = (true, None).
Proof.
  unfold can_retake_quiz. intros [quiz ->] Hall.
  destruct (List.filter (fun a => negb (QuizAttempt.is_completed a)) _)
    as [|a l] eqn:E; [reflexivity|].
  assert (Hin : a ∈ a :: l) by left. rewrite <- E in Hin.
  apply incomplete_attempts_spec in Hin as ((k & Hk) & Hu & Hq & Hc).
  rewrite (Hall k a Hk Hu Hq) in Hc. discriminate.
Qed.

(** X13. [can_retake_quiz] refuses when the quiz does not exist and when
    the user has an attempt of this quiz that is not completed; in every
    other case it allows the retake: having passed the quiz, even an
    eliminatory one, never blocks. *)
Theorem can_retake_quiz_spec (db : database) (user_id quiz_id : Z) :
  (quizzes db !! quiz_id = None ->
   can_retake_quiz db user_id quiz_id = (false, Some quiz_not_found_message)) /\
  (is_Some (quizzes db !! quiz_id) ->
   (exists k a, quiz_attempts db !! k = Some a /\
                QuizAttempt.user_id a = user_id /\ QuizAttempt.quiz_id a = quiz_id /\
                QuizAttempt.is_completed a = false) ->
   can_retake_quiz db user_id quiz_id = (false, Some in_progress_message)) /\
  (is_Some (quizzes db !! quiz_id) ->
   (forall k a, quiz_attempts db !! k = Some a ->
                QuizAttempt.user_id a = user_id -> QuizAttempt.quiz_id a = quiz_id ->
                QuizAttempt.is_completed a = true) ->
   can_retake_quiz db user_id quiz_id = (true, None)) /\
  (fst (can_retake_quiz db user_id quiz_id) = true <->
   is_Some (quizzes db !! quiz_id) /\
   forall k a, quiz_attempts db !! k = Some a ->
               QuizAttempt.user_id a = user_id -> QuizAttempt.quiz_id a = quiz_id ->
               QuizAttempt.is_completed a = true).
Proof.
  split; [|split; [|split]].
  - intros H. unfold can_retake_quiz. now rewrite H.
  - apply can_retake_quiz_blocked.
  - apply can_retake_quiz_allowed.
  - split.
    + intros Ht.
      destruct (quizzes db !! quiz_id) as [quiz|] eqn:Hq;
        [|unfold can_retake_quiz in Ht; rewrite Hq in Ht; discriminate].
      split; [eauto|]. intros k a Hk Hu Hqz.
      destruct (QuizAttempt.is_completed a) eqn:Hc; [reflexivity|].
      rewrite (can_retake_quiz_blocked db user_id quiz_id) in Ht;
        [discriminate|rewrite Hq; eauto|eauto 10].
    + intros [Hq Hall]. now rewrite (can_retake_quiz_allowed db user_id quiz_id Hq Hall).
Qed.

Lemma can_retake_quiz_spec_witness :
  can_retake_quiz db_example 10 1 = (false, Some in_progress_message) /\
  can_retake_quiz db_completed 10 1 = (true, None).
Proof.
  split.
  - refine (proj1 (proj2 (can_retake_quiz_spec db_example 10 1)) _ _).
    + vm_compute. eauto.
    + exists 1, attempt_example. repeat split.
  - refine (proj1 (proj2 (proj2 (can_retake_quiz_spec db_completed 10 1))) _ _).
    + vm_compute. eauto.
    + intros k a H _ _.
      replace (quiz_attempts db_completed) with ({[ 1 := attempt_completed ]} : gmap Z _)
        in H by (vm_compute; reflexivity).
      apply lookup_singleton_Some in H as [_ <-]. reflexivity.
Defined.

(** X14. [can_retake_quiz] follows the life of an attempt: right after a
    successful [start_attempt] the retake is refused for this user and
    quiz, and once the only attempt in progress of the user for the quiz
    is completed it is allowed again. *)
Theorem retake_follows_lifecycle (now : Z) (db db' : database)
    (user_id quiz_id attempt_id : Z) (quiz_instance : QuizInstance.t)
    (a a' : QuizAttempt.t) :
  (start_attempt now db user_id quiz_id quiz_instance = (db', (Some a', None)) ->
   can_retake_quiz db' user_id quiz_id = (false, Some in_progress_message)) /\
  (quiz_attempts db !! attempt_id = Some a ->
   (forall k b, quiz_attempts db !! k = Some b -> k <> attempt_id ->
                QuizAttempt.user_id b = QuizAttempt.user_id a ->
                QuizAttempt.quiz_id b = QuizAttempt.quiz_id a ->
                QuizAttempt.is_completed b = true) ->
   complete_attempt now db attempt_id = (db', (Some a', None)) ->
   can_retake_quiz db' (QuizAttempt.user_id a) (QuizAttempt.quiz_id a) = (true, None)).
Proof.
  split.
  - intros H. unfold start_attempt in H.
    destruct (quizzes db !! quiz_id) as [quiz|] eqn:Hq; [|discriminate].
    destruct (QuizInstance.quiz_hash quiz_instance); [|discriminate].
    injection H as <- <-.
    apply can_retake_quiz_blocked.
    + cbn. rewrite Hq. eauto.
    + eexists _, _. split; [apply lookup_insert_eq|]. repeat split.
  - intros Ha Hothers H.
    destruct (complete_attempt_inv now db db' attempt_id a a' Ha H) as (g & Hg & Ea & ->).
    apply can_retake_quiz_allowed.
    + cbn. unfold grade_attempt in Hg.
      destruct (calculate_total_score db a); [|discriminate]. cbn [bind] in Hg.
      destruct (quizzes db !! QuizAttempt.quiz_id a); [eauto|discriminate].
    + intros k b Hk Hbu Hbq. cbn in Hk.
      apply lookup_insert_Some in Hk as [[<- <-]|[Hne Hk]].
      * subst a'. reflexivity.
      * now apply (Hothers k b Hk).
Qed.

Lemma retake_follows_lifecycle_witness :
  can_retake_quiz (fst (start_attempt 0 db_catalog 10 1 instance_example)) 10 1
    = (false, Some in_progress_message) /\
  can_retake_quiz db_completed 10 1 = (true, None).
Proof.
  split.
  - refine (proj1 (retake_follows_lifecycle 0 db_catalog _ 10 1 0 instance_example
                     attempt_example _) _).
    reflexivity.
  - refine (proj2 (retake_follows_lifecycle 5000000 db_example db_completed 10 1 1
                     instance_example attempt_example attempt_completed) _ _ _).
    + vm_compute. reflexivity.
    + intros k b Hk Hne.
      replace (quiz_attempts db_example) with ({[ 1 := attempt_example ]} : gmap Z _)
        in Hk by reflexivity.
      apply lookup_singleton_Some in Hk as [<- _]. contradiction.
    + exact complete_attempt_example.
Defined.

(** * Properties of the randomizer *)

(** ** Shuffling the options *)

Lemma swap_perm {A} (x : list A) i j : Permutation (swap x i j) x.
Proof.
  unfold swap.
  destruct (x !! i) as [a|] eqn:Ei; [|reflexivity].
  destruct (x !! j) as [b|] eqn:Ej; [|reflexivity].
  destruct (decide (i = j)) as [->|Hne].
  - rewrite list_insert_insert_eq. rewrite Ei in Ej. injection Ej as <-.
    now rewrite list_insert_id.
  - apply Permutation_inj. split; [now rewrite !length_insert|].
    exists (fun k => if decide (k = i) then j else if decide (k = j) then i else k).
    split.
    + intros k1 k2. repeat case_decide; intros; subst; congruence.
    + intros k. apply lookup_lt_Some in Ei as Hi. apply lookup_lt_Some in Ej as Hj.
      repeat case_decide; subst.
      * rewrite list_lookup_insert_eq by (rewrite length_insert; lia). now rewrite Ej.
      * rewrite list_lookup_insert_ne by congruence.
        rewrite list_lookup_insert_eq by lia. now rewrite Ei.
      * now rewrite !list_lookup_insert_ne by congruence.
Qed.

Lemma shuffle_from_perm {A} i : forall (x : list A) g,
  Permutation (fst (shuffle_from i x g)) x.
Proof.
  induction i as [|i IH]; intros x g; [reflexivity|].
  cbn [shuffle_from]. destruct (randbelow (S (S i)) g) as [j g'].
  rewrite IH. apply swap_perm.
Qed.

Lemma random_shuffle_perm {A} (x : list A) g : Permutation (fst (random_shuffle x g)) x.
Proof. apply shuffle_from_perm. Qed.

Lemma build_mapping_spec l : forall n m s,
  snd (build_mapping n l m s) = s ++ map snd l /\
  forall key,
    fst (build_mapping n l m s) !! key
    = if decide (n <= key < n + Z.of_nat (length l))
      then fst <$> l !! Z.to_nat (key - n)
      else m !! key.
Proof.
  induction l as [|[o a] l IH]; intros n m s.
  - cbn. split; [now rewrite app_nil_r|]. intros key.
    case_decide; [lia|reflexivity].
  - cbn [build_mapping]. destruct (IH (n + 1) (<[n := o]> m) (s ++ [a])) as [H1 H2].
    split; [rewrite H1, <- app_assoc; reflexivity|].
    intros key. rewrite H2. cbn [length].
    destruct (decide (key = n)) as [->|Hne].
    + rewrite decide_False by lia. rewrite decide_True by lia.
      rewrite lookup_insert_eq, Z.sub_diag. reflexivity.
    + case_decide.
      * rewrite decide_True by lia.
        replace (Z.to_nat (key - n)) with (S (Z.to_nat (key - (n + 1)))) by lia.
        reflexivity.
      * rewrite lookup_insert_ne by congruence.
        case_decide; [lia|reflexivity].
Qed.

Lemma enumerate_fst_NoDup {A} (l : list A) : forall i,
  NoDup (map fst (Question.enumerate_from i l)).
Proof.
  induction l as [|x l IH]; intros i; cbn; [constructor|].
  apply NoDup_cons_2; [|apply IH].
  rewrite elem_of_map. intros (p & Hp & Hin).
  apply enumerate_from_fst_lt in Hin. lia.
Qed.

Lemma enumerate_snd {A} (l : list A) : forall i,
  map snd (Question.enumerate_from i l) = l.
Proof. induction l as [|x l IH]; intros i; cbn; [reflexivity|]. now rewrite IH. Qed.

Lemma map_fmap {A B} (f : A -> B) (l : list A) : map f l = f <$> l.
Proof. induction l as [|x l IH]; cbn; [reflexivity|]. now rewrite IH. Qed.

Lemma NoDup_map_lookup_inj {A B} (f : A -> B) (l : list A) (i j : nat) x y :
  NoDup (map f l) -> l !! i = Some x -> l !! j = Some y -> f x = f y -> i = j.
Proof.
  intros Hnd Hi Hj Hf.
  eapply (NoDup_lookup (map f l)); [exact Hnd| |].
  - rewrite map_fmap, list_lookup_fmap, Hi. reflexivity.
  - rewrite map_fmap, list_lookup_fmap, Hj. cbn. now rewrite Hf.
Qed.

Lemma randomize_answer_order_inv (question : Question.t) (g : rng) :
  let r := fst (randomize_answer_order question g) in
  exists ix,
    Permutation ix (Question.enumerate (Question.answers question)) /\
    Randomized.shuffled_answers r = map snd ix /\
    forall key,
      Randomized.answer_mapping r !! key
      = if decide (0 <= key < Z.of_nat (length ix))
        then fst <$> ix !! Z.to_nat key else None.
Proof.
  unfold randomize_answer_order.
  destruct (Question.answers question) as [|a0 rest] eqn:Hans.
  { exists []. cbn. split; [reflexivity|]. split; [reflexivity|].
    intros key. rewrite lookup_empty. case_decide; [lia|reflexivity]. }
  rewrite <- Hans. set (answers := Question.answers question).
  pose proof (random_shuffle_perm (Question.enumerate answers) g) as Hperm.
  destruct (random_shuffle (Question.enumerate answers) g) as [ix g'].
  cbn [fst] in Hperm.
  destruct (build_mapping_spec ix 0 ∅ []) as [Hs Hm].
  destruct (build_mapping 0 ix ∅ []) as [mapping shuffled].
  cbn [fst snd] in *. cbn zeta. exists ix.
  split; [exact Hperm|]. split; [exact Hs|].
  intros key. rewrite Hm, Z.add_0_l, Z.sub_0_r.
  case_decide; [reflexivity|apply lookup_empty].
Qed.

Lemma shuffled_enumeration_mapping {A} (answers : list A) (ix : list (Z * A))
    (mapping : gmap Z Z) :
  Permutation ix (Question.enumerate answers) ->
  (forall key, mapping !! key
               = if decide (0 <= key < Z.of_nat (length ix))
                 then fst <$> ix !! Z.to_nat key else None) ->
  let n := length answers in
  Permutation (map snd ix) answers /\
  (forall key, (exists orig, mapping !! key = Some orig) <-> 0 <= key < Z.of_nat n) /\
  (forall key orig, mapping !! key = Some orig ->
     0 <= orig < Z.of_nat n /\
     map snd ix !! Z.to_nat key = answers !! Z.to_nat orig) /\
  (forall k1 k2 orig, mapping !! k1 = Some orig -> mapping !! k2 = Some orig ->
                      k1 = k2) /\
  (forall orig, 0 <= orig < Z.of_nat n -> exists key, mapping !! key = Some orig).
Proof.
  intros Hperm Hm n. subst n.
  assert (Hlen : length ix = length answers).
  { rewrite (Permutation_length Hperm). unfold Question.enumerate.
    rewrite <- (length_map snd), enumerate_snd. reflexivity. }
  assert (Helem : forall k o a, ix !! k = Some (o, a) ->
            0 <= o < Z.of_nat (length answers) /\ answers !! Z.to_nat o = Some a).
  { intros k o a Hk.
    assert (Hin : (o, a) ∈ Question.enumerate answers).
    { rewrite <- Hperm. apply list_elem_of_lookup. eauto. }
    apply list_elem_of_lookup in Hin as [j Hj]. unfold Question.enumerate in Hj.
    rewrite enumerate_from_lookup in Hj.
    destruct (answers !! j) as [a'|] eqn:E; [|discriminate].
    injection Hj as <- <-. apply lookup_lt_Some in E as Hlt.
    rewrite Z.add_0_l, Nat2Z.id. split; [lia|exact E]. }
  assert (Hnd : NoDup (map fst ix)).
  { rewrite Hperm. apply enumerate_fst_NoDup. }
  assert (Hkey : forall key orig, mapping !! key = Some orig ->
            0 <= key < Z.of_nat (length answers) /\
            exists a, ix !! Z.to_nat key = Some (orig, a)).
  { intros key orig H. rewrite Hm in H.
    case_decide; [|discriminate].
    split; [lia|]. destruct (ix !! Z.to_nat key) as [[o a]|]; [|discriminate].
    injection H as <-. eauto. }
  split.
  { rewrite Hperm. unfold Question.enumerate. now rewrite enumerate_snd. }
  split; [|split; [|split]].
  - intros key. split.
    + intros [orig H]. now apply Hkey in H.
    + intros Hr. rewrite Hm. rewrite decide_True by lia.
      destruct (lookup_lt_is_Some_2 ix (Z.to_nat key)) as [[o a] E]; [lia|].
      rewrite E. eauto.
  - intros key orig H. destruct (Hkey key orig H) as (Hr & a & E).
    destruct (Helem _ _ _ E) as [Ho Ha]. split; [exact Ho|].
    rewrite map_fmap, list_lookup_fmap, E, Ha. reflexivity.
  - intros k1 k2 orig H1 H2.
    destruct (Hkey k1 orig H1) as (Hr1 & a1 & E1).
    destruct (Hkey k2 orig H2) as (Hr2 & a2 & E2).
    pose proof (NoDup_map_lookup_inj fst ix _ _ _ _ Hnd E1 E2 eq_refl). lia.
  - intros orig Ho.
    destruct (lookup_lt_is_Some_2 answers (Z.to_nat orig)) as [a Ea]; [lia|].
    assert (Hin : (orig, a) ∈ ix).
    { rewrite Hperm. apply list_elem_of_lookup. exists (Z.to_nat orig).
      unfold Question.enumerate. rewrite enumerate_from_lookup, Ea. cbn.
      do 2 f_equal. lia. }
    apply list_elem_of_lookup in Hin as [k Hk]. exists (Z.of_nat k).
    apply lookup_lt_Some in Hk as Hlt.
    rewrite Hm. rewrite decide_True by lia.
    now rewrite Nat2Z.id, Hk.
Qed.

Lemma randomize_answer_order_question_id (question : Question.t) (g : rng) :
  Randomized.question_id (fst (randomize_answer_order question g))
  = Question.id question.
Proof.
  unfold randomize_answer_order.
  destruct (Question.answers question); [reflexivity|].
  destruct (random_shuffle _ g) as [ix g'].
  destruct (build_mapping 0 ix ∅ []). reflexivity.
Qed.

(** X15. [randomize_answer_order] loses and alters no option: the shuffled
    options are a permutation of the options of the question, and the
    answer mapping is a bijection between the positions 0..n-1 that sends
    every displayed position to the original index of the option shown
    there.  A question with no option gives no option and an empty
    mapping. *)
Theorem randomize_answer_order_bijection (question : Question.t) (g : rng) :
  let r := fst (randomize_answer_order question g) in
  let n := length (Question.answers question) in
  Randomized.question_id r = Question.id question /\
  Permutation (Randomized.shuffled_answers r) (Question.answers question) /\
  (forall key, (exists orig, Randomized.answer_mapping r !! key = Some orig)
               <-> 0 <= key < Z.of_nat n) /\
  (forall key orig, Randomized.answer_mapping r !! key = Some orig ->
     0 <= orig < Z.of_nat n /\
     Randomized.shuffled_answers r !! Z.to_nat key
       = Question.answers question !! Z.to_nat orig) /\
  (forall k1 k2 orig, Randomized.answer_mapping r !! k1 = Some orig ->
                      Randomized.answer_mapping r !! k2 = Some orig -> k1 = k2) /\
  (forall orig, 0 <= orig < Z.of_nat n ->
     exists key, Randomized.answer_mapping r !! key = Some orig).
Proof.
  intros r n. subst r n.
  split; [apply randomize_answer_order_question_id|].
  destruct (randomize_answer_order_inv question g) as (ix & Hperm & Hs & Hm).
  rewrite Hs.
  exact (shuffled_enumeration_mapping (Question.answers question) ix _ Hperm Hm).
Qed.

(** ** Selecting the questions of the pool *)

Lemma insert_perm_delete {A} (l : list A) : forall j a b,
  l !! j = Some a -> Permutation (<[j := b]> l) (b :: delete j l).
Proof.
  induction l as [|x l IH]; intros j a b H; [discriminate|].
  destruct j as [|j]; cbn; [reflexivity|].
  rewrite (IH j a b H). apply perm_swap.
Qed.

(** One draw of the loop of [random.sample]: the element taken and the
    pool that remains make up the pool. *)
Lemma sample_step_perm {A} (pool : list A) j a last :
  pool !! j = Some a ->
  pool !! (length pool - 1)%nat = Some last ->
  Permutation pool (a :: take (length pool - 1) (<[j := last]> pool)).
Proof.
  intros Hj Hlast.
  apply lookup_lt_Some in Hj as Hlt.
  set (n := length pool) in *.
  assert (Hpool : pool = take (n - 1) pool ++ [last]).
  { rewrite <- (take_drop_middle pool (n - 1)%nat last Hlast) at 1.
    replace (S (n - 1)) with n by lia. unfold n. now rewrite drop_all. }
  set (init := take (n - 1) pool) in *.
  assert (Hinit : length init = (n - 1)%nat).
  { unfold init. rewrite length_take. lia. }
  destruct (decide (j = (n - 1)%nat)) as [->|Hne].
  - rewrite Hlast in Hj. injection Hj as <-.
    rewrite list_insert_id by exact Hlast. fold init.
    rewrite Hpool at 1. symmetry. apply Permutation_cons_append.
  - assert (Hj' : init !! j = Some a).
    { rewrite Hpool in Hj. rewrite lookup_app_l in Hj by lia. exact Hj. }
    rewrite Hpool at 2. rewrite insert_app_l by lia.
    rewrite <- Hinit at 1. rewrite <- (length_insert init j last).
    rewrite take_app_length.
    rewrite (insert_perm_delete init j a last Hj').
    rewrite Hpool at 1. rewrite (delete_Permutation init j a Hj') at 1.
    cbn. constructor. symmetry. apply Permutation_cons_append.
Qed.

Lemma randbelow_lt n g : (0 < n)%nat -> (fst (randbelow n g) < n)%nat.
Proof.
  intros Hn. unfold randbelow. destruct g as [|r g']; cbn; [lia|].
  apply Nat.mod_upper_bound. lia.
Qed.

(** The sample has [k] elements, taken from the pool without
    replacement. *)
Lemma sample_loop_spec {A} k : forall (pool : list A) g,
  (k <= length pool)%nat ->
  length (fst (sample_loop k pool g)) = k /\
  exists rest, Permutation pool (fst (sample_loop k pool g) ++ rest).
Proof.
  induction k as [|k IH]; intros pool g Hk.
  - cbn. split; [reflexivity|]. exists pool. reflexivity.
  - cbn [sample_loop].
    pose proof (randbelow_lt (length pool) g ltac:(lia)) as Hj.
    destruct (randbelow (length pool) g) as [j g']. cbn [fst] in Hj.
    destruct (lookup_lt_is_Some_2 pool j Hj) as [a Ha].
    destruct (lookup_lt_is_Some_2 pool (length pool - 1)%nat ltac:(lia)) as [last Hl].
    rewrite Ha, Hl.
    pose proof (sample_step_perm pool j a last Ha Hl) as Hperm.
    set (pool' := take (length pool - 1) (<[j := last]> pool)) in *.
    assert (Hlen : (k <= length pool')%nat).
    { unfold pool'. rewrite length_take, length_insert. lia. }
    destruct (IH pool' g' Hlen) as (Hl' & rest & Hr).
    destruct (sample_loop k pool' g') as [r g'']. cbn [fst] in *.
    split; [cbn; lia|]. exists rest. rewrite Hperm. cbn. now constructor.
Qed.

(** What [randomize_question_selection] returns when it returns: a
    selection without replacement from the questions of the quiz, of the
    size of the pool or of the quiz. *)
Lemma selection_spec quiz pool_size g selected g' :
  randomize_question_selection quiz pool_size g = (Ok selected, g') ->
  (exists rest, Permutation (Quiz.questions quiz) (selected ++ rest)) /\
  Z.of_nat (length selected)
  = match pool_size with
    | None => Z.of_nat (length (Quiz.questions quiz))
    | Some p => Z.min p (Z.of_nat (length (Quiz.questions quiz)))
    end.
Proof.
  unfold randomize_question_selection. destruct pool_size as [p|].
  - destruct (p >=? Z.of_nat (length (Quiz.questions quiz))) eqn:E.
    + intros [= <- <-]. apply Z.geb_le in E. split; [|lia].
      exists []. now rewrite app_nil_r.
    + assert (Hp : p < Z.of_nat (length (Quiz.questions quiz))).
      { destruct (Z.geb_spec p (Z.of_nat (length (Quiz.questions quiz)))); [discriminate|lia]. }
      rewrite Z.min_l by lia. unfold random_sample.
      destruct (p <? 0) eqn:E0; [discriminate|]. apply Z.ltb_ge in E0.
      destruct (Z.of_nat (length (Quiz.questions quiz)) <? p) eqn:E1; [discriminate|].
      cbn [orb].
      destruct (sample_loop_spec (Z.to_nat p) (Quiz.questions quiz) g ltac:(lia))
        as (Hl & Hrest).
      destruct (sample_loop (Z.to_nat p) (Quiz.questions quiz) g) as [r g2].
      intros [= <- <-]. cbn [fst] in *. split; [exact Hrest|lia].
  - intros [= <- <-]. split; [|reflexivity]. exists []. now rewrite app_nil_r.
Qed.

(** ** The generated instance *)

Lemma identity_mapping_lookup n key orig :
  identity_mapping n !! key = Some orig <-> 0 <= key < Z.of_nat n /\ orig = key.
Proof.
  unfold identity_mapping. rewrite <- elem_of_list_to_map.
  - rewrite elem_of_map. split.
    + intros (i & [= -> ->] & Hi). apply elem_of_seq in Hi. lia.
    + intros [Hk ->]. exists (Z.to_nat key). split; [f_equal; lia|].
      apply elem_of_seq. lia.
  - rewrite <- map_fmap, map_map. cbn.
    rewrite map_fmap. apply NoDup_fmap; [intros ? ?; lia|apply NoDup_seq].
Qed.

Lemma build_questions_data_spec randomize selected : forall g,
  Forall2 (question_data_matches randomize) selected
          (fst (build_questions_data randomize selected g)).
Proof.
  induction selected as [|q qs IH]; intros g; [constructor|].
  cbn [build_questions_data]. destruct randomize.
  - destruct (randomize_answer_order_inv q g) as (ix & Hp & Hs & Hm).
    destruct (shuffled_enumeration_mapping (Question.answers q) ix _ Hp Hm)
      as (Hperm & Hdom & Hval & Hinj & _).
    pose proof (randomize_answer_order_question_id q g) as Hid.
    rewrite <- Hs in Hperm, Hval.
    destruct (randomize_answer_order q g) as [rz g1]. cbn [fst] in *.
    specialize (IH g1). destruct (build_questions_data true qs g1) as [rest g2].
    cbn [fst] in *. constructor; [|exact IH].
    unfold question_data_matches. cbn.
    refine (conj eq_refl (conj eq_refl (conj eq_refl (conj eq_refl (conj eq_refl
             (conj Hperm (conj _ (conj Hval (conj Hinj _))))))))).
    + intros key. rewrite <- Hdom. unfold is_Some. reflexivity.
    + discriminate.
  - specialize (IH g). destruct (build_questions_data false qs g) as [rest g2].
    cbn [fst] in *. constructor; [|exact IH].
    unfold question_data_matches. cbn.
    refine (conj eq_refl (conj eq_refl (conj eq_refl (conj eq_refl (conj eq_refl
             (conj _ (conj _ (conj _ (conj _ _))))))))).
    + reflexivity.
    + intros key. split.
      * intros [orig H]. apply identity_mapping_lookup in H. lia.
      * intros H. exists key. apply identity_mapping_lookup. lia.
    + intros key orig H. apply identity_mapping_lookup in H as [Hk ->].
      split; [lia|reflexivity].
    + intros k1 k2 orig H1 H2. apply identity_mapping_lookup in H1, H2. lia.
    + intros _. split; [reflexivity|].
      intros key orig H. apply identity_mapping_lookup in H. lia.
Qed.

Lemma generate_quiz_hash_ignores_hash i h :
  generate_quiz_hash
    {| QuizInstance.quiz_id := QuizInstance.quiz_id i;
       QuizInstance.questions := QuizInstance.questions i;
       QuizInstance.question_ids := QuizInstance.question_ids i;
       QuizInstance.quiz_hash := h |}
  = generate_quiz_hash i.
Proof. reflexivity. Qed.

(** X16. every instance that [generate_quiz_instance] returns belongs to
    the quiz asked for, selects at least one question, selects questions
    of the quiz without repetition, lists in question_ids the ids of its
    'questions' entries in the same order, describes each selected
    question faithfully (fields copied, options permuted, mapping from
    displayed position to original index one-to-one; options unchanged
    and identity mapping when randomization is off), and carries the hash
    that [generate_quiz_hash] computes for it. *)
Theorem generated_instance_consistent (db : database) (quiz_id : Z) (g g' : rng)
    (inst : QuizInstance.t) :
  generate_quiz_instance db quiz_id g = (Ok (Some inst), g') ->
  exists quiz selected questions_data,
    quizzes db !! quiz_id = Some quiz /\
    QuizInstance.quiz_id inst = quiz_id /\
    selected <> [] /\
    (exists rest, Permutation (Quiz.questions quiz) (selected ++ rest)) /\
    QuizInstance.question_ids inst = map Question.id selected /\
    QuizInstance.questions inst = Some questions_data /\
    map QuestionData.question_id questions_data = QuizInstance.question_ids inst /\
    Forall2 (question_data_matches (Quiz.randomize_answers quiz))
            selected questions_data /\
    QuizInstance.quiz_hash inst = Some (generate_quiz_hash inst).
Proof.
  unfold generate_quiz_instance. intros H.
  destruct (quizzes db !! quiz_id) as [quiz|] eqn:Hq; [|discriminate].
  destruct (randomize_question_selection quiz (Quiz.question_pool_size quiz) g)
    as [[sel|e] g1] eqn:Hsel; [|discriminate].
  destruct (selection_spec _ _ _ _ _ Hsel) as [Hrest _].
  destruct sel as [|q sel]; [discriminate|].
  pose proof (build_questions_data_spec (Quiz.randomize_answers quiz) (q :: sel) g1) as Hd.
  pose proof (build_questions_data_ids (Quiz.randomize_answers quiz) (q :: sel) g1) as Hids.
  destruct (build_questions_data (Quiz.randomize_answers quiz) (q :: sel) g1)
    as [qd g2]. cbn [fst] in Hd, Hids.
  injection H as <- <-. exists quiz, (q :: sel), qd.
  cbn [QuizInstance.quiz_id QuizInstance.questions QuizInstance.question_ids
       QuizInstance.quiz_hash].
  refine (conj eq_refl (conj eq_refl (conj _ (conj Hrest (conj eq_refl
           (conj eq_refl (conj Hids (conj Hd _)))))))); [discriminate|].
  f_equal.
Qed.

Lemma generate_quiz_instance_positive_pool (db : database) (quiz_id : Z)
    (quiz : Quiz.t) (p : Z) (g : rng) :
  quizzes db !! quiz_id = Some quiz ->
  Quiz.questions quiz <> [] ->
  Quiz.question_pool_size quiz = Some p ->
  0 < p ->
  exists sel g1 inst g',
    randomize_question_selection quiz (Some p) g = (Ok sel, g1) /\
    generate_quiz_instance db quiz_id g = (Ok (Some inst), g') /\
    QuizInstance.question_ids inst = map Question.id sel.
Proof.
  intros Hq Hne Hp Hpos.
  assert (Hn : 0 < Z.of_nat (length (Quiz.questions quiz)))
    by (destruct (Quiz.questions quiz); [congruence|cbn; lia]).
  assert (Hok : exists sel g1,
            randomize_question_selection quiz (Some p) g = (Ok sel, g1)).
  { unfold randomize_question_selection, random_sample.
    destruct (p >=? _) eqn:E; [eauto|].
    assert (p < Z.of_nat (length (Quiz.questions quiz)))
      by (destruct (Z.geb_spec p (Z.of_nat (length (Quiz.questions quiz))));
          [discriminate|lia]).
    rewrite Z.min_l by lia.
    destruct (p <? 0) eqn:E0; [apply Z.ltb_lt in E0; lia|].
    destruct (_ <? p) eqn:E1; [apply Z.ltb_lt in E1; lia|]. cbn [orb].
    destruct (sample_loop _ _ _). eauto. }
  destruct Hok as (sel & g1 & Hsel).
  destruct (selection_spec _ _ _ _ _ Hsel) as [_ Hlen].
  unfold generate_quiz_instance. rewrite Hq, Hp, Hsel.
  destruct sel as [|q sel]; [cbn in Hlen; lia|].
  destruct (build_questions_data _ _ _) as [qd g2].
  exists (q :: sel), g1. do 2 eexists.
  split; [reflexivity|]. split; reflexivity.
Qed.

(** X17. with a positive pool size the instance holds min(pool size,
    number of questions) questions of the quiz; their ids are ids of the
    catalog, and pairwise different when the ids of the catalog are. *)
Theorem pool_selection_size (db : database) (quiz_id : Z) (quiz : Quiz.t)
    (p : Z) (g : rng) :
  quizzes db !! quiz_id = Some quiz ->
  Quiz.questions quiz <> [] ->
  Quiz.question_pool_size quiz = Some p ->
  0 < p ->
  exists inst g',
    generate_quiz_instance db quiz_id g = (Ok (Some inst), g') /\
    Z.of_nat (length (QuizInstance.question_ids inst))
      = Z.min p (Z.of_nat (length (Quiz.questions quiz))) /\
    (forall i, i ∈ QuizInstance.question_ids inst ->
               i ∈ map Question.id (Quiz.questions quiz)) /\
    (NoDup (map Question.id (Quiz.questions quiz)) ->
     NoDup (QuizInstance.question_ids inst)).
Proof.
  intros Hq Hne Hp Hpos.
  destruct (generate_quiz_instance_positive_pool db quiz_id quiz p g Hq Hne Hp Hpos)
    as (sel & g1 & inst & g' & Hsel & Hgen & Hids).
  destruct (selection_spec _ _ _ _ _ Hsel) as [[rest Hrest] Hlen].
  exists inst, g'. split; [exact Hgen|]. rewrite Hids.
  split; [now rewrite length_map|]. split.
  - intros i Hi. apply elem_of_map in Hi as (x & -> & Hx). apply elem_of_map.
    exists x. split; [reflexivity|]. rewrite Hrest. apply elem_of_app. now left.
  - intros Hnd. rewrite Hrest, map_app in Hnd. rewrite !map_fmap in *.
    now apply NoDup_app in Hnd as [? _].
Qed.

Lemma pool_selection_size_witness :
  exists inst g',
    generate_quiz_instance (db_pool (Some 1)) 1 [3; 1; 4]%nat = (Ok (Some inst), g') /\
    Z.of_nat (length (QuizInstance.question_ids inst))
      = Z.min 1 (Z.of_nat (length (Quiz.questions (quiz_pool (Some 1))))) /\
    (forall i, i ∈ QuizInstance.question_ids inst ->
               i ∈ map Question.id (Quiz.questions (quiz_pool (Some 1)))) /\
    (NoDup (map Question.id (Quiz.questions (quiz_pool (Some 1)))) ->
     NoDup (QuizInstance.question_ids inst)).
Proof.
  apply (pool_selection_size (db_pool (Some 1)) 1 (quiz_pool (Some 1)) 1).
  - vm_compute. reflexivity.
  - discriminate.
  - reflexivity.
  - lia.
Defined.

Lemma generated_instance_consistent_witness :
  exists quiz selected questions_data inst g',
    generate_quiz_instance (db_pool (Some 1)) 1 [3; 1; 4]%nat = (Ok (Some inst), g') /\
    quizzes (db_pool (Some 1)) !! 1 = Some quiz /\
    QuizInstance.quiz_id inst = 1 /\
    selected <> [] /\
    QuizInstance.question_ids inst = map Question.id selected /\
    QuizInstance.questions inst = Some questions_data /\
    Forall2 (question_data_matches (Quiz.randomize_answers quiz))
            selected questions_data /\
    QuizInstance.quiz_hash inst = Some (generate_quiz_hash inst).
Proof.
  destruct (generate_quiz_instance_positive_pool (db_pool (Some 1)) 1
              (quiz_pool (Some 1)) 1 [3; 1; 4]%nat)
    as (_ & _ & inst & g' & _ & H & _);
    [vm_compute; reflexivity|discriminate|reflexivity|lia|].
  destruct (generated_instance_consistent _ _ _ _ _ H)
    as (quiz & sel & qd & H1 & H2 & H3 & _ & H5 & H6 & _ & H8 & H9).
  exists quiz, sel, qd, inst, g'. repeat split; assumption.
Defined.

(** ** The integrity check on the stored block *)

(** X18. [start_attempt] stores the instance without its 'questions', so
    on an attempt just started [validate_quiz_integrity] recomputes the
    hash of an instance with no question: the expected hash is accepted
    exactly when it is the hash of the quiz id alone, whatever the
    selected ids, the answer mappings or the stored hash are. *)
Theorem integrity_check_of_started_attempt (now : Z) (db db' : database)
    (user_id quiz_id : Z) (quiz_instance : QuizInstance.t) (a : QuizAttempt.t)
    (quiz_hash : string) :
  start_attempt now db user_id quiz_id quiz_instance = (db', (Some a, None)) ->
  quiz_hash <> EmptyString ->
  validate_quiz_integrity (Some a) quiz_hash
  = Ok (String.eqb
          (generate_quiz_hash
             {| QuizInstance.quiz_id := QuizInstance.quiz_id quiz_instance;
                QuizInstance.questions := None;
                QuizInstance.question_ids := [];
                QuizInstance.quiz_hash := None |})
          quiz_hash).
Proof.
  unfold start_attempt. intros H Hne.
  destruct (quizzes db !! quiz_id) as [quiz|]; [|discriminate].
  destruct (QuizInstance.quiz_hash quiz_instance) as [h|]; [|discriminate].
  injection H as _ <-. unfold validate_quiz_integrity.
  destruct (String.eqb quiz_hash EmptyString) eqn:E;
    [apply String.eqb_eq in E; contradiction|].
  cbn [QuizAttempt.answers_given]. rewrite lookup_singleton_eq.
  cbn [truthy negb]. do 2 f_equal.
Qed.

Lemma integrity_check_of_started_attempt_witness :
  exists a db',
    start_attempt 0 db_catalog 10 1 instance_example = (db', (Some a, None)) /\
    validate_quiz_integrity (Some a) "h"
    = Ok (String.eqb
            (generate_quiz_hash
               {| QuizInstance.quiz_id := 1; QuizInstance.questions := None;
                  QuizInstance.question_ids := [];
                  QuizInstance.quiz_hash := None |})
            "h").
Proof.
  do 2 eexists. split; [vm_compute; reflexivity|].
  eapply (integrity_check_of_started_attempt 0 db_catalog _ 10 1 instance_example);
    [vm_compute; reflexivity|discriminate].
Defined.

(** The hash that [generate_quiz_instance] put on the instance is not
    the hash of the stored block: checked against it, the attempt just
    started is reported as tampered. *)
Example started_attempt_against_generated_hash :
  match generate_quiz_instance (db_pool (Some 1)) 1 [3; 1; 4]%nat with
  | (Ok (Some inst), _) =>
      match start_attempt 0 (db_pool (Some 1)) 10 1 inst with
      | (_, (Some a, _)) =>
          validate_quiz_integrity (Some a) (default EmptyString (QuizInstance.quiz_hash inst))
      | _ => Ok true
      end
  | _ => Ok true
  end = Ok false.
Proof. vm_compute. reflexivity. Qed.

(** ** The model method and the grader *)

Lemma singleton_of_size_1 (l : list Z) :
  NoDup l -> size (list_to_set l : gset Z) = 1%nat -> exists x, l = [x].
Proof.
  intros Hnd Hs. rewrite size_list_to_set in Hs by exact Hnd.
  destruct l as [|x [|y l]]; cbn in Hs; try discriminate. eauto.
Qed.

(** X19. an answer without repeated index that the model method
    [Question.check_answer] accepts is graded correct, with the points of
    the question, by the grader of the services. *)
Theorem check_answer_accepted_is_graded_correct (q : Question.t)
    (ua : answer_data) (l : list Z) :
  gradable q ua ->
  submitted_indices ua = Some l ->
  NoDup l ->
  Question_check_answer q ua = Ok true ->
  exists r, grade_question q ua = Ok r /\
            GradeResult.correct r = true /\
            GradeResult.points_earned r = Question.points q.
Proof.
  intros Hg Hl Hnd Hc.
  destruct (grade_question_ok q ua Hg) as (r & Hr & Hcor & Hpts).
  assert (Hs : spec_correct q ua = true).
  { unfold spec_correct. rewrite Hl. unfold Question_check_answer in Hc.
    assert (Hsel : match ua with
                   | AList l => Ok (list_to_set l : gset Z)
                   | AInt i => Ok (list_to_set [i])
                   | ADict _ => Raise (TypeError "unhashable type: 'dict'")
                   end = Ok (list_to_set l : gset Z))
      by (destruct ua; cbn in Hl; inversion Hl; reflexivity).
    rewrite Hsel in Hc. cbn [bind] in Hc.
    destruct (String.eqb (Question.question_type q) "single_choice").
    - injection Hc as Hc. apply andb_true_iff in Hc as [H1 H2].
      apply bool_decide_eq_true in H1, H2.
      destruct (singleton_of_size_1 l Hnd H1) as [x ->].
      apply bool_decide_eq_true.
      apply (elem_of_list_to_set (C:=gset Z)). rewrite <- H2.
      apply elem_of_list_to_set. apply list_elem_of_here.
    - injection Hc as Hc. exact Hc. }
  exists r. rewrite Hs in Hcor, Hpts. auto.
Qed.

Lemma check_answer_accepted_is_graded_correct_witness :
  exists r, grade_question q_one_correct (AInt 2) = Ok r /\
            GradeResult.correct r = true /\
            GradeResult.points_earned r = Question.points q_one_correct.
Proof.
  apply (check_answer_accepted_is_graded_correct q_one_correct (AInt 2) [2]).
  - left. reflexivity.
  - reflexivity.
  - apply NoDup_singleton.
  - vm_compute. reflexivity.
Defined.

(** A repeated index: the method builds a set and accepts, the grader
    counts two answers and refuses. *)
Example check_answer_repeated_index :
  Question_check_answer q_one_correct (AList [2; 2]) = Ok true /\
  bind (grade_question q_one_correct (AList [2; 2]))
       (fun r => Ok (GradeResult.correct r)) = Ok false.
Proof. split; vm_compute; reflexivity. Qed.
